(** * nasa-bio-knowledge: the publication processor of [backend/data_processor.py]

    A shallow embedding of [PublicationProcessor]: the content fetcher, the
    keyword and theme extraction, the knowledge-graph builder, the similarity
    and cluster engines and the full-text search engine, followed by the
    properties the specification states about them.

    Conventions.
    - Python [str] values are modelled by [string]; the text is taken to be
      ASCII, so [str.lower], [str.isalpha], [str.split] and the regular
      expression classes [\w] and [[a-zA-Z]] are the ASCII ones.
    - [dict] and [Counter] are insertion-ordered association lists, because
      the code iterates over them and the order decides ties.
    - Code that can raise returns an [outcome].
    - What NLTK, scikit-learn, the network and the random sampler do is not
      part of the repository: these are [Variable]s of the sections below. *)

From Stdlib Require Import String Ascii List Bool Arith Lia ZArith QArith.
From Stdlib Require Import Permutation Sorted.
Import ListNotations.

Local Open Scope string_scope.
Local Open Scope list_scope.
Local Open Scope nat_scope.

(** ** Python strings *)

Module PyStr.

Definition is_upper (c : ascii) : bool :=
  let n := nat_of_ascii c in (65 <=? n) && (n <=? 90).

Definition is_lower (c : ascii) : bool :=
  let n := nat_of_ascii c in (97 <=? n) && (n <=? 122).

Definition is_digit (c : ascii) : bool :=
  let n := nat_of_ascii c in (48 <=? n) && (n <=? 57).

(** [[a-zA-Z]] *)
Definition is_letter (c : ascii) : bool := is_upper c || is_lower c.

(** [\w] *)
Definition is_word_char (c : ascii) : bool :=
  is_letter c || is_digit c || (nat_of_ascii c =? 95).

(** The characters [str.split()] separates on: tab, LF, VT, FF, CR, the
    separators 28 to 31 and the space. *)
Definition is_space (c : ascii) : bool :=
  let n := nat_of_ascii c in
  ((9 <=? n) && (n <=? 13)) || ((28 <=? n) && (n <=? 32)).

Definition lower_char (c : ascii) : ascii :=
  if is_upper c then ascii_of_nat (nat_of_ascii c + 32) else c.

(** [s.lower()] *)
Fixpoint lower (s : string) : string :=
  match s with
  | EmptyString => EmptyString
  | String c r => String (lower_char c) (lower r)
  end.

(** [s.isalpha()]: non-empty and letters only. *)
Fixpoint all_letters (s : string) : bool :=
  match s with
  | EmptyString => true
  | String c r => is_letter c && all_letters r
  end.

Definition isalpha (s : string) : bool :=
  match s with
  | EmptyString => false
  | _ => all_letters s
  end.

(** [s.startswith(p)] *)
Fixpoint startswith (p s : string) : bool :=
  match p, s with
  | EmptyString, _ => true
  | String a p', String b s' => Ascii.eqb a b && startswith p' s'
  | String _ _, EmptyString => false
  end.

(** [s.endswith(p)] *)
Definition endswith (p s : string) : bool :=
  (String.length p <=? String.length s) &&
  String.eqb (substring (String.length s - String.length p) (String.length p) s) p.

(** [q in s] *)
Fixpoint contains (q s : string) : bool :=
  startswith q s ||
  match s with
  | EmptyString => false
  | String _ r => contains q r
  end.

(** [s.find(q, start)], [None] for -1. *)
Fixpoint find_at (q s : string) (i : nat) : option nat :=
  if startswith q s then Some i
  else match s with
       | EmptyString => None
       | String _ r => find_at q r (S i)
       end.

Fixpoint drop (n : nat) (s : string) : string :=
  match n, s with
  | O, _ => s
  | S k, String _ r => drop k r
  | S _, EmptyString => EmptyString
  end.

Definition find (q s : string) (start : nat) : option nat :=
  if String.length s <? start then None else find_at q (drop start s) start.

(** [s[a:b]] for [0 <= a] and [0 <= b]. *)
Definition slice (s : string) (a b : nat) : string := substring a (b - a) s.

(** [s[:-k]] *)
Definition drop_last (k : nat) (s : string) : string :=
  substring 0 (String.length s - k) s.

(** [s.split()]: the maximal runs of non-space characters. [cur] is the run
    being read, reversed. *)
Definition rev_string (l : list ascii) : string :=
  string_of_list_ascii (rev l).

Definition flush (cur : list ascii) (acc : list string) : list string :=
  match cur with
  | [] => acc
  | _ => rev_string cur :: acc
  end.

Fixpoint split_go (s : string) (cur : list ascii) (acc : list string) : list string :=
  match s with
  | EmptyString => rev (flush cur acc)
  | String c r =>
      if is_space c then split_go r [] (flush cur acc)
      else split_go r (c :: cur) acc
  end.

Definition split (s : string) : list string := split_go s [] [].

(** [sep.join(l)] *)
Fixpoint join (sep : string) (l : list string) : string :=
  match l with
  | [] => ""
  | [x] => x
  | x :: r => x ++ sep ++ join sep r
  end.

(** [s.split('/')[-1]]: what follows the last occurrence of [c]. *)
Fixpoint after_last (c : ascii) (s : string) : string :=
  match s with
  | EmptyString => EmptyString
  | String a r =>
      if existsb (Ascii.eqb c) (list_ascii_of_string r) then after_last c r
      else if Ascii.eqb a c then r else s
  end.

(** [s.split('.')[0]]: what precedes the first occurrence of [c]. *)
Fixpoint before_first (c : ascii) (s : string) : string :=
  match s with
  | EmptyString => EmptyString
  | String a r => if Ascii.eqb a c then EmptyString else String a (before_first c r)
  end.

Definition mem (x : string) (l : list string) : bool := existsb (String.eqb x) l.

End PyStr.

(** ** Regular expressions of the source

    Three patterns occur: [\b\w+\b], [\b[a-zA-Z]{k,}\b] and
    [\b<literal>\b]. *)

Module Re.
Import PyStr.

(** [re.findall(r'\b\w+\b', s)]: the maximal runs of word characters. *)
Fixpoint word_runs_go (s : string) (cur : list ascii) (acc : list string) : list string :=
  match s with
  | EmptyString => rev (flush cur acc)
  | String c r =>
      if is_word_char c then word_runs_go r (c :: cur) acc
      else word_runs_go r [] (flush cur acc)
  end.

Definition findall_words (s : string) : list string := word_runs_go s [] [].

(** [re.findall(r'\b[a-zA-Z]{k,}\b', s)]: a match starts and ends at a word
    boundary and has only letters between, so it is a maximal run of word
    characters that is all letters and has at least [k] of them. *)
Definition findall_alpha (k : nat) (s : string) : list string :=
  filter (fun w => all_letters w && (k <=? String.length w)) (findall_words s).

Definition head_is_word (s : string) : bool :=
  match s with
  | EmptyString => false
  | String c _ => is_word_char c
  end.

Fixpoint last_is_word (prev : bool) (s : string) : bool :=
  match s with
  | EmptyString => prev
  | String c r => last_is_word (is_word_char c) r
  end.

(** [\b<w>\b] matches at the head of [s], where [prev] says whether the
    character before [s] is a word character. *)
Definition word_at (prev : bool) (w s : string) : bool :=
  negb (Bool.eqb prev (head_is_word s))
  && startswith w s
  && negb (Bool.eqb (last_is_word prev w) (head_is_word (drop (String.length w) s))).

Fixpoint search_word_go (prev : bool) (w s : string) (i : nat) : option nat :=
  if word_at prev w s then Some i
  else match s with
       | EmptyString => None
       | String c r => search_word_go (is_word_char c) w r (S i)
       end.

(** [re.search(r'\b{}\b'.format(re.escape(w)), s)]: the start of the
    leftmost match; its end is the start plus [len(w)]. *)
Definition search_word (w s : string) : option nat := search_word_go false w s 0.

Definition matches_word (w s : string) : bool :=
  match search_word w s with Some _ => true | None => false end.

End Re.

(** ** Exceptions and dictionaries *)

Inductive exn : Type :=
| AttributeError (attr : string)
| KeyError (key : string)
| UnboundLocalError (name : string)
| NetworkXError (node : string)
| FetchFailure (message : string)
| OtherError (message : string).

Inductive outcome (A : Type) : Type :=
| Ret (a : A)
| Raise (e : exn).

Arguments Ret {A} a.
Arguments Raise {A} e.

Definition bind {A B : Type} (m : outcome A) (k : A -> outcome B) : outcome B :=
  match m with
  | Ret a => k a
  | Raise e => Raise e
  end.

Notation "x <- m ;; k" := (bind m (fun x => k))
  (at level 61, m at next level, right associativity).

(** A [dict] with string keys: an association list in insertion order, one
    entry per key. *)
Module Dict.

Definition t (V : Type) : Type := list (string * V).

Fixpoint get {V} (k : string) (d : t V) : option V :=
  match d with
  | [] => None
  | (k', v) :: r => if String.eqb k' k then Some v else get k r
  end.

(** [d[k] = v]: an existing key keeps its place. *)
Fixpoint set {V} (k : string) (v : V) (d : t V) : t V :=
  match d with
  | [] => [(k, v)]
  | (k', v') :: r =>
      if String.eqb k' k then (k', v) :: r else (k', v') :: set k v r
  end.

Definition keys {V} (d : t V) : list string := map fst d.

Definition has {V} (k : string) (d : t V) : bool :=
  match get k d with Some _ => true | None => false end.

End Dict.

(** ** Cached documents and the corpus *)

(** What [fetch_publication_content] returns and writes to the cache. The
    [timestamp] key ([time.time()]) is left out: nothing reads it. *)
Record Content : Type := mkContent {
  abstract : string;
  results : string;
  conclusion : string;
  full_text : string;
  source : string;
  status : string;
  error : option string
}.

(** A row of [publications_df]. *)
Record Row : Type := mkRow { Title : string; Link : string }.

(** ** Python lists and counters *)

Module Py.

(** [sorted(l, key=key, reverse=True)]: descending and stable, so equal
    keys keep the order they had in [l]. *)
Fixpoint insert_desc {A} (key : A -> nat) (x : A) (l : list A) : list A :=
  match l with
  | [] => [x]
  | y :: r => if key x <? key y then y :: insert_desc key x r else x :: l
  end.

Definition sorted_desc {A} (key : A -> nat) (l : list A) : list A :=
  fold_right (insert_desc key) [] l.

(** [l[:n]] for any integer [n]. *)
Definition slice_to {A} (n : Z) (l : list A) : list A :=
  if (0 <=? n)%Z then firstn (Z.to_nat n) l
  else firstn (List.length l - Z.to_nat (- n)) l.

(** [l[-n:]] for [n >= 0]; note that [l[-0:]] is all of [l]. *)
Definition last_n {A} (n : nat) (l : list A) : list A :=
  match n with
  | O => l
  | _ => skipn (List.length l - n) l
  end.

(** [Counter(words)]: counts in order of first occurrence. *)
Definition count_word (c : Dict.t nat) (w : string) : Dict.t nat :=
  match Dict.get w c with
  | Some n => Dict.set w (S n) c
  | None => Dict.set w 1 c
  end.

Definition Counter (words : list string) : Dict.t nat :=
  fold_left count_word words [].

(** [c.most_common(n)] *)
Definition most_common (n : nat) (c : Dict.t nat) : list (string * nat) :=
  firstn n (sorted_desc snd c).

End Py.

(** ** The graph: [networkx.Graph]

    [_node] maps a node to its attributes and [_adj] maps a node to its
    neighbours, each with the attributes of the edge; both are dictionaries,
    read in insertion order. The attribute dictionaries hold the keys the
    processor writes; a key that was never written is [None]. *)

Record NodeAttrs : Type := mkNodeAttrs {
  n_type : option string;
  n_url : option string;
  n_themes : option (list string)
}.

Record EdgeAttrs : Type := mkEdgeAttrs {
  e_weight : option nat;
  e_section : option string
}.

Record Graph : Type := mkGraph {
  _node : Dict.t NodeAttrs;
  _adj : Dict.t (Dict.t EdgeAttrs)
}.

Module Nx.

Definition empty : Graph := mkGraph [] [].

Definition or_else {A} (new old : option A) : option A :=
  match new with Some _ => new | None => old end.

(** [old.update(new)] *)
Definition update_node (old new : NodeAttrs) : NodeAttrs :=
  mkNodeAttrs (or_else (n_type new) (n_type old))
              (or_else (n_url new) (n_url old))
              (or_else (n_themes new) (n_themes old)).

Definition update_edge (old new : EdgeAttrs) : EdgeAttrs :=
  mkEdgeAttrs (or_else (e_weight new) (e_weight old))
              (or_else (e_section new) (e_section old)).

Definition no_node_attrs : NodeAttrs := mkNodeAttrs None None None.
Definition no_edge_attrs : EdgeAttrs := mkEdgeAttrs None None.

(** [n in G] *)
Definition has_node (G : Graph) (n : string) : bool := Dict.has n (_node G).

(** [G.add_node(n, **attr)] *)
Definition add_node (n : string) (attr : NodeAttrs) (G : Graph) : Graph :=
  match Dict.get n (_node G) with
  | None => mkGraph (Dict.set n (update_node no_node_attrs attr) (_node G))
                    (Dict.set n [] (_adj G))
  | Some old => mkGraph (Dict.set n (update_node old attr) (_node G)) (_adj G)
  end.

Definition adj_of (G : Graph) (n : string) : Dict.t EdgeAttrs :=
  match Dict.get n (_adj G) with
  | Some nbrs => nbrs
  | None => []
  end.

Definition ensure_node (n : string) (G : Graph) : Graph :=
  if has_node G n then G
  else mkGraph (Dict.set n no_node_attrs (_node G)) (Dict.set n [] (_adj G)).

(** [G.add_edge(u, v, **attr)] *)
Definition add_edge (u v : string) (attr : EdgeAttrs) (G : Graph) : Graph :=
  let G := ensure_node v (ensure_node u G) in
  let datadict :=
    match Dict.get v (adj_of G u) with
    | Some dd => update_edge dd attr
    | None => update_edge no_edge_attrs attr
    end in
  let adj := Dict.set u (Dict.set v datadict (adj_of G u)) (_adj G) in
  let adj := Dict.set v (Dict.set u datadict
                           (match Dict.get v adj with Some d => d | None => [] end)) adj in
  mkGraph (_node G) adj.

(** [G.neighbors(n)] *)
Definition neighbors (G : Graph) (n : string) : outcome (list string) :=
  match Dict.get n (_adj G) with
  | Some nbrs => Ret (Dict.keys nbrs)
  | None => Raise (NetworkXError n)
  end.

(** [G.nodes[n]['type']] *)
Definition node_type (G : Graph) (n : string) : outcome string :=
  match Dict.get n (_node G) with
  | Some a => match n_type a with
              | Some t => Ret t
              | None => Raise (KeyError "type")
              end
  | None => Raise (KeyError n)
  end.

(** [G.nodes[n].get('type')] for a node of the graph. *)
Definition get_type (G : Graph) (n : string) : option string :=
  match Dict.get n (_node G) with
  | Some a => n_type a
  | None => None
  end.

(** [G.edges(data=True)]: every node in turn with those of its neighbours
    that have not had their turn yet. *)
Fixpoint edges_go (adj : Dict.t (Dict.t EdgeAttrs)) (seen : list string)
  : list (string * string * EdgeAttrs) :=
  match adj with
  | [] => []
  | (n, nbrs) :: rest =>
      map (fun '(nbr, dd) => (n, nbr, dd))
          (filter (fun '(nbr, _) => negb (PyStr.mem nbr seen)) nbrs)
      ++ edges_go rest (n :: seen)
  end.

Definition edges (G : Graph) : list (string * string * EdgeAttrs) :=
  edges_go (_adj G) [].

(** [G.nodes.get(n)] and [G.get_edge_data(u, v)]: the attributes of a node
    and of an edge, [None] when the graph has none. *)
Definition node_attr (G : Graph) (n : string) : option NodeAttrs := Dict.get n (_node G).

Definition edge_attr (G : Graph) (u v : string) : option EdgeAttrs :=
  Dict.get v (adj_of G u).

(** [networkx.connected_components(G)]: a breadth-first search from every
    node not reached before. A component is a Python set; here its members
    stand in the order the search finds them. A level of the search adds a
    node or ends it, so the number of nodes bounds the levels. *)
Definition visit (G : Graph) (st : list string * list string) (v : string)
  : list string * list string :=
  fold_left
    (fun '(seen, nextlevel) w =>
       if PyStr.mem w seen then (seen, nextlevel) else (seen ++ [w], nextlevel ++ [w]))
    (Dict.keys (adj_of G v)) st.

Fixpoint plain_bfs (levels : nat) (G : Graph) (seen thislevel : list string) : list string :=
  match levels, thislevel with
  | O, _ => seen
  | _, [] => seen
  | S levels', _ =>
      let '(seen, nextlevel) := fold_left (visit G) thislevel (seen, []) in
      plain_bfs levels' G seen nextlevel
  end.

Definition connected_components (G : Graph) : list (list string) :=
  snd (fold_left
         (fun '(seen, components) v =>
            if PyStr.mem v seen then (seen, components)
            else let c := plain_bfs (List.length (_node G)) G [v] [v] in
                 (seen ++ c, components ++ [c]))
         (Dict.keys (_node G)) ([], [])).

End Nx.

(** ** The cache directory and the persisted graph *)

(** The node-link form [networkx.node_link_data] produces and
    [json.dump] writes: every node with its attributes, every edge with its
    end points and attributes. The constant keys [directed], [multigraph]
    and [graph] are left out. *)
Record NodeLinkData : Type := mkNodeLinkData {
  nl_nodes : list (string * NodeAttrs);
  nl_links : list (string * string * EdgeAttrs)
}.

(** What [json.load] makes of a file of the cache directory. *)
Inductive File : Type :=
| ContentFile (c : Content)
| GraphFile (d : NodeLinkData)
| Unreadable.

(** The state outside the processor: the cache directory, and how many
    network requests and random samples there have been. *)
Record World : Type := mkWorld {
  cache_dir : Dict.t File;
  requests : nat;
  draws : nat
}.

(** Code that reads and writes the world and can raise. *)
Definition M (A : Type) : Type := World -> outcome A * World.

Definition ret {A} (a : A) : M A := fun w => (Ret a, w).
Definition raise {A} (e : exn) : M A := fun w => (Raise e, w).
Definition lift {A} (o : outcome A) : M A := fun w => (o, w).

Definition bindM {A B} (m : M A) (k : A -> M B) : M B :=
  fun w => match m w with
           | (Ret a, w') => k a w'
           | (Raise e, w') => (Raise e, w')
           end.

(** [try: m except Exception as e: handler(e)] *)
Definition try_except {A} (m : M A) (handler : exn -> M A) : M A :=
  fun w => match m w with
           | (Ret a, w') => (Ret a, w')
           | (Raise e, w') => handler e w'
           end.

Notation "x <~ m ;; k" := (bindM m (fun x => k))
  (at level 61, m at next level, right associativity).

Fixpoint foldM {A B} (f : B -> A -> M B) (l : list A) (b : B) : M B :=
  match l with
  | [] => ret b
  | x :: r => b' <~ f b x ;; foldM f r b'
  end.

Definition write_file (name : string) (f : File) : M unit :=
  fun w => (Ret tt, mkWorld (Dict.set name f (cache_dir w)) (requests w) (draws w)).

Definition str_exn (e : exn) : string :=
  match e with
  | AttributeError a => ("'PublicationProcessor' object has no attribute '" ++ a ++ "'")%string
  | KeyError k => k
  | UnboundLocalError n => n
  | NetworkXError n => n
  | FetchFailure m => m
  | OtherError m => m
  end.

(** ** The class

    The two helpers the [except] branch of [fetch_publication_content]
    calls. An instance has an attribute only if the class body defines it or
    [__init__] assigns it; [None] is an attribute that is not there. *)
Record ClassBody : Type := mkClassBody {
  get_title_from_url : option (string -> option string);
  generate_synthetic_data : option (string -> Content)
}.

(** The attributes of an instance of [PublicationProcessor] as
    [data_processor.py] has it. *)
Definition PublicationProcessor_attributes : list string :=
  [ "publications_df"; "stop_words"; "knowledge_graph"; "cache_dir";
    "__init__"; "get_publication_count"; "fetch_publication_content";
    "extract_keywords"; "build_knowledge_graph"; "get_similar_publications";
    "identify_research_clusters"; "generate_graph_data_for_visualization";
    "get_publication_by_keyword"; "get_publications_by_keyword";
    "identify_publication_themes"; "search_publications_full_text";
    "_text_matches"; "_extract_context_snippets" ].

(** The class as written: no attribute is called [get_title_from_url] or
    [generate_synthetic_data]. *)
Definition PublicationProcessor : ClassBody := mkClassBody None None.

(** [self.<name>(arg)] *)
Definition call_method {A B} (name : string) (method : option (A -> B)) (arg : A) : outcome B :=
  match method with
  | Some f => Ret (f arg)
  | None => Raise (AttributeError name)
  end.

(** The basic stop words [__init__] falls back on when NLTK's list cannot be
    loaded. *)
Definition basic_stop_words : list string :=
  [ "a"; "an"; "the"; "and"; "or"; "but"; "if"; "because"; "as"; "what";
    "which"; "this"; "that"; "these"; "those"; "then"; "just"; "so"; "than"; "such";
    "when"; "who"; "how"; "where"; "why"; "is"; "are"; "was"; "were"; "be"; "been";
    "being"; "have"; "has"; "had"; "having"; "do"; "does"; "did"; "doing"; "to"; "at";
    "by"; "for"; "with"; "about"; "against"; "between"; "into"; "through"; "during";
    "before"; "after"; "above"; "below"; "from"; "up"; "down"; "in"; "out"; "on"; "off";
    "over"; "under"; "again"; "further"; "then"; "once"; "here"; "there"; "all"; "any";
    "both"; "each"; "few"; "more"; "most"; "other"; "some"; "such"; "no"; "nor"; "not";
    "only"; "own"; "same"; "so"; "than"; "too"; "very"; "can"; "will"; "just"; "should";
    "now"; "of"; "i"; "me"; "my"; "myself"; "we"; "our"; "ours"; "ourselves"; "you";
    "your"; "yours"; "yourself"; "yourselves"; "he"; "him"; "his"; "himself"; "she";
    "her"; "hers"; "herself"; "it"; "its"; "itself"; "they"; "them"; "their"; "theirs";
    "themselves" ].

(** ** Persisting the graph *)

(** [networkx.node_link_data(G)] *)
Definition node_link_data (G : Graph) : NodeLinkData :=
  mkNodeLinkData (_node G) (Nx.edges G).

(** [networkx.node_link_graph(data)] *)
Definition node_link_graph (data : NodeLinkData) : Graph :=
  let G := fold_left (fun G '(n, attr) => Nx.add_node n attr G) (nl_nodes data) Nx.empty in
  fold_left (fun G '(u, v, attr) => Nx.add_edge u v attr G) (nl_links data) G.

(** ** Fetching, keywords, themes and the graph builder *)

Section Processor.
Import PyStr.

Variable self : ClassBody.
Variable publications_df : list Row.
Variable stop_words : list string.

(** [nltk.word_tokenize]; [None] when it raises. *)
Variable word_tokenize : string -> option (list string).

(** [str(hash(url))] *)
Variable str_hash : string -> string.

(** [requests.get] and the extraction of the sections from the page: the
    record with [source='web'] and [status='success'], or the exception.
    The first argument counts the requests made before. *)
Variable fetch_from_web : nat -> string -> outcome Content.

(** [publications_df.sample(k)]; the first argument counts the samples
    drawn before. *)
Variable df_sample : nat -> list Row -> nat -> list Row.

(** [TfidfVectorizer().fit_transform(documents)], first row: every feature
    with its score, in the order of [argsort] (ascending score). A score
    is a binary floating-point number, hence a rational. *)
Variable tfidf_first_row : list string -> outcome (list (string * Q)).

Definition web_url (url : string) : string :=
  if contains "www.ncbi.nlm.nih.gov/pmc/articles/" url
  then let pmc_id := after_last "/"%char url in
       if String.eqb pmc_id "" then url
       else ("https://pmc.ncbi.nlm.nih.gov/articles/" ++ pmc_id ++ "/")%string
  else url.

Definition request (url : string) : M Content :=
  fun w => (fetch_from_web (requests w) url,
            mkWorld (cache_dir w) (S (requests w)) (draws w)).

Definition with_error (publication_data : Content) (e : exn) : Content :=
  mkContent (abstract publication_data) (results publication_data)
            (conclusion publication_data) (full_text publication_data)
            (source publication_data) "error" (Some (str_exn e)).

(** The [except Exception as e] branch. [url] is the address the [try]
    block left in the variable. *)
Definition fetch_failed (cache_file url : string) (cache : bool) (e : exn) : M Content :=
  title <~ lift (call_method "get_title_from_url" (get_title_from_url self) url) ;;
  match title with
  | Some (String _ _ as title) =>
      publication_data <~ lift (call_method "generate_synthetic_data"
                                  (generate_synthetic_data self) title) ;;
      let publication_data := with_error publication_data e in
      _ <~ (if cache then write_file cache_file (ContentFile publication_data)
            else ret tt) ;;
      ret publication_data
  | _ => ret (mkContent "" "" "" "" "error" "error" (Some (str_exn e)))
  end.

(** [fetch_publication_content(url, cache)]. The cache file is named after
    the address as given; the request goes to the rewritten address. The
    copy of the page written next to the cache file (the [_raw.html] file)
    is left out: nothing reads it. A cache file that holds no document makes
    [json.load] or the caller's [content['abstract']] raise. *)
Definition fetch_publication_content (url : string) (cache : bool) : M Content :=
  fun w =>
    let cache_file := (str_hash url ++ ".json")%string in
    match (if cache then Dict.get cache_file (cache_dir w) else None) with
    | Some (ContentFile data) => (Ret data, w)
    | Some (GraphFile _) => (Raise (OtherError "not a cached document"), w)
    | Some Unreadable => (Raise (OtherError "JSONDecodeError"), w)
    | None =>
        try_except
          (publication_data <~ request (web_url url) ;;
           _ <~ (if cache then write_file cache_file (ContentFile publication_data)
                 else ret tt) ;;
           ret publication_data)
          (fetch_failed cache_file (web_url url) cache)
          w
    end.

Definition not_stop_word (word : string) : bool := negb (mem word stop_words).

(** [extract_keywords(text, n)] *)
Definition keyword_tokens (text : string) : list string :=
  let words :=
    match word_tokenize (lower text) with
    | Some words => words
    | None => Re.findall_words (lower text)
    end in
  filter (fun word => isalpha word && not_stop_word word) words.

Definition extract_keywords (text : string) (n : nat) : list (string * nat) :=
  match text with
  | EmptyString => []
  | _ => Py.most_common n (Py.Counter (keyword_tokens text))
  end.

(** The words of a title: [re.findall(r'\b[a-zA-Z]{3,}\b', title)],
    lowered, stop words removed. *)
Definition title_tokens (title : string) : list string :=
  filter not_stop_word (map lower (Re.findall_alpha 3 title)).

Definition combined_text (content : Content) : string :=
  (abstract content ++ " " ++ abstract content ++ " " ++
   conclusion content ++ " " ++ conclusion content ++ " " ++ results content)%string.

Definition simple_filtered (text : string) : list string :=
  filter not_stop_word (Re.findall_alpha 4 (lower text)).

Definition theme_tokens (content : Content) : list string :=
  match word_tokenize (lower (combined_text content)) with
  | Some words =>
      filter (fun word => isalpha word && (3 <? String.length word) && not_stop_word word)
             words
  | None => simple_filtered (combined_text content)
  end.

Definition frequency_themes (filtered_words : list string) (n : nat) : list string :=
  map fst (Py.most_common n (Py.Counter filtered_words)).

Definition draw_sample (k : nat) : M (list Row) :=
  fun w => (Ret (df_sample (draws w) publications_df k),
            mkWorld (cache_dir w) (requests w) (S (draws w))).

(** One comparison document: the loop body with its own [try]. *)
Definition add_comparison (publication_title : string) (documents : list string)
    (row : Row) : M (list string) :=
  if String.eqb (Title row) publication_title then ret documents
  else
    try_except
      (other_pub_content <~ fetch_publication_content (Link row) true ;;
       let other_filtered := simple_filtered (abstract other_pub_content) in
       match abstract other_pub_content, other_filtered with
       | String _ _, _ :: _ => ret (documents ++ [join " " other_filtered])
       | _, _ => ret documents
       end)
      (fun _ => ret documents).

(** 0.1 as a double: 3602879701896397 / 2^55. *)
Definition score_threshold : Q := 3602879701896397 # 36028797018963968.

Definition tfidf_themes (documents : list string) (num_themes : nat) : outcome (list string) :=
  scored <- tfidf_first_row documents ;;
  let top_keywords := rev (Py.last_n (num_themes * 2) scored) in
  let top_keywords :=
    firstn num_themes
      (filter (fun kw => match Qcompare (snd kw) score_threshold with
                         | Gt => true | _ => false end) top_keywords) in
  Ret (map fst top_keywords).

(** The themes taken from the text, before the title is looked at. *)
Definition text_themes (publication_title : string) (filtered_words : list string)
    (num_themes : nat) : M (list string) :=
  if 10 <? List.length filtered_words then
    try_except
      (let documents := [join " " filtered_words] in
       let sample_count := Nat.min 5 (List.length publications_df - 1) in
       documents <~ (if 0 <? sample_count
                     then rows <~ draw_sample sample_count ;;
                          foldM (add_comparison publication_title) rows documents
                     else ret documents) ;;
       if 1 <? List.length documents
       then lift (tfidf_themes documents num_themes)
       else ret (frequency_themes filtered_words num_themes))
      (fun _ => ret (frequency_themes filtered_words num_themes))
  else
    ret (frequency_themes filtered_words
           (Nat.min (List.length (Py.Counter filtered_words)) num_themes)).

Definition identify_publication_themes (publication_title : string) (content : Content)
    (num_themes : nat) : M (list string) :=
  themes <~ text_themes publication_title (theme_tokens content) num_themes ;;
  let title_words :=
    if List.length themes <? num_themes then Some (title_tokens publication_title)
    else None in
  let themes :=
    match title_words with
    | Some title_words =>
        themes ++ map fst (Py.most_common (num_themes - List.length themes)
                             (Py.Counter title_words))
    | None => themes
    end in
  themes <~ match themes, title_words with
            | [], None => raise (UnboundLocalError "title_words")
            | [], Some (first :: _) => ret [first]
            | _, _ => ret themes
            end ;;
  ret (firstn num_themes themes).

(** The two loops over the keywords of a section. *)
Definition add_keywords (title section : string) (keywords : list (string * nat))
    (G : Graph) : Graph :=
  fold_left
    (fun G '(keyword, count) =>
       if 3 <? String.length keyword
       then Nx.add_edge title keyword (mkEdgeAttrs (Some count) (Some section))
              (Nx.add_node keyword (mkNodeAttrs (Some "keyword") None None) G)
       else G)
    keywords G.

(** What one turn of the loop over the rows does to the graph once the
    content is fetched and the themes are known. *)
Definition add_publication (title url : string) (publication_themes : list string)
    (content : Content) (G : Graph) : Graph :=
  let G := Nx.add_node title
             (mkNodeAttrs (Some "publication") (Some url) (Some publication_themes)) G in
  let G := add_keywords title "abstract" (extract_keywords (abstract content) 10) G in
  add_keywords title "conclusion" (extract_keywords (conclusion content) 10) G.

Definition process_row (G : Graph) (row : Row) : M Graph :=
  content <~ fetch_publication_content (Link row) true ;;
  publication_themes <~ identify_publication_themes (Title row) content 5 ;;
  ret (add_publication (Title row) (Link row) publication_themes content G).

Definition load_cached_graph : M (option Graph) :=
  fun w => match Dict.get "knowledge_graph.json" (cache_dir w) with
           | Some (GraphFile graph_data) => (Ret (Some (node_link_graph graph_data)), w)
           | _ => (Ret None, w)
           end.

Definition head (num_publications : option nat) : list Row :=
  match num_publications with
  | None => publications_df
  | Some n => firstn (Nat.min n (List.length publications_df)) publications_df
  end.

(** [build_knowledge_graph]; [G] is [self.knowledge_graph] before the
    call. *)
Definition build_knowledge_graph (G : Graph) (num_publications : option nat)
    (use_cache : bool) : M Graph :=
  cached <~ (if use_cache then load_cached_graph else ret None) ;;
  match cached with
  | Some loaded => ret loaded
  | None =>
      G <~ foldM process_row (head num_publications) G ;;
      _ <~ write_file "knowledge_graph.json" (GraphFile (node_link_data G)) ;;
      ret G
  end.

End Processor.

(** ** The graph as a function of the documents

    A run of the builder fetches one document per row; the graph it ends
    with is the one these documents give. *)

Record Doc : Type := mkDoc {
  doc_title : string;
  doc_url : string;
  doc_themes : list string;
  doc_content : Content
}.

Section GraphOfDocs.

Variable stop_words : list string.
Variable word_tokenize : string -> option (list string).

Definition add_doc (G : Graph) (d : Doc) : Graph :=
  add_publication stop_words word_tokenize
    (doc_title d) (doc_url d) (doc_themes d) (doc_content d) G.

Definition graph_of_docs (docs : list Doc) (G : Graph) : Graph :=
  fold_left add_doc docs G.

Definition abstract_keywords (d : Doc) : list (string * nat) :=
  extract_keywords stop_words word_tokenize (abstract (doc_content d)) 10.

Definition conclusion_keywords (d : Doc) : list (string * nat) :=
  extract_keywords stop_words word_tokenize (conclusion (doc_content d)) 10.

(** The terms a document gets a keyword node for. *)
Definition keyword_terms (d : Doc) : list string :=
  filter (fun keyword => 3 <? String.length keyword)
         (map fst (abstract_keywords d ++ conclusion_keywords d)).

End GraphOfDocs.

(** ** The similarity engine *)

Fixpoint fold_o {A B} (f : B -> A -> outcome B) (l : list A) (b : B) : outcome B :=
  match l with
  | [] => Ret b
  | x :: r => b' <- f b x ;; fold_o f r b'
  end.

Fixpoint filter_o {A} (f : A -> outcome bool) (l : list A) : outcome (list A) :=
  match l with
  | [] => Ret []
  | x :: r =>
      keep <- f x ;;
      r' <- filter_o f r ;;
      Ret (if keep then x :: r' else r')
  end.

Definition has_type (G : Graph) (t : string) (node : string) : outcome bool :=
  ty <- Nx.node_type G node ;; Ret (String.eqb ty t).

(** [d[k] = d.get(k, 0) + 1] *)
Definition bump (k : string) (d : Dict.t nat) : Dict.t nat :=
  Dict.set k (match Dict.get k d with Some n => n | None => 0 end + 1) d.

Definition tally_shared (G : Graph) (title : string) (similar_pubs : Dict.t nat)
    (keyword : string) : outcome (Dict.t nat) :=
  nbrs <- Nx.neighbors G keyword ;;
  fold_o (fun similar_pubs node =>
            if String.eqb node title then Ret similar_pubs
            else
              is_pub <- has_type G "publication" node ;;
              Ret (if is_pub then bump node similar_pubs else similar_pubs))
         nbrs similar_pubs.

Definition get_similar_publications (G : Graph) (title : string) (n : Z)
  : outcome (list (string * nat)) :=
  if negb (Nx.has_node G title) then Ret []
  else
    nbrs <- Nx.neighbors G title ;;
    keywords <- filter_o (has_type G "keyword") nbrs ;;
    similar_pubs <- fold_o (tally_shared G title) keywords [] ;;
    Ret (Py.slice_to n (Py.sorted_desc snd similar_pubs)).

(** ** The cluster engine *)

(** A cluster: its id, its publications, its themes. *)
Definition Cluster : Type := nat * list string * list string.

Definition cluster_id (c : Cluster) : nat := fst (fst c).
Definition cluster_pubs (c : Cluster) : list string := snd (fst c).
Definition cluster_themes (c : Cluster) : list string := snd c.
Definition cluster_size (c : Cluster) : nat := List.length (cluster_pubs c).

(** What the community detection hands over: the partition of
    [community_louvain.best_partition] (node to community id, in the order
    of the dictionary), or, when the import fails, the connected components
    of [networkx.connected_components]. *)
Inductive Detection : Type :=
| BestPartition (partition : list (string * nat))
| ImportFailed (connected_components : list (list string)).

Section Clusters.
Import PyStr.

Variable stop_words : list string.

(** [list(s)] for a set [s] of strings given by the elements added to it:
    Python does not fix the order, and nothing proved below depends on it. *)
Variable list_of_set : list string -> list string.

Variable G : Graph.

Definition is_publication (node : string) : bool :=
  match Nx.get_type G node with
  | Some t => String.eqb t "publication"
  | None => false
  end.

Definition is_keyword (node : string) : bool :=
  match Nx.get_type G node with
  | Some t => String.eqb t "keyword"
  | None => false
  end.

(** [communities[community_id].append(node)] *)
Fixpoint append_member (community_id : nat) (node : string)
    (communities : list (nat * list string)) : list (nat * list string) :=
  match communities with
  | [] => [(community_id, [node])]
  | (i, members) :: rest =>
      if i =? community_id then (i, members ++ [node]) :: rest
      else (i, members) :: append_member community_id node rest
  end.

Definition group_publications (partition : list (string * nat)) : list (nat * list string) :=
  fold_left
    (fun communities '(node, community_id) =>
       if Nx.has_node G node && is_publication node
       then append_member community_id node communities
       else communities)
    partition [].

Definition count_keywords (keyword_counts : Dict.t nat) (pub : string) : Dict.t nat :=
  fold_left
    (fun keyword_counts neighbor =>
       if is_keyword neighbor then bump neighbor keyword_counts else keyword_counts)
    (Dict.keys (Nx.adj_of G pub)) keyword_counts.

Definition title_themes (publications : list string) : list string :=
  let all_words :=
    flat_map (fun pub =>
                filter (fun word => negb (mem word stop_words))
                       (map lower (Re.findall_alpha 3 pub)))
             publications in
  map fst (filter (fun wc => 0 <? snd wc) (Py.most_common 5 (Py.Counter all_words))).

Definition themes_of (publications : list string) : list string :=
  let keyword_counts := fold_left count_keywords publications [] in
  let themes := map fst (firstn 5 (Py.sorted_desc snd keyword_counts)) in
  match themes with
  | [] => title_themes publications
  | _ => themes
  end.

(** The candidate clusters, before anything is merged. *)
Definition candidates (d : Detection) : list Cluster :=
  match d with
  | BestPartition partition =>
      map (fun '(community_id, publications) =>
             (community_id, publications, themes_of publications))
          (filter (fun c => negb (Nat.eqb (List.length (snd c)) 0))
                  (group_publications partition))
  | ImportFailed connected_components =>
      let indexed := combine (seq 0 (List.length connected_components)) connected_components in
      flat_map (fun '(i, component) =>
                  let publications := filter is_publication component in
                  match publications with
                  | [] => []
                  | _ => [(i, publications, themes_of publications)]
                  end)
               indexed
  end.

Definition theme_overlap (small_themes large_themes : list string) : bool :=
  existsb (fun t => mem t large_themes) small_themes.

Definition mergeable (small_themes large_themes : list string) : bool :=
  theme_overlap small_themes large_themes
  || match small_themes with [] => true | _ => false end
  || match large_themes with [] => true | _ => false end.

(** The scan [for i, large_cluster in enumerate(combined_communities)]:
    the list with the small cluster merged into the first cluster that
    takes it, or [None] when none does. *)
Fixpoint merge_into (combined_communities : list Cluster) (small_cluster : Cluster)
  : option (list Cluster) :=
  match combined_communities with
  | [] => None
  | large_cluster :: rest =>
      if mergeable (cluster_themes small_cluster) (cluster_themes large_cluster)
      then Some ((cluster_id large_cluster,
                  cluster_pubs large_cluster ++ cluster_pubs small_cluster,
                  cluster_themes large_cluster) :: rest)
      else match merge_into rest small_cluster with
           | Some rest' => Some (large_cluster :: rest')
           | None => None
           end
  end.

Definition place_small (combined_communities : list Cluster) (small_cluster : Cluster)
  : list Cluster :=
  match merge_into combined_communities small_cluster with
  | Some merged => merged
  | None => combined_communities ++ [small_cluster]
  end.

(** Everything from "Sort communities by size" to the final [sorted]; the
    fallback branch repeats the same statements. *)
Definition combine_clusters (communities_with_themes : list Cluster) : list Cluster :=
  let sorted_communities := Py.sorted_desc cluster_size communities_with_themes in
  let combined_communities := filter (fun c => 3 <=? cluster_size c) sorted_communities in
  let small_clusters := filter (fun c => negb (3 <=? cluster_size c)) sorted_communities in
  let combined_communities :=
    match small_clusters, combined_communities with
    | [], _ => combined_communities
    | _, _ :: _ => fold_left place_small small_clusters combined_communities
    | _, [] =>
        if 2 <=? List.length small_clusters
        then [(1, flat_map cluster_pubs small_clusters,
               firstn 5 (list_of_set (flat_map cluster_themes small_clusters)))]
        else small_clusters
    end in
  Py.sorted_desc cluster_size combined_communities.

Definition identify_research_clusters (d : Detection) : list Cluster :=
  combine_clusters (candidates d).

End Clusters.

(** ** The search engine *)

Record SearchResult : Type := mkSearchResult {
  sr_title : string;
  sr_url : string;
  matching_sections : list string;
  snippets : list (string * string)   (* text, section *)
}.

Section Search.
Import PyStr.

(** [nltk.word_tokenize] ([None] when it raises, as it does without the
    punkt data) and [PorterStemmer().stem]. *)
Variable word_tokenize : string -> option (list string).
Variable stem : string -> string.

(** The stemmed token set of [_text_matches]. *)
Definition text_stems (text : string) : list string :=
  match word_tokenize text with
  | Some text_tokens => map (fun word => stem (lower word)) text_tokens
  | None => map stem (split (lower text))
  end.

(** The body of the loop over the query words: [true] when the loop goes on
    to the next word, [false] when it returns [False]. *)
Definition query_word_matches (stems : list string) (text word : string) : bool :=
  if mem (stem word) stems then true
  else if String.length word <=? 3 then Re.matches_word word text
  else
    let found := Re.matches_word word text in
    let found := found || Re.matches_word (word ++ "s") text in
    let found := found || (endswith "s" word && Re.matches_word (drop_last 1 word) text) in
    let found := found || (endswith "es" word && Re.matches_word (drop_last 2 word) text) in
    let found := found || (endswith "ies" word && Re.matches_word (drop_last 3 word ++ "y") text) in
    found.

Definition _text_matches (text query : string) (exact_match : bool) : bool :=
  match text with
  | EmptyString => false
  | _ =>
      if exact_match then contains query text
      else forallb (query_word_matches (text_stems text) text) (split (lower query))
  end.

(** The snippet around a match at [start_idx, end_idx). *)
Definition context_snippet (text : string) (start_idx end_idx context_chars : nat) : string :=
  let snippet_start := start_idx - context_chars in
  let snippet_end := Nat.min (String.length text) (end_idx + context_chars) in
  let snippet := slice text snippet_start snippet_end in
  let snippet := if 0 <? snippet_start then ("..." ++ snippet)%string else snippet in
  if snippet_end <? String.length text then (snippet ++ "...")%string else snippet.

(** The [while] loop of the exact branch; it runs at most [max_snippets]
    times, which is the recursion argument. *)
Fixpoint exact_snippets (room : nat) (text query : string) (start_idx context_chars : nat)
  : list string :=
  match room with
  | O => []
  | S room' =>
      match find query text start_idx with
      | None => []
      | Some idx =>
          context_snippet text idx (idx + String.length query) context_chars
            :: exact_snippets room' text query (idx + String.length query) context_chars
      end
  end.

Definition variations (word : string) : list string :=
  let variations :=
    [word] ++
    (if 3 <? String.length word
     then [ (word ++ "s")%string;
            if endswith "s" word then drop_last 1 word else "";
            if endswith "es" word then drop_last 2 word else "";
            if endswith "ies" word then (drop_last 3 word ++ "y")%string else "" ]
     else []) in
  filter (fun v => negb (String.eqb v "")) variations.

(** The inner [for variation in variations] loop: the snippet of the first
    variation of at least 3 characters that occurs as a whole word. *)
Fixpoint first_variation_snippet (vs : list string) (text : string) (context_chars : nat)
  : option string :=
  match vs with
  | [] => None
  | variation :: rest =>
      if String.eqb variation "" || (String.length variation <? 3)
      then first_variation_snippet rest text context_chars
      else match Re.search_word variation text with
           | Some start_idx =>
               Some (context_snippet text start_idx
                       (start_idx + String.length variation) context_chars)
           | None => first_variation_snippet rest text context_chars
           end
  end.

Fixpoint fuzzy_snippets (query_words : list string) (text : string)
    (context_chars max_snippets : nat) (snippets : list string) : list string :=
  match query_words with
  | [] => snippets
  | word :: rest =>
      if max_snippets <=? List.length snippets then snippets
      else match first_variation_snippet (variations word) text context_chars with
           | Some snippet =>
               fuzzy_snippets rest text context_chars max_snippets (snippets ++ [snippet])
           | None => fuzzy_snippets rest text context_chars max_snippets snippets
           end
  end.

Definition _extract_context_snippets (text query : string) (exact_match : bool)
    (context_chars max_snippets : nat) : list string :=
  if exact_match then exact_snippets max_snippets text query 0 context_chars
  else fuzzy_snippets (split (lower query)) text context_chars max_snippets [].

(** [str(hash(url))], the stem of a cache file's name. *)
Variable str_hash : string -> string.

Variable publications_df : list Row.

Definition initial_url_hash_map : Dict.t Row :=
  fold_left
    (fun url_hash_map row =>
       if String.eqb (Link row) "" then url_hash_map
       else
         let url_hash := str_hash (Link row) in
         let m := Dict.set url_hash row url_hash_map in
         if startswith "-" url_hash then Dict.set (drop 1 url_hash) row m else m)
    publications_df [].

Definition is_cache_file (f : string) : bool :=
  endswith ".json" f && negb (String.eqb f "knowledge_graph.json")
  && negb (endswith "_raw.html" f).

(** The owner of a cache file that is not in the map under its own name. *)
Definition resolve_unmapped (url_hash_map : Dict.t Row) (file_hash : string)
    (content : Content) : option Row * Dict.t Row :=
  let by_unsigned :=
    if startswith "-" file_hash then Dict.get (drop 1 file_hash) url_hash_map else None in
  match by_unsigned with
  | Some row => (Some row, url_hash_map)
  | None =>
      let full_text := lower (full_text content) in
      match List.find (fun row =>
               let db_title := lower (Title row) in
               negb (String.eqb db_title "") && contains db_title full_text)
              publications_df with
      | Some row => (Some row, Dict.set file_hash row url_hash_map)
      | None => (None, url_hash_map)
      end
  end.

Definition section_selected (section : option string) (name : string) : bool :=
  match section with
  | None => true
  | Some s => String.eqb s name
  end.

(** The texts that match, each with the name of its section. *)
Definition matched_sections (content : Content) (query : string)
    (section : option string) (exact_match : bool) : list (string * string) :=
  let probe name text :=
    if section_selected section name && _text_matches (lower text) query exact_match
    then [(lower text, name)] else [] in
  let named :=
    probe "abstract" (abstract content) ++
    probe "results" (results content) ++
    probe "conclusion" (conclusion content) in
  match section, named with
  | None, [] =>
      if _text_matches (lower (full_text content)) query exact_match
      then [(lower (full_text content), "full text")] else []
  | _, _ => named
  end.

(** One turn of the loop over the cache files. A file that cannot be read
    raises inside the [try] and is skipped; one that holds no document has
    no section to match. *)
Definition search_file (query : string) (section : option string) (exact_match : bool)
    (st : list SearchResult * Dict.t Row) (file : string * File)
  : list SearchResult * Dict.t Row :=
  let '(found, url_hash_map) := st in
  let '(filename, loaded) := file in
  let file_hash := before_first "."%char filename in
  match loaded with
  | GraphFile _ | Unreadable => st
  | ContentFile content =>
      let '(publication_data, url_hash_map) :=
        match Dict.get file_hash url_hash_map with
        | Some row => (Some row, url_hash_map)
        | None => resolve_unmapped url_hash_map file_hash content
        end in
      match publication_data with
      | None => (found, url_hash_map)
      | Some row =>
          let matched := matched_sections content query section exact_match in
          match matched with
          | [] => (found, url_hash_map)
          | _ =>
              let context_snippets :=
                flat_map (fun '(text, section_name) =>
                            map (fun snippet => (snippet, section_name))
                                (_extract_context_snippets text query exact_match 100 2))
                         matched in
              if existsb (fun r => String.eqb (sr_title r) (Title row)) found
              then (found, url_hash_map)
              else (found ++ [mkSearchResult (Title row) (Link row)
                                (map snd matched) (firstn 3 context_snippets)],
                    url_hash_map)
          end
      end
  end.

(** [cache_dir] is what [os.listdir] lists: each name with what
    [json.load] makes of the file. *)
Definition search_publications_full_text (cache_dir : Dict.t File)
    (query : string) (section : option string) (exact_match : bool) : list SearchResult :=
  let query := lower query in
  let cache_files := filter (fun f => is_cache_file (fst f)) cache_dir in
  fst (fold_left (search_file query section exact_match) cache_files
         ([], initial_url_hash_map)).

End Search.

(** ** Sample surroundings

    Concrete values for what the sections above leave open, used where a
    statement is evaluated. *)

(** NLTK without its punkt data: [word_tokenize] raises [LookupError] and
    the code falls back on its own tokenisation. *)
Definition punkt_missing : string -> option (list string) := fun _ => None.

(** The Porter stemmer on the words of the examples: it maps "running" to
    "run" and leaves "run", "cell", "growth", "they", "daily" and "the"
    as they are. *)
Definition porter_sample (word : string) : string :=
  if String.eqb word "running" then "run" else word.

(** A network that is down. *)
Definition network_down : nat -> string -> outcome Content :=
  fun _ _ => Raise (FetchFailure "ConnectionError").

(** A sampler that takes the first rows. *)
Definition first_rows : nat -> list Row -> nat -> list Row :=
  fun _ rows k => firstn k rows.

(** A TF-IDF step that scores nothing; the sample texts are too short to
    reach it. *)
Definition no_scores : list string -> outcome (list (string * Q)) := fun _ => Ret [].

Definition cached (doc_abstract doc_conclusion : string) : File :=
  ContentFile (mkContent doc_abstract "" doc_conclusion doc_abstract "web" "success" None).

(** Four publications, three of them on bone. *)
Definition bone_corpus : list Row :=
  [ mkRow "Bone loss in mice" "https://example.org/pmc/1";
    mkRow "Bone density in orbit" "https://example.org/pmc/2";
    mkRow "Skeletal changes in rats" "https://example.org/pmc/3";
    mkRow "Seed germination in darkness" "https://example.org/pmc/4" ].

(** [str(hash(url))] in the sample process. *)
Definition sample_hash (url : string) : string :=
  match Dict.get url
          [ ("https://example.org/pmc/1", "1001"); ("https://example.org/pmc/2", "-1002");
            ("https://example.org/pmc/3", "1003"); ("https://example.org/pmc/4", "-1004");
            ("https://example.org/pmc/9", "1009") ] with
  | Some h => h
  | None => "0"
  end.

Definition bone_world : World :=
  mkWorld
    [ ("1001.json", cached "Bone density decreases" "Bone loss");
      ("-1002.json", cached "Bone density drops" "");
      ("1003.json", cached "Bone mass changes" "");
      ("-1004.json", cached "Seeds germinate slowly" "") ]
    0 0.

(** The builder in the sample surroundings. *)
Definition sample_build (corpus : list Row) (w : World) : outcome Graph * World :=
  build_knowledge_graph PublicationProcessor corpus basic_stop_words punkt_missing
    sample_hash network_down first_rows no_scores Nx.empty None false w.

(** The same, allowed to load the persisted graph. *)
Definition sample_build_from_cache (corpus : list Row) (w : World) : outcome Graph * World :=
  build_knowledge_graph PublicationProcessor corpus basic_stop_words punkt_missing
    sample_hash network_down first_rows no_scores Nx.empty None true w.

Definition graph_built (corpus : list Row) (w : World) : Graph :=
  match fst (sample_build corpus w) with
  | Ret G => G
  | Raise _ => Nx.empty
  end.

Definition bone_graph : Graph := graph_built bone_corpus bone_world.

(** The connected components of [bone_graph]: the three publications on
    bone with their keywords, and the fourth with its own. *)
Definition bone_components : list (list string) := Nx.connected_components bone_graph.

(** A corpus with a publication whose title is a word of its own
    abstract. *)
Definition growth_corpus : list Row := [ mkRow "growth" "https://example.org/pmc/1" ].

Definition growth_world : World :=
  mkWorld [ ("1001.json", cached "growth" "") ] 0 0.

(** A corpus of two publications, each titled with a word of the other's
    text. *)
Definition crossed_corpus : list Row :=
  [ mkRow "cells" "https://example.org/pmc/1"; mkRow "growth" "https://example.org/pmc/2" ].

Definition crossed_world : World :=
  mkWorld [ ("1001.json", cached "growth" "growth"); ("-1002.json", cached "cells" "") ] 0 0.

(** A long abstract: 144 different words, 'termaa' to 'termll', once
    each. *)
Definition sample_term (n : nat) : string :=
  ("term" ++ String (ascii_of_nat (97 + n / 12)) (String (ascii_of_nat (97 + n mod 12)) ""))%string.

Definition dense_abstract : string := PyStr.join " " (map sample_term (seq 0 144)).

Definition dense_content : Content :=
  mkContent dense_abstract "" "" dense_abstract "web" "success" None.

(** The bone corpus with a fifth publication, whose title has no word of 3
    letters that is not a stop word, and whose abstract is the long one. *)
Definition dense_row : Row := mkRow "To be or not to be" "https://example.org/pmc/9".

Definition dense_corpus : list Row := dense_row :: bone_corpus.

Definition dense_world : World :=
  mkWorld (("1009.json", ContentFile dense_content) :: cache_dir bone_world) 0 0.

(** [TfidfVectorizer] on a first document whose terms all occur equally
    often and in no other document: the row is normalised to length 1, so
    each of its k terms scores 1/sqrt(k) (1/12 for the 144 terms of the long
    abstract), and the terms of the other documents score 0. *)
Definition equal_scores (documents : list string) : outcome (list (string * Q)) :=
  match documents with
  | [] => Raise (OtherError "empty vocabulary")
  | first :: others =>
      let terms := nodup string_dec (PyStr.split first) in
      let score := 1 # Pos.of_nat (Nat.sqrt (List.length terms)) in
      Ret (map (fun t => (t, 0%Q)) (nodup string_dec (flat_map PyStr.split others))
           ++ map (fun t => (t, score)) terms)
  end.

(** [list(s)]: the distinct elements, in some order. *)
Definition distinct_elements : list string -> list string := nodup string_dec.

(** * Properties *)

(** ** Strings *)

(** [q] is a contiguous substring of [s]. *)
Definition Substring (q s : string) : Prop :=
  exists pre post : string, s = (pre ++ q ++ post)%string.

Section StringFacts.
Import PyStr.

Lemma startswith_iff (p s : string) :
  startswith p s = true <-> exists r, s = (p ++ r)%string.
Proof.
  revert s; induction p as [|a p IH]; intros s; simpl.
  - split; [intros _; now exists s | reflexivity].
  - destruct s as [|b s].
    + split; [discriminate | intros [r Hr]; discriminate].
    + rewrite andb_true_iff, IH. split.
      * intros [Hab [r ->]]. apply Ascii.eqb_eq in Hab. subst. now exists r.
      * intros [r Hr]. injection Hr as -> ->. split; [apply Ascii.eqb_refl | now exists r].
Qed.

Lemma contains_iff (q s : string) : contains q s = true <-> Substring q s.
Proof.
  induction s as [|c s IH].
  - simpl. rewrite orb_false_r, startswith_iff. split.
    + intros [r Hr]. exists "", r. exact Hr.
    + intros [pre [post H]]. destruct pre; [now exists post | discriminate].
  - cbn [contains]. rewrite orb_true_iff, IH, startswith_iff. split.
    + intros [[r Hr] | [pre [post H]]].
      * exists "", r. exact Hr.
      * exists (String c pre), post. simpl. now rewrite H.
    + intros [pre [post H]]. destruct pre as [|a pre].
      * left. now exists post.
      * right. simpl in H. injection H as _ H. now exists pre, post.
Qed.

Lemma lower_empty (s : string) : lower s = "" <-> s = "".
Proof. destruct s; simpl; split; congruence. Qed.

End StringFacts.

(** ** Exact matching *)

Section ExactMatch.
Import PyStr.

Variable word_tokenize : string -> option (list string).
Variable stem : string -> string.

Lemma exact_match_nonempty (text query : string) :
  text <> "" ->
  _text_matches word_tokenize stem text query true = contains query text.
Proof. destruct text; [congruence | reflexivity]. Qed.

(** C3, as the code has it: the search lowers the query and the section
    text and calls [_text_matches]; with [exact_match=True] the match
    succeeds exactly when the section text is not empty and the lowered
    query is a contiguous substring of the lowered text. *)
Theorem exact_match_iff_nonempty_substring (text query : string) :
  _text_matches word_tokenize stem (lower text) (lower query) true = true
  <-> text <> "" /\ Substring (lower query) (lower text).
Proof.
  destruct text as [|c text].
  - simpl. split; [discriminate | intros [H _]; congruence].
  - rewrite exact_match_nonempty by (simpl; discriminate).
    rewrite contains_iff. split; [intros H; split; [discriminate | exact H] | tauto].
Qed.

End ExactMatch.

(** C3, as stated, fails for the empty section text: the empty query is a
    contiguous substring of it, and the match does not succeed. *)
Lemma exact_match_empty_text_counterexample :
  _text_matches punkt_missing porter_sample (PyStr.lower "") (PyStr.lower "") true = false
  /\ Substring (PyStr.lower "") (PyStr.lower "").
Proof. split; [reflexivity | now exists "", ""]. Qed.

(** ** Fuzzy matching *)

(** A form of [word] occurs in [text] as a whole word: the word itself or,
    for a word of more than 3 characters, the word with an s added, without
    its final s, without its final es, or with its final ies turned into y. *)
Definition word_form_occurs (text word : string) : Prop :=
  Re.matches_word word text = true
  \/ (3 < String.length word
      /\ (Re.matches_word (word ++ "s") text = true
          \/ (PyStr.endswith "s" word = true
              /\ Re.matches_word (PyStr.drop_last 1 word) text = true)
          \/ (PyStr.endswith "es" word = true
              /\ Re.matches_word (PyStr.drop_last 2 word) text = true)
          \/ (PyStr.endswith "ies" word = true
              /\ Re.matches_word (PyStr.drop_last 3 word ++ "y") text = true))).

Lemma mem_In (x : string) (l : list string) : PyStr.mem x l = true <-> In x l.
Proof.
  unfold PyStr.mem. rewrite existsb_exists. split.
  - intros [y [Hy Heq]]. apply String.eqb_eq in Heq. now subst.
  - intros H. exists x. split; [exact H | apply String.eqb_refl].
Qed.

Lemma mem_false_not_In (x : string) (l : list string) : PyStr.mem x l = false <-> ~ In x l.
Proof.
  rewrite <- mem_In. destruct (PyStr.mem x l); split; intros; congruence.
Qed.

Section FuzzyMatch.
Import PyStr.

Variable word_tokenize : string -> option (list string).
Variable stem : string -> string.

(** A query word matches a section text. *)
Definition word_matches (text word : string) : Prop :=
  In (stem word) (text_stems word_tokenize stem text) \/ word_form_occurs text word.

Lemma query_word_matches_iff (text word : string) :
  query_word_matches stem (text_stems word_tokenize stem text) text word = true
  <-> word_matches text word.
Proof.
  unfold query_word_matches, word_matches, word_form_occurs.
  destruct (mem (stem word) (text_stems word_tokenize stem text)) eqn:Hmem.
  - apply mem_In in Hmem. tauto.
  - apply mem_false_not_In in Hmem.
    destruct (String.length word <=? 3) eqn:Hlen.
    + apply Nat.leb_le in Hlen. split; [tauto | intros [H | [H | [H _]]]; [tauto | exact H | lia]].
    + apply Nat.leb_gt in Hlen.
      repeat rewrite orb_true_iff. repeat rewrite andb_true_iff. tauto.
Qed.

Lemma fuzzy_match_iff (text query : string) :
  _text_matches word_tokenize stem text query false = true
  <-> text <> "" /\ Forall (word_matches text) (split (lower query)).
Proof.
  destruct text as [|c text].
  - simpl. split; [discriminate | intros [H _]; congruence].
  - cbn [_text_matches]. rewrite forallb_forall, Forall_forall. split.
    + intros H. split; [discriminate |].
      intros w Hw. apply query_word_matches_iff. now apply H.
    + intros [_ H] w Hw. apply query_word_matches_iff. now apply H.
Qed.

(** C4: in fuzzy mode a section matches only if every whitespace-separated
    word of the query matches on its own, by its stem or by one of its
    forms occurring as a whole word; so for the query 'cell growth' a
    section with no form of 'growth' does not match. *)
Theorem fuzzy_match_is_conjunctive :
  (forall text query : string,
      _text_matches word_tokenize stem text query false = true ->
      Forall (word_matches text) (split (lower query)))
  /\ (forall text : string,
         ~ In (stem "growth") (text_stems word_tokenize stem text) ->
         Re.matches_word "growth" text = false ->
         Re.matches_word "growths" text = false ->
         _text_matches word_tokenize stem text "cell growth" false = false).
Proof.
  split.
  - intros text query H. now apply fuzzy_match_iff in H.
  - intros text Hstem Hword Hplural.
    destruct (_text_matches word_tokenize stem text "cell growth" false) eqn:E; [|reflexivity].
    apply fuzzy_match_iff in E. destruct E as [_ E].
    change (split (lower "cell growth")) with ["cell"; "growth"] in E.
    inversion E as [|? ? _ E']; subst. inversion E' as [|? ? Hg _]; subst.
    exfalso. destruct Hg as [Hg | [Hg | [_ [Hg | [[Hg _] | [[Hg _] | [Hg _]]]]]]].
    + now apply Hstem.
    + congruence.
    + change ("growth" ++ "s")%string with "growths" in Hg. congruence.
    + discriminate Hg.
    + discriminate Hg.
    + discriminate Hg.
Qed.

End FuzzyMatch.

(** A section that holds only 'cell' does not match 'cell growth'. *)
Lemma fuzzy_match_cell_growth_witness :
  _text_matches punkt_missing porter_sample "cell" "cell growth" false = false.
Proof.
  apply (proj2 (fuzzy_match_is_conjunctive punkt_missing porter_sample)).
  - simpl. intros [H | []]. discriminate H.
  - reflexivity.
  - reflexivity.
Defined.

(** ** A match by stem leaves no snippet *)

Definition sample_row : Row := mkRow "Locomotion in orbit" "https://example.org/pmc/1".

Definition sample_document : Content :=
  mkContent "they run daily" "" "" "" "web" "success" None.

Section StemOnlyMatch.
Import PyStr.

Variable word_tokenize : string -> option (list string).
Variable stem : string -> string.
Variable str_hash : string -> string.

Hypothesis stem_running : stem "running" = "run".
Hypothesis stem_run : stem "run" = "run".
Hypothesis tokens :
  word_tokenize "they run daily" = None
  \/ word_tokenize "they run daily" = Some ["they"; "run"; "daily"].
Hypothesis hash_of_link : str_hash (Link sample_row) = "7041".

Lemma run_in_stems : In "run" (text_stems word_tokenize stem "they run daily").
Proof.
  unfold text_stems. destruct tokens as [-> | ->].
  - change (split (lower "they run daily")) with ["they"; "run"; "daily"].
    simpl. right. left. exact stem_run.
  - simpl. right. left. exact stem_run.
Qed.

Lemma abstract_matches_by_stem :
  _text_matches word_tokenize stem "they run daily" "running" false = true.
Proof.
  apply fuzzy_match_iff. split; [discriminate |].
  change (split (lower "running")) with ["running"].
  constructor; [| constructor]. left. rewrite stem_running. exact run_in_stems.
Qed.

Lemma sample_matched_sections :
  matched_sections word_tokenize stem sample_document "running" None false
  = [("they run daily", "abstract")].
Proof.
  unfold matched_sections.
  change (lower (abstract sample_document)) with "they run daily".
  change (lower (results sample_document)) with "".
  change (lower (conclusion sample_document)) with "".
  rewrite abstract_matches_by_stem. reflexivity.
Qed.

Lemma sample_url_hash_map :
  initial_url_hash_map str_hash [sample_row] = [("7041", sample_row)].
Proof.
  unfold initial_url_hash_map. cbn [fold_left].
  change (String.eqb (Link sample_row) "") with false. cbv iota zeta.
  rewrite hash_of_link. reflexivity.
Qed.

(** C10: a cached document whose abstract is 'they run daily' matches the
    fuzzy query 'running' through the stem 'run', and the result has a
    matching section and no snippet, because neither 'running' nor
    'runnings' occurs in the text. *)
Theorem stem_match_yields_no_snippet :
  search_publications_full_text word_tokenize stem str_hash [sample_row]
    [("7041.json", ContentFile sample_document)] "running" None false
  = [mkSearchResult "Locomotion in orbit" "https://example.org/pmc/1" ["abstract"] []].
Proof.
  unfold search_publications_full_text.
  rewrite sample_url_hash_map.
  change (lower "running") with "running".
  change (filter (fun f => is_cache_file (fst f)) [("7041.json", ContentFile sample_document)])
    with [("7041.json", ContentFile sample_document)].
  cbn [fold_left]. unfold search_file.
  change (before_first "." "7041.json") with "7041".
  change (Dict.get "7041" [("7041", sample_row)]) with (Some sample_row).
  cbv iota beta zeta.
  rewrite sample_matched_sections. reflexivity.
Qed.

End StemOnlyMatch.

(** The surroundings of C10 exist: the hash is any function with the given
    value, the tokenizer is unavailable, the stems are Porter's. *)
Lemma stem_match_yields_no_snippet_witness :
  search_publications_full_text punkt_missing porter_sample (fun _ => "7041") [sample_row]
    [("7041.json", ContentFile sample_document)] "running" None false
  = [mkSearchResult "Locomotion in orbit" "https://example.org/pmc/1" ["abstract"] []].
Proof.
  apply (stem_match_yields_no_snippet punkt_missing porter_sample (fun _ => "7041")).
  - reflexivity.
  - reflexivity.
  - left. reflexivity.
  - reflexivity.
Defined.

(** ** The content fetcher when the network fails *)

Definition empty_world : World := mkWorld [] 0 0.

Section FetchFails.

Variable str_hash : string -> string.
Variable fetch_from_web : nat -> string -> outcome Content.

(** Neither helper is among the attributes of an instance. *)
Lemma helpers_are_not_attributes :
  PyStr.mem "get_title_from_url" PublicationProcessor_attributes = false
  /\ PyStr.mem "generate_synthetic_data" PublicationProcessor_attributes = false.
Proof. split; reflexivity. Qed.

(** C1 fails on the code: when the cache lookup misses and the fetch raises,
    the [except] branch calls [self.get_title_from_url], which the class
    does not define, and the [AttributeError] leaves
    [fetch_publication_content]. *)
Theorem fetch_failure_raises_attribute_error (url : string) (cache : bool) (w : World) (e : exn) :
  Dict.get (str_hash url ++ ".json") (cache_dir w) = None ->
  fetch_from_web (requests w) (web_url url) = Raise e ->
  fst (fetch_publication_content PublicationProcessor str_hash fetch_from_web url cache w)
  = Raise (AttributeError "get_title_from_url").
Proof.
  intros Hmiss Hfetch. unfold fetch_publication_content.
  rewrite Hmiss. replace (if cache then None else None) with (@None File) by now destruct cache.
  unfold try_except, bindM, request. rewrite Hfetch. reflexivity.
Qed.

(** With both helpers defined the same branch does what the claim says: it
    returns a record whose status is 'error'. *)
Lemma fetch_failure_degrades_when_helpers_exist
    (title_of : string -> option string) (synthetic : string -> Content)
    (url : string) (cache : bool) (w : World) (e : exn) :
  Dict.get (str_hash url ++ ".json") (cache_dir w) = None ->
  fetch_from_web (requests w) (web_url url) = Raise e ->
  exists publication_data,
    fst (fetch_publication_content (mkClassBody (Some title_of) (Some synthetic))
           str_hash fetch_from_web url cache w) = Ret publication_data
    /\ status publication_data = "error".
Proof.
  intros Hmiss Hfetch. unfold fetch_publication_content.
  rewrite Hmiss. replace (if cache then None else None) with (@None File) by now destruct cache.
  unfold try_except, bindM, request. rewrite Hfetch.
  unfold fetch_failed, bindM, lift, call_method. cbn [get_title_from_url generate_synthetic_data].
  destruct (title_of (web_url url)) as [[|c title]|].
  - eexists. split; reflexivity.
  - destruct cache; eexists; split; reflexivity.
  - eexists. split; reflexivity.
Qed.

End FetchFails.

(** A miss and a network that is down. *)
Lemma fetch_failure_raises_attribute_error_witness :
  fst (fetch_publication_content PublicationProcessor (fun _ => "7041") network_down
         "https://example.org/pmc/1" true empty_world)
  = Raise (AttributeError "get_title_from_url").
Proof.
  apply (fetch_failure_raises_attribute_error (fun _ => "7041") network_down
           "https://example.org/pmc/1" true empty_world (FetchFailure "ConnectionError")).
  - reflexivity.
  - reflexivity.
Defined.

(** ** Dictionaries and sorting *)

Section DictFacts.
Context {V : Type}.

Lemma get_set_same (k : string) (v : V) (d : Dict.t V) :
  Dict.get k (Dict.set k v d) = Some v.
Proof.
  induction d as [|[k' v'] d IH]; simpl.
  - now rewrite String.eqb_refl.
  - destruct (String.eqb k' k) eqn:E; simpl; rewrite E; [reflexivity | exact IH].
Qed.

Lemma get_set_other (k k' : string) (v : V) (d : Dict.t V) :
  k <> k' -> Dict.get k' (Dict.set k v d) = Dict.get k' d.
Proof.
  intros Hne. induction d as [|[k0 v0] d IH]; simpl.
  - destruct (String.eqb k k') eqn:E; [apply String.eqb_eq in E; congruence | reflexivity].
  - destruct (String.eqb k0 k) eqn:E; simpl.
    + apply String.eqb_eq in E. subst k0.
      destruct (String.eqb k k') eqn:E'; [apply String.eqb_eq in E'; congruence | reflexivity].
    + now rewrite IH.
Qed.

Lemma get_set (k k' : string) (v : V) (d : Dict.t V) :
  Dict.get k' (Dict.set k v d) = if String.eqb k k' then Some v else Dict.get k' d.
Proof.
  destruct (String.eqb k k') eqn:E.
  - apply String.eqb_eq in E. subst. apply get_set_same.
  - apply get_set_other. intros ->. now rewrite String.eqb_refl in E.
Qed.

Lemma keys_set (k : string) (v : V) (d : Dict.t V) :
  Dict.keys (Dict.set k v d)
  = if Dict.has k d then Dict.keys d else Dict.keys d ++ [k].
Proof.
  unfold Dict.has. induction d as [|[k' v'] d IH]; simpl.
  - reflexivity.
  - destruct (String.eqb k' k) eqn:E; simpl.
    + reflexivity.
    + rewrite IH. now destruct (Dict.get k d).
Qed.

Lemma in_keys_set (k k' : string) (v : V) (d : Dict.t V) :
  In k' (Dict.keys (Dict.set k v d)) -> k' = k \/ In k' (Dict.keys d).
Proof.
  rewrite keys_set. destruct (Dict.has k d); [tauto |].
  rewrite in_app_iff. simpl. intuition.
Qed.

Lemma get_some_in_keys (k : string) (v : V) (d : Dict.t V) :
  Dict.get k d = Some v -> In k (Dict.keys d).
Proof.
  induction d as [|[k' v'] d IH]; simpl; [discriminate |].
  destruct (String.eqb k' k) eqn:E.
  - apply String.eqb_eq in E. now left.
  - intros H. right. now apply IH.
Qed.

Lemma get_none_not_in_keys (k : string) (d : Dict.t V) :
  Dict.get k d = None <-> ~ In k (Dict.keys d).
Proof.
  induction d as [|[k' v'] d IH]; simpl; [tauto |].
  destruct (String.eqb k' k) eqn:E.
  - apply String.eqb_eq in E. split; [discriminate | intros H; exfalso; apply H; now left].
  - rewrite IH. apply String.eqb_neq in E. tauto.
Qed.

Lemma get_in (k : string) (v : V) (d : Dict.t V) :
  Dict.get k d = Some v -> In (k, v) d.
Proof.
  induction d as [|[k' v'] d IH]; simpl; [discriminate |].
  destruct (String.eqb k' k) eqn:E.
  - apply String.eqb_eq in E. intros [= ->]. subst. now left.
  - intros H. right. now apply IH.
Qed.

Lemma in_get_nodup (k : string) (v : V) (d : Dict.t V) :
  NoDup (Dict.keys d) -> In (k, v) d -> Dict.get k d = Some v.
Proof.
  induction d as [|[k' v'] d IH]; simpl; [tauto |].
  intros Hnd [H | H].
  - injection H as -> ->. now rewrite String.eqb_refl.
  - inversion Hnd as [|? ? Hnotin Hnd']; subst.
    destruct (String.eqb k' k) eqn:E.
    + apply String.eqb_eq in E. subst. exfalso. apply Hnotin.
      change (In (fst (k, v)) (map fst d)). now apply in_map.
    + now apply IH.
Qed.

Lemma nodup_keys_set (k : string) (v : V) (d : Dict.t V) :
  NoDup (Dict.keys d) -> NoDup (Dict.keys (Dict.set k v d)).
Proof.
  intros Hnd. rewrite keys_set. unfold Dict.has.
  destruct (Dict.get k d) eqn:E; [exact Hnd |].
  apply get_none_not_in_keys in E.
  apply NoDup_rev in Hnd. rewrite <- (rev_involutive (Dict.keys d ++ [k])).
  apply NoDup_rev. rewrite rev_app_distr. simpl. constructor; [| exact Hnd].
  now rewrite <- in_rev.
Qed.

End DictFacts.

Section SliceFacts.
Context {A : Type}.

Lemma in_firstn (n : nat) (x : A) (l : list A) : In x (firstn n l) -> In x l.
Proof.
  revert n. induction l as [|y l IH]; intros [|n]; simpl; try tauto.
  intros [H | H]; [now left | right; eapply IH; exact H].
Qed.

Lemma firstn_sorted (R : A -> A -> Prop) (n : nat) (l : list A) :
  StronglySorted R l -> StronglySorted R (firstn n l).
Proof.
  intros H. revert n. induction H as [|x l Hl IH Hx]; intros [|n]; simpl; try constructor.
  - apply IH.
  - rewrite Forall_forall in *. intros y Hy. apply Hx. eapply in_firstn. exact Hy.
Qed.

Lemma in_slice_to (n : Z) (x : A) (l : list A) : In x (Py.slice_to n l) -> In x l.
Proof. unfold Py.slice_to. destruct (0 <=? n)%Z; apply in_firstn. Qed.

Lemma slice_to_sorted (R : A -> A -> Prop) (n : Z) (l : list A) :
  StronglySorted R l -> StronglySorted R (Py.slice_to n l).
Proof. unfold Py.slice_to. destruct (0 <=? n)%Z; apply firstn_sorted. Qed.

End SliceFacts.

Section SortFacts.
Context {A : Type}.
Variable key : A -> nat.

Definition descending (a b : A) : Prop := key b <= key a.

Lemma in_insert_desc (x y : A) (l : list A) :
  In y (Py.insert_desc key x l) <-> y = x \/ In y l.
Proof.
  induction l as [|z l IH]; simpl.
  - intuition.
  - destruct (key x <? key z); simpl; [rewrite IH |]; intuition.
Qed.

Lemma in_sorted_desc (y : A) (l : list A) : In y (Py.sorted_desc key l) <-> In y l.
Proof.
  induction l as [|x l IH]; simpl; [tauto |].
  rewrite in_insert_desc, IH. intuition.
Qed.

Lemma insert_desc_sorted (x : A) (l : list A) :
  StronglySorted descending l -> StronglySorted descending (Py.insert_desc key x l).
Proof.
  induction 1 as [|z l Hl IH Hz]; simpl.
  - constructor; constructor.
  - destruct (key x <? key z) eqn:E.
    + apply Nat.ltb_lt in E. constructor; [exact IH |].
      apply Forall_forall. intros y Hy. apply in_insert_desc in Hy.
      destruct Hy as [-> | Hy]; [unfold descending; lia |].
      rewrite Forall_forall in Hz. now apply Hz.
    + apply Nat.ltb_ge in E. constructor; [now constructor |].
      constructor; [exact E |].
      eapply Forall_impl; [| exact Hz]. unfold descending. intros; lia.
Qed.

Lemma sorted_desc_sorted (l : list A) : StronglySorted descending (Py.sorted_desc key l).
Proof.
  induction l as [|x l IH]; simpl; [constructor | now apply insert_desc_sorted].
Qed.

Lemma sorted_desc_perm (l : list A) : Permutation (Py.sorted_desc key l) l.
Proof.
  induction l as [|x l IH]; simpl; [constructor |].
  transitivity (x :: Py.sorted_desc key l); [| now constructor].
  clear IH. induction (Py.sorted_desc key l) as [|z m IHm]; simpl; [reflexivity |].
  destruct (key x <? key z); [| reflexivity].
  transitivity (z :: x :: m); [now constructor | constructor].
Qed.

Lemma length_sorted_desc (l : list A) : List.length (Py.sorted_desc key l) = List.length l.
Proof. apply Permutation_length, sorted_desc_perm. Qed.

End SortFacts.

(** ** The similarity engine *)

Lemma fold_o_invariant {A B : Type} (P : B -> Prop) (f : B -> A -> outcome B) (l : list A) :
  (forall b x b', P b -> f b x = Ret b' -> P b') ->
  forall b b', P b -> fold_o f l b = Ret b' -> P b'.
Proof.
  intros Hstep. induction l as [|x l IH]; simpl; intros b b' Hb H.
  - now injection H as <-.
  - destruct (f b x) as [b1|e] eqn:E; simpl in H; [| discriminate].
    eapply IH; [| exact H]. eapply Hstep; eauto.
Qed.

Section Similar.

Variable G : Graph.
Variable title : string.

Definition excludes_title (similar_pubs : Dict.t nat) : Prop :=
  forall pub, In pub (Dict.keys similar_pubs) -> pub <> title.

Lemma bump_excludes_title (node : string) (similar_pubs : Dict.t nat) :
  node <> title -> excludes_title similar_pubs -> excludes_title (bump node similar_pubs).
Proof.
  intros Hne H pub Hin. unfold bump in Hin. apply in_keys_set in Hin.
  destruct Hin as [-> | Hin]; [exact Hne | now apply H].
Qed.

Lemma tally_shared_excludes_title (similar_pubs similar_pubs' : Dict.t nat) (keyword : string) :
  excludes_title similar_pubs ->
  tally_shared G title similar_pubs keyword = Ret similar_pubs' ->
  excludes_title similar_pubs'.
Proof.
  unfold tally_shared. intros H. destruct (Nx.neighbors G keyword) as [nbrs|e]; simpl; [| discriminate].
  apply fold_o_invariant; [| exact H].
  intros b node b' Hb Hstep. destruct (String.eqb node title) eqn:E.
  - now injection Hstep as <-.
  - apply String.eqb_neq in E.
    destruct (has_type G "publication" node) as [[|]|e]; simpl in Hstep;
      try discriminate; injection Hstep as <-; [now apply bump_excludes_title | exact Hb].
Qed.

(** C5: the list [get_similar_publications] returns has no pair for the
    queried title, and its counts do not increase from first to last. *)
Theorem similar_excludes_title_and_descends (n : Z) (similar : list (string * nat)) :
  get_similar_publications G title n = Ret similar ->
  (forall pub count, In (pub, count) similar -> pub <> title)
  /\ StronglySorted (fun a b => snd b <= snd a) similar.
Proof.
  unfold get_similar_publications.
  destruct (negb (Nx.has_node G title)).
  - intros [= <-]. split; [intros ? ? [] | constructor].
  - destruct (Nx.neighbors G title) as [nbrs|e]; simpl; [| discriminate].
    destruct (filter_o (has_type G "keyword") nbrs) as [keywords|e]; simpl; [| discriminate].
    destruct (fold_o (tally_shared G title) keywords []) as [similar_pubs|e] eqn:E;
      simpl; [| discriminate].
    intros [= <-]. split.
    + intros pub count Hin. apply in_slice_to in Hin. rewrite in_sorted_desc in Hin.
      assert (Hex : excludes_title similar_pubs).
      { eapply (fold_o_invariant excludes_title); [| | exact E].
        - intros b x b' Hb Hx. eapply tally_shared_excludes_title; eauto.
        - intros ? []. }
      apply Hex. apply (in_map fst) in Hin. exact Hin.
    + apply slice_to_sorted. apply (sorted_desc_sorted snd).
Qed.

End Similar.

(** ** The cluster engine: what the merge pass leaves small *)

Section ClusterSizes.

Variable list_of_set : list string -> list string.

Lemma mergeable_false (small_themes large_themes : list string) :
  mergeable small_themes large_themes = false ->
  small_themes <> [] /\ large_themes <> []
  /\ theme_overlap small_themes large_themes = false.
Proof.
  unfold mergeable. intros H.
  apply orb_false_iff in H. destruct H as [H Hl].
  apply orb_false_iff in H. destruct H as [Ho Hs].
  destruct small_themes; [discriminate |]. destruct large_themes; [discriminate |].
  repeat split; try discriminate. exact Ho.
Qed.

Lemma merge_into_none (combined : list Cluster) (small : Cluster) :
  merge_into combined small = None ->
  forall x, In x combined -> mergeable (cluster_themes small) (cluster_themes x) = false.
Proof.
  induction combined as [|large rest IH]; simpl; [intros _ ? [] |].
  destruct (mergeable (cluster_themes small) (cluster_themes large)) eqn:E; [discriminate |].
  destruct (merge_into rest small); [discriminate |].
  intros _ x [<- | Hx]; [exact E | now apply IH].
Qed.

Lemma merge_into_some (combined merged : list Cluster) (small : Cluster) :
  merge_into combined small = Some merged ->
  exists before large after,
    combined = before ++ large :: after
    /\ merged = before ++ (cluster_id large, cluster_pubs large ++ cluster_pubs small,
                           cluster_themes large) :: after.
Proof.
  revert merged. induction combined as [|large rest IH]; simpl; intros merged; [discriminate |].
  destruct (mergeable (cluster_themes small) (cluster_themes large)).
  - intros [= <-]. now exists [], large, rest.
  - destruct (merge_into rest small) as [rest'|]; [| discriminate].
    intros [= <-]. destruct (IH rest' eq_refl) as [before [l [after [-> ->]]]].
    now exists (large :: before), l, after.
Qed.

(** The candidate clusters of 3 publications or more, the ones a small
    cluster is offered to. *)
Variable larges : list Cluster.

(** A cluster that found no taker: it has themes, every large candidate has
    themes, and no theme is shared. *)
Definition unmatched (c : Cluster) : Prop :=
  forall large, In large larges ->
    cluster_themes c <> [] /\ cluster_themes large <> []
    /\ theme_overlap (cluster_themes c) (cluster_themes large) = false.

Definition merge_invariant (combined : list Cluster) : Prop :=
  (forall large, In large larges ->
     exists x, In x combined /\ cluster_themes x = cluster_themes large)
  /\ (forall x, In x combined -> 3 <= cluster_size x \/ unmatched x).

Lemma place_small_invariant (combined : list Cluster) (small : Cluster) :
  merge_invariant combined -> merge_invariant (place_small combined small).
Proof.
  intros [Hthemes Hsizes]. unfold place_small.
  destruct (merge_into combined small) as [merged|] eqn:E.
  - apply merge_into_some in E. destruct E as [before [large [after [-> ->]]]].
    split.
    + intros l Hl. destruct (Hthemes l Hl) as [x [Hx Hxl]].
      apply in_app_iff in Hx. destruct Hx as [Hx | [<- | Hx]].
      * exists x. split; [apply in_app_iff; now left | exact Hxl].
      * eexists. split; [apply in_app_iff; right; left; reflexivity | exact Hxl].
      * exists x. split; [apply in_app_iff; right; now right | exact Hxl].
    + intros x Hx. apply in_app_iff in Hx. destruct Hx as [Hx | [<- | Hx]].
      * apply Hsizes, in_app_iff. now left.
      * destruct (Hsizes large) as [Hbig | Hun].
        { apply in_app_iff. right. now left. }
        { left. unfold cluster_size, cluster_pubs in *. simpl. rewrite length_app. lia. }
        { right. exact Hun. }
      * apply Hsizes, in_app_iff. right. now right.
  - split.
    + intros l Hl. destruct (Hthemes l Hl) as [x [Hx Hxl]].
      exists x. split; [apply in_app_iff; now left | exact Hxl].
    + intros x Hx. apply in_app_iff in Hx. destruct Hx as [Hx | [<- | []]].
      * now apply Hsizes.
      * right. intros l Hl. destruct (Hthemes l Hl) as [x [Hx Hxl]].
        pose proof (merge_into_none _ _ E x Hx) as Hm.
        apply mergeable_false in Hm. now rewrite Hxl in Hm.
Qed.

Lemma fold_place_small_invariant (smalls combined : list Cluster) :
  merge_invariant combined -> merge_invariant (fold_left place_small smalls combined).
Proof.
  revert combined. induction smalls as [|s smalls IH]; simpl; intros combined H; [exact H |].
  apply IH. now apply place_small_invariant.
Qed.

End ClusterSizes.

Section ClusterClaim.

Variable stop_words : list string.
Variable list_of_set : list string -> list string.
Variable G : Graph.

Lemma small_cluster_after_combining (cands : list Cluster) (c : Cluster) :
  In c (combine_clusters list_of_set cands) ->
  cluster_size c < 3 ->
  List.length (combine_clusters list_of_set cands) = 1
  \/ ((exists large, In large cands /\ 3 <= cluster_size large)
      /\ forall large, In large cands -> 3 <= cluster_size large ->
           cluster_themes c <> [] /\ cluster_themes large <> []
           /\ theme_overlap (cluster_themes c) (cluster_themes large) = false).
Proof.
  unfold combine_clusters.
  set (L := Py.sorted_desc cluster_size cands).
  assert (Hbig : forall x, In x (filter (fun c => 3 <=? cluster_size c) L)
                           <-> In x cands /\ 3 <= cluster_size x).
  { intros x. rewrite filter_In. unfold L. rewrite in_sorted_desc.
    now rewrite Nat.leb_le. }
  destruct (filter (fun c => negb (3 <=? cluster_size c)) L) as [|s ss] eqn:Es;
    destruct (filter (fun c => 3 <=? cluster_size c) L) as [|b bs] eqn:Eb.
  - intros [] _.
  - intros Hc Hsmall. rewrite in_sorted_desc in Hc. apply Hbig in Hc. lia.
  - intros _ _. left. rewrite length_sorted_desc.
    destruct ss as [|s' ss]; reflexivity.
  - intros Hc Hsmall. right. rewrite in_sorted_desc in Hc.
    assert (Hinv : merge_invariant (b :: bs) (fold_left place_small (s :: ss) (b :: bs))).
    { apply fold_place_small_invariant. split.
      - intros l Hl. now exists l.
      - intros x Hx. left. now apply Hbig in Hx. }
    destruct Hinv as [_ Hsizes]. destruct (Hsizes c Hc) as [Hge | Hun]; [lia |].
    split.
    + exists b. apply Hbig. now left.
    + intros large Hl Hsize. apply Hun. apply Hbig. now split.
Qed.

(** C7, as the code has it: a cluster of the returned list has at least 3
    publications unless the list has exactly one cluster, or the cluster
    found no taker in the merge pass: there are candidate clusters of 3 or
    more publications, it and each of them has themes, and it shares no
    theme with any of them. *)
Theorem small_cluster_is_alone_or_unmatched (d : Detection) (c : Cluster) :
  In c (identify_research_clusters stop_words list_of_set G d) ->
  cluster_size c < 3 ->
  List.length (identify_research_clusters stop_words list_of_set G d) = 1
  \/ ((exists large, In large (candidates stop_words G d) /\ 3 <= cluster_size large)
      /\ forall large, In large (candidates stop_words G d) -> 3 <= cluster_size large ->
           cluster_themes c <> [] /\ cluster_themes large <> []
           /\ theme_overlap (cluster_themes c) (cluster_themes large) = false).
Proof. apply small_cluster_after_combining. Qed.

End ClusterClaim.

(** ** The graph operations, read through the two lookups *)

Section GraphFacts.

(** Only nodes have an adjacency dictionary. *)
Definition adj_in_nodes (G : Graph) : Prop :=
  forall n, Nx.node_attr G n = None -> Dict.get n (_adj G) = None.

Definition attrs_or_empty (o : option NodeAttrs) : NodeAttrs :=
  match o with Some a => a | None => Nx.no_node_attrs end.

Definition edge_or_empty (o : option EdgeAttrs) : EdgeAttrs :=
  match o with Some dd => dd | None => Nx.no_edge_attrs end.

Lemma eqb_sym_str (a b : string) : String.eqb a b = String.eqb b a.
Proof.
  destruct (String.eqb a b) eqn:E.
  - apply String.eqb_eq in E. subst. symmetry. apply String.eqb_refl.
  - destruct (String.eqb b a) eqn:E'; [| reflexivity].
    apply String.eqb_eq in E'. subst. now rewrite String.eqb_refl in E.
Qed.

Lemma node_attr_add_node (G : Graph) (n m : string) (a : NodeAttrs) :
  Nx.node_attr (Nx.add_node n a G) m
  = if String.eqb n m then Some (Nx.update_node (attrs_or_empty (Nx.node_attr G n)) a)
    else Nx.node_attr G m.
Proof.
  unfold Nx.add_node, Nx.node_attr.
  destruct (Dict.get n (_node G)) eqn:E; simpl; now rewrite get_set.
Qed.

Lemma adj_add_node (G : Graph) (n m : string) (a : NodeAttrs) :
  adj_in_nodes G ->
  Nx.adj_of (Nx.add_node n a G) m = Nx.adj_of G m.
Proof.
  intros Hwf. unfold Nx.add_node, Nx.adj_of.
  destruct (Dict.get n (_node G)) eqn:E; simpl; [reflexivity |].
  rewrite get_set. destruct (String.eqb n m) eqn:Enm; [| reflexivity].
  apply String.eqb_eq in Enm. subst m. now rewrite (Hwf n E).
Qed.

Lemma edge_attr_add_node (G : Graph) (n : string) (a : NodeAttrs) (u v : string) :
  adj_in_nodes G ->
  Nx.edge_attr (Nx.add_node n a G) u v = Nx.edge_attr G u v.
Proof. intros Hwf. unfold Nx.edge_attr. now rewrite adj_add_node. Qed.

Lemma adj_in_nodes_add_node (G : Graph) (n : string) (a : NodeAttrs) :
  adj_in_nodes G -> adj_in_nodes (Nx.add_node n a G).
Proof.
  intros Hwf m Hm. rewrite node_attr_add_node in Hm.
  destruct (String.eqb n m) eqn:Enm; [discriminate |].
  unfold Nx.add_node. destruct (Dict.get n (_node G)); simpl.
  - now apply Hwf.
  - rewrite get_set, Enm. now apply Hwf.
Qed.

Lemma node_attr_ensure_node (G : Graph) (n m : string) :
  Nx.node_attr (Nx.ensure_node n G) m
  = match Nx.node_attr G m with
    | Some a => Some a
    | None => if String.eqb n m then Some Nx.no_node_attrs else None
    end.
Proof.
  unfold Nx.ensure_node, Nx.has_node, Dict.has, Nx.node_attr.
  destruct (Dict.get n (_node G)) eqn:E; simpl.
  - destruct (Dict.get m (_node G)) eqn:Em; [reflexivity |].
    destruct (String.eqb n m) eqn:Enm; [| reflexivity].
    apply String.eqb_eq in Enm. congruence.
  - rewrite get_set. destruct (String.eqb n m) eqn:Enm.
    + apply String.eqb_eq in Enm. subst. now rewrite E.
    + now destruct (Dict.get m (_node G)).
Qed.

Lemma adj_ensure_node (G : Graph) (n m : string) :
  adj_in_nodes G -> Nx.adj_of (Nx.ensure_node n G) m = Nx.adj_of G m.
Proof.
  intros Hwf. unfold Nx.ensure_node, Nx.has_node, Dict.has, Nx.adj_of.
  destruct (Dict.get n (_node G)) eqn:E; simpl; [reflexivity |].
  rewrite get_set. destruct (String.eqb n m) eqn:Enm; [| reflexivity].
  apply String.eqb_eq in Enm. subst m. now rewrite (Hwf n E).
Qed.

Lemma adj_in_nodes_ensure_node (G : Graph) (n : string) :
  adj_in_nodes G -> adj_in_nodes (Nx.ensure_node n G).
Proof.
  intros Hwf m Hm. rewrite node_attr_ensure_node in Hm.
  destruct (Nx.node_attr G m) eqn:Em; [discriminate |].
  destruct (String.eqb n m) eqn:Enm; [discriminate |].
  unfold Nx.ensure_node, Nx.has_node, Dict.has.
  destruct (Dict.get n (_node G)); simpl.
  - now apply Hwf.
  - rewrite get_set, Enm. now apply Hwf.
Qed.

Lemma node_attr_add_edge (G : Graph) (u v m : string) (a : EdgeAttrs) :
  Nx.node_attr (Nx.add_edge u v a G) m
  = match Nx.node_attr G m with
    | Some x => Some x
    | None => if String.eqb u m || String.eqb v m then Some Nx.no_node_attrs else None
    end.
Proof.
  unfold Nx.add_edge. unfold Nx.node_attr at 1. simpl.
  change (Dict.get m (_node (Nx.ensure_node v (Nx.ensure_node u G))))
    with (Nx.node_attr (Nx.ensure_node v (Nx.ensure_node u G)) m).
  rewrite !node_attr_ensure_node.
  destruct (Nx.node_attr G m); [reflexivity |].
  destruct (String.eqb u m), (String.eqb v m); reflexivity.
Qed.

Lemma adj_add_edge (G : Graph) (u v x : string) (a : EdgeAttrs) :
  adj_in_nodes G ->
  let dd := Nx.update_edge (edge_or_empty (Nx.edge_attr G u v)) a in
  Nx.adj_of (Nx.add_edge u v a G) x
  = if String.eqb v x then
      Dict.set u dd (if String.eqb u v then Dict.set v dd (Nx.adj_of G u) else Nx.adj_of G v)
    else if String.eqb u x then Dict.set v dd (Nx.adj_of G u)
    else Nx.adj_of G x.
Proof.
  intros Hwf dd.
  pose proof (adj_in_nodes_ensure_node _ u Hwf) as Hwf1.
  assert (Hadj : forall m, Nx.adj_of (Nx.ensure_node v (Nx.ensure_node u G)) m = Nx.adj_of G m).
  { intros m. rewrite adj_ensure_node by exact Hwf1. now apply adj_ensure_node. }
  unfold Nx.add_edge. set (G1 := Nx.ensure_node v (Nx.ensure_node u G)) in *.
  assert (Hdd : match Dict.get v (Nx.adj_of G1 u) with
                | Some dd0 => Nx.update_edge dd0 a
                | None => Nx.update_edge Nx.no_edge_attrs a
                end = dd).
  { unfold dd, Nx.edge_attr. rewrite Hadj. now destruct (Dict.get v (Nx.adj_of G u)). }
  rewrite Hdd. unfold Nx.adj_of at 1. simpl.
  rewrite !get_set. rewrite !Hadj.
  destruct (String.eqb v x) eqn:Evx.
  - destruct (String.eqb u v) eqn:Euv; [reflexivity |].
    fold (Nx.adj_of G1 v). now rewrite Hadj.
  - destruct (String.eqb u x) eqn:Eux; [reflexivity |].
    fold (Nx.adj_of G1 x). now rewrite Hadj.
Qed.

Lemma edge_attr_add_edge (G : Graph) (u v x y : string) (a : EdgeAttrs) :
  adj_in_nodes G ->
  Nx.edge_attr (Nx.add_edge u v a G) x y
  = if (String.eqb x u && String.eqb y v) || (String.eqb x v && String.eqb y u)
    then Some (Nx.update_edge (edge_or_empty (Nx.edge_attr G u v)) a)
    else Nx.edge_attr G x y.
Proof.
  intros Hwf. unfold Nx.edge_attr at 1. rewrite adj_add_edge by exact Hwf. cbv zeta.
  rewrite (eqb_sym_str x u), (eqb_sym_str x v), (eqb_sym_str y v), (eqb_sym_str y u).
  destruct (String.eqb v x) eqn:Evx.
  - rewrite get_set. destruct (String.eqb u y) eqn:Euy.
    + now rewrite orb_true_r.
    + rewrite orb_false_r. destruct (String.eqb u v) eqn:Euv.
      * apply String.eqb_eq in Euv. apply String.eqb_eq in Evx. subst.
        rewrite get_set. rewrite Euy. simpl.
        rewrite String.eqb_refl. simpl. reflexivity.
      * apply String.eqb_eq in Evx. subst x.
        rewrite Euv. reflexivity.
  - rewrite andb_false_l, orb_false_r.
    destruct (String.eqb u x) eqn:Eux; simpl.
    + rewrite get_set. apply String.eqb_eq in Eux. subst x. reflexivity.
    + reflexivity.
Qed.

Lemma adj_in_nodes_add_edge (G : Graph) (u v : string) (a : EdgeAttrs) :
  adj_in_nodes G -> adj_in_nodes (Nx.add_edge u v a G).
Proof.
  intros Hwf m Hm. rewrite node_attr_add_edge in Hm.
  destruct (Nx.node_attr G m) eqn:Em; [discriminate |].
  destruct (String.eqb u m) eqn:Eum; [discriminate |].
  destruct (String.eqb v m) eqn:Evm; [discriminate |].
  pose proof (adj_in_nodes_ensure_node _ v (adj_in_nodes_ensure_node _ u Hwf)) as Hwf2.
  unfold Nx.add_edge. simpl. rewrite !get_set, Evm, Eum.
  apply Hwf2. rewrite !node_attr_ensure_node, Em, Eum, Evm. reflexivity.
Qed.

Lemma adj_in_nodes_empty : adj_in_nodes Nx.empty.
Proof. intros n _. reflexivity. Qed.

End GraphFacts.

(** ** Counters and keyword lists *)

Section CounterFacts.

Definition count_of (c : Dict.t nat) (w : string) : nat :=
  match Dict.get w c with Some n => n | None => 0 end.

Lemma count_of_count_word (c : Dict.t nat) (w' w : string) :
  count_of (Py.count_word c w') w
  = if String.eqb w' w then S (count_of c w') else count_of c w.
Proof.
  unfold Py.count_word, count_of.
  destruct (Dict.get w' c) eqn:E; rewrite get_set;
    destruct (String.eqb w' w) eqn:Ew; reflexivity.
Qed.

Lemma count_of_fold (words : list string) (c : Dict.t nat) (w : string) :
  count_of (fold_left Py.count_word words c) w
  = count_of c w + count_occ string_dec words w.
Proof.
  revert c. induction words as [|w' words IH]; intros c; simpl; [lia |].
  rewrite IH, count_of_count_word.
  destruct (string_dec w' w) as [-> | Hne].
  - rewrite String.eqb_refl. lia.
  - apply String.eqb_neq in Hne. rewrite Hne. lia.
Qed.

Lemma nodup_keys_fold_count (words : list string) (c : Dict.t nat) :
  NoDup (Dict.keys c) -> NoDup (Dict.keys (fold_left Py.count_word words c)).
Proof.
  revert c. induction words as [|w words IH]; intros c H; simpl; [exact H |].
  apply IH. unfold Py.count_word. destruct (Dict.get w c); now apply nodup_keys_set.
Qed.

Lemma nodup_keys_Counter (words : list string) : NoDup (Dict.keys (Py.Counter words)).
Proof. apply nodup_keys_fold_count. constructor. Qed.

Lemma in_Counter (words : list string) (w : string) (n : nat) :
  In (w, n) (Py.Counter words) -> n = count_occ string_dec words w.
Proof.
  intros H. apply in_get_nodup in H; [| apply nodup_keys_Counter].
  pose proof (count_of_fold words [] w) as Hc.
  unfold Py.Counter in H. unfold count_of in Hc at 1. rewrite H in Hc.
  now rewrite Hc.
Qed.

Lemma in_most_common (n : nat) (c : Dict.t nat) (x : string * nat) :
  In x (Py.most_common n c) -> In x c.
Proof.
  unfold Py.most_common. intros H. apply in_firstn in H. now rewrite in_sorted_desc in H.
Qed.

Lemma nodup_keys_most_common (n : nat) (c : Dict.t nat) :
  NoDup (Dict.keys c) -> NoDup (map fst (Py.most_common n c)).
Proof.
  intros H. unfold Py.most_common. rewrite <- firstn_map.
  assert (Hs : NoDup (map fst (Py.sorted_desc snd c))).
  { eapply Permutation_NoDup; [| exact H].
    apply Permutation_map, Permutation_sym, sorted_desc_perm. }
  rewrite <- (firstn_skipn n (map fst (Py.sorted_desc snd c))) in Hs.
  now apply NoDup_app_remove_r in Hs.
Qed.

End CounterFacts.

Section KeywordFacts.

Variable stop_words : list string.
Variable word_tokenize : string -> option (list string).

Lemma nodup_extract_keywords (text : string) (n : nat) :
  NoDup (map fst (extract_keywords stop_words word_tokenize text n)).
Proof.
  unfold extract_keywords. destruct text; [constructor |].
  apply nodup_keys_most_common, nodup_keys_Counter.
Qed.

(** The count that goes with a keyword is the number of times the keyword
    occurs among the filtered tokens of the text. *)
Lemma extract_keywords_count (text : string) (n : nat) (keyword : string) (count : nat) :
  In (keyword, count) (extract_keywords stop_words word_tokenize text n) ->
  count = count_occ string_dec (keyword_tokens stop_words word_tokenize text) keyword.
Proof.
  unfold extract_keywords. destruct text; [intros [] |].
  intros H. apply in_most_common in H. now apply in_Counter in H.
Qed.

End KeywordFacts.

(** ** The builder: one keyword, one section, one document *)

Definition same_pair (u v x y : string) : bool :=
  (String.eqb x u && String.eqb y v) || (String.eqb x v && String.eqb y u).

Lemma same_pair_iff (u v x y : string) :
  same_pair u v x y = true <-> (x = u /\ y = v) \/ (x = v /\ y = u).
Proof.
  unfold same_pair. rewrite orb_true_iff, !andb_true_iff, !String.eqb_eq. tauto.
Qed.

Definition keyword_node : NodeAttrs := mkNodeAttrs (Some "keyword") None None.

Definition section_edge (count : nat) (section : string) : EdgeAttrs :=
  mkEdgeAttrs (Some count) (Some section).

(** The body of the loop over the keywords, for a keyword that is long
    enough. *)
Definition add_keyword (title section keyword : string) (count : nat) (G : Graph) : Graph :=
  Nx.add_edge title keyword (section_edge count section)
    (Nx.add_node keyword keyword_node G).

Lemma add_keywords_cons (title section keyword : string) (count : nat)
    (rest : list (string * nat)) (G : Graph) :
  add_keywords title section ((keyword, count) :: rest) G
  = add_keywords title section rest
      (if 3 <? String.length keyword then add_keyword title section keyword count G else G).
Proof. reflexivity. Qed.

Section KeywordStep.

Variables title section keyword : string.
Variable count : nat.
Variable G : Graph.
Hypothesis wf : adj_in_nodes G.

Lemma adj_in_nodes_add_keyword : adj_in_nodes (add_keyword title section keyword count G).
Proof. apply adj_in_nodes_add_edge, adj_in_nodes_add_node, wf. Qed.

Lemma edge_attr_add_keyword (x y : string) :
  Nx.edge_attr (add_keyword title section keyword count G) x y
  = if same_pair title keyword x y then Some (section_edge count section)
    else Nx.edge_attr G x y.
Proof.
  unfold add_keyword. rewrite edge_attr_add_edge by (apply adj_in_nodes_add_node, wf).
  fold (same_pair title keyword x y). rewrite !edge_attr_add_node by exact wf.
  destruct (same_pair title keyword x y); [| reflexivity].
  now destruct (Nx.edge_attr G title keyword).
Qed.

Lemma node_attr_add_keyword (m : string) :
  Nx.node_attr G title <> None ->
  Nx.node_attr (add_keyword title section keyword count G) m
  = if String.eqb keyword m
    then Some (Nx.update_node (attrs_or_empty (Nx.node_attr G keyword)) keyword_node)
    else Nx.node_attr G m.
Proof.
  intros Htitle. unfold add_keyword. rewrite node_attr_add_edge, node_attr_add_node.
  destruct (String.eqb keyword m) eqn:Ek; [reflexivity |].
  destruct (Nx.node_attr G m) eqn:Em; [reflexivity |].
  rewrite orb_false_r. destruct (String.eqb title m) eqn:Et; [| reflexivity].
  apply String.eqb_eq in Et. subst. contradiction.
Qed.

End KeywordStep.

Section SectionLoop.

Variables title section : string.

Lemma adj_in_nodes_add_keywords (keywords : list (string * nat)) (G : Graph) :
  adj_in_nodes G -> adj_in_nodes (add_keywords title section keywords G).
Proof.
  revert G. induction keywords as [|[k c] rest IH]; intros G Hwf; [exact Hwf |].
  rewrite add_keywords_cons. apply IH.
  destruct (3 <? String.length k); [now apply adj_in_nodes_add_keyword | exact Hwf].
Qed.

(** A pair that no keyword of the list forms with the title keeps its
    edge. *)
Lemma edge_attr_add_keywords_other (keywords : list (string * nat)) (G : Graph) (x y : string) :
  adj_in_nodes G ->
  (forall k c, In (k, c) keywords -> 3 < String.length k -> same_pair title k x y = false) ->
  Nx.edge_attr (add_keywords title section keywords G) x y = Nx.edge_attr G x y.
Proof.
  revert G. induction keywords as [|[k c] rest IH]; intros G Hwf Hother; [reflexivity |].
  rewrite add_keywords_cons.
  destruct (3 <? String.length k) eqn:Elen.
  - rewrite IH.
    + rewrite edge_attr_add_keyword by exact Hwf.
      rewrite (Hother k c); [reflexivity | now left | now apply Nat.ltb_lt].
    + now apply adj_in_nodes_add_keyword.
    + intros k' c' Hin. apply (Hother k' c'). now right.
  - apply IH; [exact Hwf |]. intros k' c' Hin. apply (Hother k' c'). now right.
Qed.

(** A keyword of the list that is long enough ends with the edge its own
    turn wrote. *)
Lemma edge_attr_add_keywords_written (keywords : list (string * nat)) (G : Graph)
    (t : string) (c : nat) :
  adj_in_nodes G ->
  NoDup (map fst keywords) ->
  In (t, c) keywords ->
  3 < String.length t ->
  Nx.edge_attr (add_keywords title section keywords G) title t = Some (section_edge c section).
Proof.
  revert G. induction keywords as [|[k c'] rest IH]; intros G Hwf Hnd Hin Hlen; [destruct Hin |].
  rewrite add_keywords_cons. simpl in Hnd. inversion Hnd as [|? ? Hnotin Hnd']; subst.
  destruct Hin as [Heq | Hin].
  - injection Heq as -> ->.
    apply Nat.ltb_lt in Hlen. rewrite Hlen.
    rewrite edge_attr_add_keywords_other.
    + rewrite edge_attr_add_keyword by exact Hwf.
      unfold same_pair. now rewrite !String.eqb_refl.
    + now apply adj_in_nodes_add_keyword.
    + intros k' c'' Hin' _. destruct (same_pair title k' title t) eqn:E; [| reflexivity].
      exfalso. apply Hnotin. apply same_pair_iff in E.
      apply (in_map fst) in Hin'. simpl in Hin'.
      destruct E as [[_ ->] | [-> <-]]; exact Hin'.
  - apply IH; try assumption.
    destruct (3 <? String.length k); [now apply adj_in_nodes_add_keyword | exact Hwf].
Qed.

End SectionLoop.

(** ** Well-formed graphs

    What [add_node] and [add_edge] keep true of a graph that starts
    empty. *)

Record well_formed (G : Graph) : Prop := mkWellFormed {
  wf_adj_in_nodes : adj_in_nodes G;
  wf_nodes_have_adj : forall n, Nx.node_attr G n <> None -> Dict.get n (_adj G) <> None;
  wf_nodup_node : NoDup (Dict.keys (_node G));
  wf_nodup_adj : NoDup (Dict.keys (_adj G));
  wf_nodup_nbrs : forall n, NoDup (Dict.keys (Nx.adj_of G n));
  wf_symmetric : forall u v, Nx.edge_attr G u v = Nx.edge_attr G v u;
  wf_endpoints : forall u v e, Nx.edge_attr G u v = Some e -> Nx.node_attr G u <> None
}.

Lemma same_pair_swap (u v x y : string) : same_pair u v y x = same_pair u v x y.
Proof.
  unfold same_pair. rewrite orb_comm.
  now rewrite (andb_comm (String.eqb x v)), (andb_comm (String.eqb x u)).
Qed.

Lemma well_formed_empty : well_formed Nx.empty.
Proof.
  split; try (intros; reflexivity); try constructor.
  - intros n H. now contradiction H.
  - intros u v e H. discriminate H.
Qed.

Lemma get_adj_ensure_node (G : Graph) (n m : string) :
  Dict.get m (_adj (Nx.ensure_node n G))
  = if Nx.has_node G n then Dict.get m (_adj G)
    else if String.eqb n m then Some [] else Dict.get m (_adj G).
Proof.
  unfold Nx.ensure_node. destruct (Nx.has_node G n); [reflexivity |].
  simpl. apply get_set.
Qed.

Lemma well_formed_add_node (G : Graph) (n : string) (a : NodeAttrs) :
  well_formed G -> well_formed (Nx.add_node n a G).
Proof.
  intros [H1 H2 H3 H4 H5 H6 H7]. split.
  - now apply adj_in_nodes_add_node.
  - intros m Hm. rewrite node_attr_add_node in Hm.
    unfold Nx.add_node. unfold Nx.node_attr in *.
    destruct (Dict.get n (_node G)) eqn:E; simpl.
    + destruct (String.eqb n m) eqn:Enm; [| now apply H2].
      apply String.eqb_eq in Enm. subst m. apply H2. congruence.
    + rewrite get_set. destruct (String.eqb n m); [discriminate | now apply H2].
  - unfold Nx.add_node. destruct (Dict.get n (_node G)); simpl; now apply nodup_keys_set.
  - unfold Nx.add_node. destruct (Dict.get n (_node G)); simpl;
      [exact H4 | now apply nodup_keys_set].
  - intros m. now rewrite adj_add_node.
  - intros u v. rewrite !edge_attr_add_node by exact H1. apply H6.
  - intros u v e He. rewrite edge_attr_add_node in He by exact H1.
    rewrite node_attr_add_node. destruct (String.eqb n u); [discriminate | eauto].
Qed.

Lemma well_formed_add_edge (G : Graph) (u v : string) (a : EdgeAttrs) :
  well_formed G -> well_formed (Nx.add_edge u v a G).
Proof.
  intros [H1 H2 H3 H4 H5 H6 H7]. split.
  - now apply adj_in_nodes_add_edge.
  - intros m Hm. unfold Nx.add_edge. simpl. rewrite !get_set.
    destruct (String.eqb v m) eqn:Ev; [discriminate |].
    destruct (String.eqb u m) eqn:Eu; [discriminate |].
    rewrite node_attr_add_edge, Eu, Ev in Hm. simpl in Hm.
    destruct (Nx.node_attr G m) eqn:Em; [| congruence].
    rewrite !get_adj_ensure_node.
    assert (Hadj : Dict.get m (_adj G) <> None) by (apply H2; congruence).
    destruct (Nx.has_node G u), (Nx.has_node (Nx.ensure_node u G) v);
      rewrite ?Eu, ?Ev; exact Hadj.
  - unfold Nx.add_edge. simpl. unfold Nx.ensure_node.
    destruct (Nx.has_node G u); simpl;
      match goal with |- context [Nx.has_node ?g v] => destruct (Nx.has_node g v) end;
      simpl; repeat apply nodup_keys_set; exact H3.
  - unfold Nx.add_edge. simpl. apply nodup_keys_set, nodup_keys_set. unfold Nx.ensure_node.
    destruct (Nx.has_node G u); simpl;
      match goal with |- context [Nx.has_node ?g v] => destruct (Nx.has_node g v) end;
      simpl; repeat apply nodup_keys_set; exact H4.
  - intros m. rewrite adj_add_edge by exact H1. cbv zeta.
    destruct (String.eqb v m).
    + apply nodup_keys_set. destruct (String.eqb u v); [apply nodup_keys_set |]; apply H5.
    + destruct (String.eqb u m); [apply nodup_keys_set |]; apply H5.
  - intros x y. rewrite !edge_attr_add_edge by exact H1.
    fold (same_pair u v x y). fold (same_pair u v y x). rewrite (same_pair_swap u v x y).
    destruct (same_pair u v x y); [reflexivity | apply H6].
  - intros x y e He. rewrite edge_attr_add_edge in He by exact H1.
    fold (same_pair u v x y) in He. rewrite node_attr_add_edge.
    destruct (Nx.node_attr G x) eqn:Ex; [discriminate |].
    destruct (same_pair u v x y) eqn:Ep.
    + apply same_pair_iff in Ep. destruct Ep as [[-> _] | [-> _]];
        rewrite String.eqb_refl; rewrite ?orb_true_r; discriminate.
    + apply H7 in He. congruence.
Qed.

Lemma well_formed_add_keywords (title section : string) (keywords : list (string * nat))
    (G : Graph) :
  well_formed G -> well_formed (add_keywords title section keywords G).
Proof.
  revert G. induction keywords as [|[k c] rest IH]; intros G Hwf; [exact Hwf |].
  rewrite add_keywords_cons. apply IH.
  destruct (3 <? String.length k); [| exact Hwf].
  now apply well_formed_add_edge, well_formed_add_node.
Qed.

(** ** The builder: documents and runs *)

Section Builder.

Variable stop_words : list string.
Variable word_tokenize : string -> option (list string).

Local Abbreviation add_doc := (add_doc stop_words word_tokenize).
Local Abbreviation graph_of_docs := (graph_of_docs stop_words word_tokenize).
Local Abbreviation abstract_keywords := (abstract_keywords stop_words word_tokenize).
Local Abbreviation conclusion_keywords := (conclusion_keywords stop_words word_tokenize).

Definition publication_node (d : Doc) : NodeAttrs :=
  mkNodeAttrs (Some "publication") (Some (doc_url d)) (Some (doc_themes d)).

Lemma add_doc_unfold (G : Graph) (d : Doc) :
  add_doc G d
  = add_keywords (doc_title d) "conclusion" (conclusion_keywords d)
      (add_keywords (doc_title d) "abstract" (abstract_keywords d)
         (Nx.add_node (doc_title d) (publication_node d) G)).
Proof. reflexivity. Qed.

Lemma well_formed_add_doc (G : Graph) (d : Doc) : well_formed G -> well_formed (add_doc G d).
Proof.
  intros H. rewrite add_doc_unfold.
  now apply well_formed_add_keywords, well_formed_add_keywords, well_formed_add_node.
Qed.

Lemma well_formed_graph_of_docs (docs : list Doc) (G : Graph) :
  well_formed G -> well_formed (graph_of_docs docs G).
Proof.
  revert G. induction docs as [|d docs IH]; intros G H; [exact H |].
  apply IH. now apply well_formed_add_doc.
Qed.

Lemma same_pair_needs_title (title k x y : string) :
  x <> title -> y <> title -> same_pair title k x y = false.
Proof.
  intros Hx Hy. destruct (same_pair title k x y) eqn:E; [| reflexivity].
  apply same_pair_iff in E. destruct E as [[-> _] | [_ ->]]; congruence.
Qed.

(** A document writes only pairs that have its title at one end. *)
Lemma edge_attr_add_doc_other (G : Graph) (d : Doc) (x y : string) :
  well_formed G -> x <> doc_title d -> y <> doc_title d ->
  Nx.edge_attr (add_doc G d) x y = Nx.edge_attr G x y.
Proof.
  intros Hwf Hx Hy. rewrite add_doc_unfold.
  pose proof (well_formed_add_node G (doc_title d) (publication_node d) Hwf) as Hwf1.
  pose proof (well_formed_add_keywords (doc_title d) "abstract" (abstract_keywords d) _ Hwf1)
    as Hwf2.
  rewrite edge_attr_add_keywords_other;
    [| apply Hwf2 | intros; now apply same_pair_needs_title].
  rewrite edge_attr_add_keywords_other;
    [| apply Hwf1 | intros; now apply same_pair_needs_title].
  apply edge_attr_add_node, Hwf.
Qed.

Lemma edge_attr_graph_of_docs_other (docs : list Doc) (G : Graph) (x y : string) :
  well_formed G ->
  (forall d, In d docs -> doc_title d <> x /\ doc_title d <> y) ->
  Nx.edge_attr (graph_of_docs docs G) x y = Nx.edge_attr G x y.
Proof.
  revert G. induction docs as [|d docs IH]; intros G Hwf Hother; [reflexivity |].
  simpl. rewrite IH.
  - destruct (Hother d (or_introl eq_refl)) as [Hx Hy].
    apply edge_attr_add_doc_other; [exact Hwf | congruence | congruence].
  - now apply well_formed_add_doc.
  - intros d' Hd'. apply Hother. now right.
Qed.

(** After a document's turn, a keyword of its conclusion is joined to its
    title by the edge the conclusion loop wrote. *)
Lemma edge_attr_add_doc_conclusion (G : Graph) (d : Doc) (t : string) (c : nat) :
  well_formed G ->
  In (t, c) (conclusion_keywords d) ->
  3 < String.length t ->
  Nx.edge_attr (add_doc G d) (doc_title d) t = Some (section_edge c "conclusion").
Proof.
  intros Hwf Hin Hlen. rewrite add_doc_unfold.
  apply edge_attr_add_keywords_written; try assumption.
  - apply well_formed_add_keywords, well_formed_add_node, Hwf.
  - apply nodup_extract_keywords.
Qed.

Lemma graph_of_docs_app (before after : list Doc) (G : Graph) :
  graph_of_docs (before ++ after) G = graph_of_docs after (graph_of_docs before G).
Proof. apply fold_left_app. Qed.

(** The edge between a title and a keyword of its conclusion, at the end of
    the run, when no later document has the title or the keyword for its
    own title. *)
Lemma conclusion_edge_survives (before after : list Doc) (d : Doc) (G0 : Graph)
    (t : string) (c : nat) :
  well_formed G0 ->
  In (t, c) (conclusion_keywords d) ->
  3 < String.length t ->
  (forall d', In d' after -> doc_title d' <> doc_title d /\ doc_title d' <> t) ->
  let G := graph_of_docs (before ++ d :: after) G0 in
  Nx.edge_attr G (doc_title d) t = Some (section_edge c "conclusion")
  /\ Nx.edge_attr G t (doc_title d) = Some (section_edge c "conclusion")
  /\ count_occ string_dec (Dict.keys (Nx.adj_of G (doc_title d))) t = 1
  /\ c = count_occ string_dec
           (keyword_tokens stop_words word_tokenize (conclusion (doc_content d))) t.
Proof.
  intros Hwf Hin Hlen Hlater G.
  assert (HwfG : well_formed G) by now apply well_formed_graph_of_docs.
  assert (Hedge : Nx.edge_attr G (doc_title d) t = Some (section_edge c "conclusion")).
  { unfold G. rewrite graph_of_docs_app. simpl.
    pose proof (well_formed_graph_of_docs before G0 Hwf) as Hwf1.
    rewrite edge_attr_graph_of_docs_other.
    - now apply edge_attr_add_doc_conclusion.
    - now apply well_formed_add_doc.
    - exact Hlater. }
  repeat split.
  - exact Hedge.
  - now rewrite <- (wf_symmetric G HwfG).
  - apply NoDup_count_occ'; [apply (wf_nodup_nbrs G HwfG) |].
    eapply get_some_in_keys. exact Hedge.
  - eapply extract_keywords_count. exact Hin.
Qed.

End Builder.

(** ** Node types *)

Definition keyword_nodes_long (G : Graph) : Prop :=
  forall n a, Nx.node_attr G n = Some a -> n_type a = Some "keyword" -> 3 < String.length n.

Lemma keyword_nodes_long_add_node (G : Graph) (n : string) (a : NodeAttrs) :
  (n_type a <> Some "publication" -> 3 < String.length n) ->
  n_type a <> None ->
  keyword_nodes_long G -> keyword_nodes_long (Nx.add_node n a G).
Proof.
  intros Hn Hsome HG m b Hm Hb. rewrite node_attr_add_node in Hm.
  destruct (String.eqb n m) eqn:E.
  - apply String.eqb_eq in E. subst m. injection Hm as <-. simpl in Hb.
    destruct (n_type a) eqn:Ea; [| congruence]. simpl in Hb. apply Hn. congruence.
  - eapply HG; eauto.
Qed.

Lemma keyword_nodes_long_add_edge (G : Graph) (u v : string) (a : EdgeAttrs) :
  keyword_nodes_long G -> keyword_nodes_long (Nx.add_edge u v a G).
Proof.
  intros HG m b Hm Hb. rewrite node_attr_add_edge in Hm.
  destruct (Nx.node_attr G m) eqn:E.
  - injection Hm as <-. eapply HG; eauto.
  - destruct (String.eqb u m || String.eqb v m); [| discriminate].
    injection Hm as <-. discriminate Hb.
Qed.

Lemma keyword_nodes_long_add_keywords (title section : string)
    (keywords : list (string * nat)) (G : Graph) :
  keyword_nodes_long G -> keyword_nodes_long (add_keywords title section keywords G).
Proof.
  revert G. induction keywords as [|[k c] rest IH]; intros G HG; [exact HG |].
  rewrite add_keywords_cons. apply IH.
  destruct (3 <? String.length k) eqn:E; [| exact HG].
  apply keyword_nodes_long_add_edge, keyword_nodes_long_add_node; try assumption.
  - intros _. now apply Nat.ltb_lt.
  - discriminate.
Qed.

Section Bipartite.

(** The titles and the keyword terms of a run. *)
Variables T K : string -> Prop.
Hypothesis disjoint : forall n, T n -> K n -> False.

Definition typed_by (G : Graph) : Prop :=
  forall n a, Nx.node_attr G n = Some a ->
    (T n /\ n_type a = Some "publication") \/ (K n /\ n_type a = Some "keyword").

Definition edges_between (G : Graph) : Prop :=
  forall u v e, Nx.edge_attr G u v = Some e -> (T u /\ K v) \/ (K u /\ T v).

Definition sides (G : Graph) : Prop := well_formed G /\ typed_by G /\ edges_between G.

Lemma sides_add_title (G : Graph) (title : string) (a : NodeAttrs) :
  T title -> n_type a = Some "publication" ->
  sides G -> sides (Nx.add_node title a G).
Proof.
  intros Ht Ha [Hwf [Hty Hed]]. split; [now apply well_formed_add_node |]. split.
  - intros m b Hm. rewrite node_attr_add_node in Hm.
    destruct (String.eqb title m) eqn:E.
    + apply String.eqb_eq in E. subst m. injection Hm as <-. left. split; [exact Ht |].
      simpl. now rewrite Ha.
    + now apply Hty.
  - intros u v e He. rewrite edge_attr_add_node in He by apply Hwf. exact (Hed u v e He).
Qed.

Lemma sides_add_keyword (G : Graph) (title section k : string) (c : nat) :
  T title -> K k -> Nx.node_attr G title <> None ->
  sides G -> sides (add_keyword title section k c G).
Proof.
  intros Ht Hk Hnode [Hwf [Hty Hed]]. split.
  { now apply well_formed_add_edge, well_formed_add_node. }
  split.
  - intros m b Hm. rewrite node_attr_add_keyword in Hm by exact Hnode.
    destruct (String.eqb k m) eqn:E.
    + apply String.eqb_eq in E. subst m. injection Hm as <-. right. split; [exact Hk | reflexivity].
    + now apply Hty.
  - intros u v e He. rewrite edge_attr_add_keyword in He by apply Hwf.
    destruct (same_pair title k u v) eqn:E.
    + apply same_pair_iff in E. destruct E as [[-> ->] | [-> ->]]; [left | right]; now split.
    + exact (Hed u v e He).
Qed.

Lemma node_stays_add_keyword (G : Graph) (title section k m : string) (c : nat) :
  Nx.node_attr G m <> None -> Nx.node_attr (add_keyword title section k c G) m <> None.
Proof.
  intros H. unfold add_keyword. rewrite node_attr_add_edge, node_attr_add_node.
  destruct (String.eqb k m); [discriminate |].
  destruct (Nx.node_attr G m); [discriminate | contradiction].
Qed.

Lemma sides_add_keywords (title section : string) (keywords : list (string * nat)) (G : Graph) :
  T title ->
  (forall k c, In (k, c) keywords -> 3 < String.length k -> K k) ->
  Nx.node_attr G title <> None ->
  sides G ->
  sides (add_keywords title section keywords G)
  /\ Nx.node_attr (add_keywords title section keywords G) title <> None.
Proof.
  intros Ht. revert G. induction keywords as [|[k c] rest IH]; intros G HK Hnode HG;
    [now split |].
  rewrite add_keywords_cons.
  assert (HK' : forall k' c', In (k', c') rest -> 3 < String.length k' -> K k').
  { intros k' c' Hin. apply (HK k' c'). now right. }
  destruct (3 <? String.length k) eqn:E.
  - apply IH; [exact HK' | now apply node_stays_add_keyword |].
    apply sides_add_keyword; try assumption.
    apply (HK k c); [now left | now apply Nat.ltb_lt].
  - now apply IH.
Qed.

End Bipartite.

(** ** The list of edges *)

Lemma in_edges_go (adj : Dict.t (Dict.t EdgeAttrs)) (seen : list string)
    (u v : string) (e : EdgeAttrs) :
  In (u, v, e) (Nx.edges_go adj seen) ->
  exists nbrs, In (u, nbrs) adj /\ In (v, e) nbrs.
Proof.
  revert seen. induction adj as [|[n nbrs] rest IH]; intros seen; simpl; [intros [] |].
  rewrite in_app_iff. intros [H | H].
  - apply in_map_iff in H. destruct H as [[nbr dd] [Heq Hin]].
    injection Heq as <- <- <-. apply filter_In in Hin.
    exists nbrs. split; [now left | apply Hin].
  - destruct (IH _ H) as [nbrs' [H1 H2]]. exists nbrs'. split; [now right | exact H2].
Qed.

Lemma in_edges_edge_attr (G : Graph) (u v : string) (e : EdgeAttrs) :
  well_formed G -> In (u, v, e) (Nx.edges G) -> Nx.edge_attr G u v = Some e.
Proof.
  intros Hwf H. apply in_edges_go in H. destruct H as [nbrs [Hu Hv]].
  apply in_get_nodup in Hu; [| apply Hwf].
  pose proof (wf_nodup_nbrs G Hwf u) as Hnd.
  unfold Nx.edge_attr. unfold Nx.adj_of in *. rewrite Hu in *.
  now apply in_get_nodup.
Qed.

Lemma edges_go_complete (adj : Dict.t (Dict.t EdgeAttrs)) (seen : list string)
    (u v : string) (e : EdgeAttrs) (nu nv : Dict.t EdgeAttrs) :
  Dict.get u adj = Some nu -> Dict.get v nu = Some e ->
  Dict.get v adj = Some nv -> Dict.get u nv = Some e ->
  ~ In u seen -> ~ In v seen ->
  In (u, v, e) (Nx.edges_go adj seen) \/ In (v, u, e) (Nx.edges_go adj seen).
Proof.
  revert seen. induction adj as [|[n nbrs] rest IH]; intros seen; simpl; [discriminate |].
  intros Hu Huv Hv Hvu Hsu Hsv.
  assert (Hlisted : forall (x y : string) (d : Dict.t EdgeAttrs),
             Dict.get y d = Some e -> ~ In y seen ->
             In (x, y, e) (map (fun '(nbr, dd) => (x, nbr, dd))
                             (filter (fun '((nbr, _) : string * EdgeAttrs) =>
                                        negb (PyStr.mem nbr seen)) d))).
  { intros x y d Hget Hseen. apply in_map_iff. exists (y, e). split; [reflexivity |].
    apply filter_In. split; [now apply get_in |].
    apply mem_false_not_In in Hseen. now rewrite Hseen. }
  destruct (String.eqb n u) eqn:Enu.
  - apply String.eqb_eq in Enu. subst n. injection Hu as ->.
    left. apply in_app_iff. left. now apply Hlisted.
  - destruct (String.eqb n v) eqn:Env.
    + apply String.eqb_eq in Env. subst n. injection Hv as ->.
      right. apply in_app_iff. left. now apply Hlisted.
    + apply String.eqb_neq in Enu. apply String.eqb_neq in Env.
      destruct (IH (n :: seen) Hu Huv Hv Hvu) as [H | H].
      * simpl. intuition.
      * simpl. intuition.
      * left. apply in_app_iff. now right.
      * right. apply in_app_iff. now right.
Qed.

Lemma edge_attr_in_edges (G : Graph) (u v : string) (e : EdgeAttrs) :
  well_formed G -> Nx.edge_attr G u v = Some e ->
  In (u, v, e) (Nx.edges G) \/ In (v, u, e) (Nx.edges G).
Proof.
  intros Hwf H. pose proof H as H'. rewrite (wf_symmetric G Hwf) in H'.
  unfold Nx.edge_attr, Nx.adj_of in H, H'.
  destruct (Dict.get u (_adj G)) as [nu|] eqn:Eu; [| discriminate].
  destruct (Dict.get v (_adj G)) as [nv|] eqn:Ev; [| discriminate].
  eapply edges_go_complete; eauto.
Qed.

(** ** A run of the builder *)

Section Run.

Variable self : ClassBody.
Variable publications_df : list Row.
Variable stop_words : list string.
Variable word_tokenize : string -> option (list string).
Variable str_hash : string -> string.
Variable fetch_from_web : nat -> string -> outcome Content.
Variable df_sample : nat -> list Row -> nat -> list Row.
Variable tfidf_first_row : list string -> outcome (list (string * Q)).

Local Abbreviation row_step :=
  (process_row self publications_df stop_words word_tokenize str_hash fetch_from_web
     df_sample tfidf_first_row).
Local Abbreviation build :=
  (build_knowledge_graph self publications_df stop_words word_tokenize str_hash
     fetch_from_web df_sample tfidf_first_row).
Local Abbreviation graph_of_docs := (graph_of_docs stop_words word_tokenize).

(** The documents of a run: one per row, with the row's title and link and
    a content that the fetcher returned for the link. *)
Definition document_of (row : Row) (d : Doc) : Prop :=
  doc_title d = Title row /\ doc_url d = Link row
  /\ exists w1 w2,
       fetch_publication_content self str_hash fetch_from_web (Link row) true w1
       = (Ret (doc_content d), w2).

Definition documents_of (rows : list Row) (docs : list Doc) : Prop :=
  Forall2 document_of rows docs.

Lemma process_rows_graph (rows : list Row) (G G' : Graph) (w w' : World) :
  foldM row_step rows G w = (Ret G', w') ->
  exists docs, documents_of rows docs /\ G' = graph_of_docs docs G.
Proof.
  revert G w. induction rows as [|row rows IH]; intros G w H.
  - injection H as <- _. exists []. split; [constructor | reflexivity].
  - cbn [foldM] in H. unfold bindM at 1 in H.
    destruct (row_step G row w) as [[G1|e] w1] eqn:E; [| discriminate].
    unfold process_row, bindM, ret in E.
    destruct (fetch_publication_content self str_hash fetch_from_web (Link row) true w)
      as [[content|e] w2] eqn:Efetch; [| discriminate].
    destruct (identify_publication_themes self publications_df stop_words word_tokenize
                str_hash fetch_from_web df_sample tfidf_first_row (Title row) content 5 w2)
      as [[themes|e] w3]; [| discriminate].
    injection E as <- _.
    destruct (IH _ _ H) as [docs [Hdocs ->]].
    exists (mkDoc (Title row) (Link row) themes content :: docs).
    split; [| reflexivity].
    constructor; [| exact Hdocs].
    repeat split. now exists w, w2.
Qed.

(** A run that rebuilds the graph ends with the graph of its documents. *)
Lemma build_is_graph_of_docs (G G' : Graph) (num_publications : option nat) (w w' : World) :
  build G num_publications false w = (Ret G', w') ->
  exists docs,
    documents_of (head publications_df num_publications) docs
    /\ G' = graph_of_docs docs G.
Proof.
  unfold build_knowledge_graph. unfold bindM at 1. simpl.
  unfold bindM at 1.
  destruct (foldM row_step (head publications_df num_publications) G w)
    as [[G1|e] w1] eqn:E; [| discriminate].
  unfold bindM, write_file, ret. intros [= <- _].
  eapply process_rows_graph. exact E.
Qed.

End Run.

(** ** Publications on one side, keywords on the other *)

Definition links_publication_and_keyword (G : Graph) (u v : string) : Prop :=
  (Nx.get_type G u = Some "publication" /\ Nx.get_type G v = Some "keyword")
  \/ (Nx.get_type G u = Some "keyword" /\ Nx.get_type G v = Some "publication").

Section BipartiteDocs.

Variable stop_words : list string.
Variable word_tokenize : string -> option (list string).

Local Abbreviation docs_graph := (graph_of_docs stop_words word_tokenize).
Local Abbreviation terms := (keyword_terms stop_words word_tokenize).

(** No title of the run is a term some document of the run gets a keyword
    node for. *)
Definition no_title_is_keyword (docs : list Doc) : Prop :=
  forall d d', In d docs -> In d' docs -> ~ In (doc_title d) (terms d').

Lemma in_keyword_terms (d : Doc) (k : string) (c : nat) :
  In (k, c) (abstract_keywords stop_words word_tokenize d)
  \/ In (k, c) (conclusion_keywords stop_words word_tokenize d) ->
  3 < String.length k -> In k (terms d).
Proof.
  intros Hin Hlen. unfold keyword_terms. apply filter_In. split.
  - apply in_map_iff. exists (k, c). split; [reflexivity |]. apply in_app_iff. exact Hin.
  - now apply Nat.ltb_lt.
Qed.

Lemma sides_graph_of_docs (T K : string -> Prop) (ds : list Doc) (G : Graph) :
  (forall d, In d ds -> T (doc_title d) /\ forall k, In k (terms d) -> K k) ->
  sides T K G -> sides T K (docs_graph ds G).
Proof.
  revert G. induction ds as [|d ds IH]; intros G Hds HG; [exact HG |].
  simpl. apply IH; [intros d' Hd'; apply Hds; now right |].
  destruct (Hds d (or_introl eq_refl)) as [Ht Hk].
  rewrite add_doc_unfold.
  set (G0 := Nx.add_node (doc_title d) (publication_node d) G).
  assert (H0 : sides T K G0) by now apply sides_add_title.
  assert (Hn0 : Nx.node_attr G0 (doc_title d) <> None).
  { unfold G0. rewrite node_attr_add_node, String.eqb_refl. discriminate. }
  destruct (sides_add_keywords T K (doc_title d) "abstract"
              (abstract_keywords stop_words word_tokenize d) G0 Ht) as [H1 Hn1];
    try assumption.
  { intros k c Hin Hlen. apply Hk. eapply in_keyword_terms; eauto. }
  apply (sides_add_keywords T K (doc_title d) "conclusion"); try assumption.
  intros k c Hin Hlen. apply Hk. eapply in_keyword_terms; eauto.
Qed.

Lemma keyword_nodes_long_graph_of_docs (ds : list Doc) (G : Graph) :
  keyword_nodes_long G -> keyword_nodes_long (docs_graph ds G).
Proof.
  revert G. induction ds as [|d ds IH]; intros G HG; [exact HG |].
  simpl. apply IH. rewrite add_doc_unfold.
  apply keyword_nodes_long_add_keywords, keyword_nodes_long_add_keywords.
  apply keyword_nodes_long_add_node; try assumption; simpl; congruence.
Qed.

Lemma get_type_node_attr (G : Graph) (n : string) (t : string) :
  Nx.get_type G n = Some t <-> exists a, Nx.node_attr G n = Some a /\ n_type a = Some t.
Proof.
  unfold Nx.get_type, Nx.node_attr. destruct (Dict.get n (_node G)) as [a|].
  - split; [intros H; now exists a | intros [a' [[= <-] H]]; exact H].
  - split; [discriminate | intros [a [H _]]; discriminate].
Qed.

Lemma sides_link (T K : string -> Prop) (G : Graph) :
  (forall n, T n -> K n -> False) ->
  sides T K G ->
  forall u v e, Nx.edge_attr G u v = Some e -> links_publication_and_keyword G u v.
Proof.
  intros Hdis [Hwf [Hty Hed]] u v e He.
  pose proof (wf_endpoints G Hwf u v e He) as Hu.
  pose proof He as He'. rewrite (wf_symmetric G Hwf) in He'.
  pose proof (wf_endpoints G Hwf v u e He') as Hv.
  destruct (Nx.node_attr G u) as [a|] eqn:Ea; [| congruence].
  destruct (Nx.node_attr G v) as [b|] eqn:Eb; [| congruence].
  assert (Hpub : forall n c, Nx.node_attr G n = Some c -> T n ->
                             Nx.get_type G n = Some "publication").
  { intros n c Hn Htn. apply get_type_node_attr. exists c. split; [exact Hn |].
    destruct (Hty n c Hn) as [[_ H] | [Hk _]]; [exact H | exfalso; eauto]. }
  assert (Hkw : forall n c, Nx.node_attr G n = Some c -> K n ->
                            Nx.get_type G n = Some "keyword").
  { intros n c Hn Hkn. apply get_type_node_attr. exists c. split; [exact Hn |].
    destruct (Hty n c Hn) as [[Ht _] | [_ H]]; [exfalso; eauto | exact H]. }
  destruct (Hed u v e He) as [[Htu Hkv] | [Hku Htv]]; [left | right]; split; eauto.
Qed.

Lemma sides_empty (T K : string -> Prop) : sides T K Nx.empty.
Proof.
  split; [apply well_formed_empty |]. split.
  - intros n a H. discriminate H.
  - intros u v e H. discriminate H.
Qed.

(** The graph of a list of documents, built from the empty graph: keyword
    nodes are longer than 3 characters, and the edges join publications to
    keywords when no title is a keyword term. *)
Lemma graph_of_docs_bipartite (docs : list Doc) :
  let G := docs_graph docs Nx.empty in
  (forall n, Nx.get_type G n = Some "keyword" -> 3 < String.length n)
  /\ (no_title_is_keyword docs ->
      forall u v e, In (u, v, e) (Nx.edges G) -> links_publication_and_keyword G u v).
Proof.
  intros G. split.
  - intros n Hn. apply get_type_node_attr in Hn. destruct Hn as [a [Ha Hk]].
    assert (HG : keyword_nodes_long G).
    { apply keyword_nodes_long_graph_of_docs. intros m b H. discriminate H. }
    exact (HG n a Ha Hk).
  - intros Hno u v e Hin.
    set (T := fun n => In n (map doc_title docs)).
    set (K := fun n => exists d, In d docs /\ In n (terms d)).
    assert (Hsides : sides T K G).
    { apply sides_graph_of_docs; [| apply sides_empty].
      intros d Hd. split.
      - unfold T. now apply in_map.
      - intros k Hk. now exists d. }
    eapply (sides_link T K); [| exact Hsides |].
    + intros n Ht [d' [Hd' Hk]]. unfold T in Ht. apply in_map_iff in Ht.
      destruct Ht as [d [<- Hd]]. exact (Hno d d' Hd Hd' Hk).
    + apply in_edges_edge_attr; [apply Hsides | exact Hin].
Qed.

End BipartiteDocs.

(** ** Keyword terms are words of letters *)

Section TermsAreAlphabetic.

Variable stop_words : list string.
Variable word_tokenize : string -> option (list string).

Lemma in_keys_fold_count (words : list string) (c : Dict.t nat) (k : string) :
  In k (Dict.keys (fold_left Py.count_word words c)) -> In k (Dict.keys c) \/ In k words.
Proof.
  revert c. induction words as [|w words IH]; intros c H; simpl in *; [now left |].
  apply IH in H. destruct H as [H | H]; [| now right; right].
  unfold Py.count_word in H. destruct (Dict.get w c); apply in_keys_set in H;
    destruct H as [-> | H]; auto.
Qed.

Lemma extract_keywords_isalpha (text : string) (n : nat) (k : string) (c : nat) :
  In (k, c) (extract_keywords stop_words word_tokenize text n) -> PyStr.isalpha k = true.
Proof.
  unfold extract_keywords. destruct text; [intros [] |].
  intros H. apply in_most_common in H. apply (in_map fst) in H.
  apply in_keys_fold_count in H. destruct H as [[] | H].
  unfold keyword_tokens in H. apply filter_In in H. destruct H as [_ H].
  now apply andb_true_iff in H.
Qed.

Lemma keyword_terms_isalpha (d : Doc) (k : string) :
  In k (keyword_terms stop_words word_tokenize d) -> PyStr.isalpha k = true.
Proof.
  unfold keyword_terms. intros H. apply filter_In in H. destruct H as [H _].
  apply in_map_iff in H. destruct H as [[k' c] [<- H]].
  apply in_app_iff in H. destruct H as [H | H]; eapply extract_keywords_isalpha; exact H.
Qed.

(** A title that is not a single word of letters is no keyword term. *)
Lemma no_collision_when_titles_are_not_words (docs : list Doc) :
  (forall d, In d docs -> PyStr.isalpha (doc_title d) = false) ->
  no_title_is_keyword stop_words word_tokenize docs.
Proof.
  intros Htitles d d' Hd Hd' Hin. apply keyword_terms_isalpha in Hin.
  rewrite (Htitles d Hd) in Hin. discriminate.
Qed.

End TermsAreAlphabetic.

(** ** Properties of the built graph *)

Section BuiltGraph.

Variable self : ClassBody.
Variable publications_df : list Row.
Variable stop_words : list string.
Variable word_tokenize : string -> option (list string).
Variable str_hash : string -> string.
Variable fetch_from_web : nat -> string -> outcome Content.
Variable df_sample : nat -> list Row -> nat -> list Row.
Variable tfidf_first_row : list string -> outcome (list (string * Q)).

Local Abbreviation build :=
  (build_knowledge_graph self publications_df stop_words word_tokenize str_hash
     fetch_from_web df_sample tfidf_first_row).
Local Abbreviation run_documents := (documents_of self str_hash fetch_from_web).
Local Abbreviation docs_graph := (graph_of_docs stop_words word_tokenize).

(** C2, as the code has it: when [build_knowledge_graph] has rebuilt the
    graph from the empty one, the graph is the graph of the documents
    fetched for the rows; every keyword-typed node at an end of an edge has
    a term of more than 3 characters; and, provided no title of the run
    is one of the keyword terms of the run, every edge joins a node typed
    'publication' and a node typed 'keyword'. *)
Theorem built_graph_is_bipartite (num_publications : option nat) (G : Graph) (w w' : World) :
  build Nx.empty num_publications false w = (Ret G, w') ->
  exists docs,
    run_documents (head publications_df num_publications) docs
    /\ G = docs_graph docs Nx.empty
    /\ (forall u v e, In (u, v, e) (Nx.edges G) ->
          (Nx.get_type G u = Some "keyword" -> 3 < String.length u)
          /\ (Nx.get_type G v = Some "keyword" -> 3 < String.length v))
    /\ (no_title_is_keyword stop_words word_tokenize docs ->
        forall u v e, In (u, v, e) (Nx.edges G) -> links_publication_and_keyword G u v).
Proof.
  intros H. apply build_is_graph_of_docs in H. destruct H as [docs [Hdocs ->]].
  exists docs. split; [exact Hdocs |]. split; [reflexivity |].
  destruct (graph_of_docs_bipartite stop_words word_tokenize docs) as [Hlong Hlinks].
  split; [| exact Hlinks].
  intros u v e _. split; apply Hlong.
Qed.

(** C8, as the code has it: when [build_knowledge_graph] has rebuilt the
    graph from the empty one, take a document of the run whose abstract and
    conclusion keyword lists share a term [t] of more than 3 characters; if
    no later document of the run is titled with this document's title or
    with [t], the graph has one edge between the title and [t], its section
    is 'conclusion' and its weight is the number of times [t] occurs among
    the filtered tokens of the conclusion. *)
Theorem conclusion_write_overwrites_abstract (num_publications : option nat) (G : Graph)
    (w w' : World) :
  build Nx.empty num_publications false w = (Ret G, w') ->
  exists docs,
    run_documents (head publications_df num_publications) docs
    /\ G = docs_graph docs Nx.empty
    /\ forall before d after t,
         docs = before ++ d :: after ->
         In t (map fst (abstract_keywords stop_words word_tokenize d)) ->
         In t (map fst (conclusion_keywords stop_words word_tokenize d)) ->
         3 < String.length t ->
         (forall d', In d' after -> doc_title d' <> doc_title d /\ doc_title d' <> t) ->
         let count := count_occ string_dec
                        (keyword_tokens stop_words word_tokenize (conclusion (doc_content d))) t in
         Nx.edge_attr G (doc_title d) t = Some (section_edge count "conclusion")
         /\ Nx.edge_attr G t (doc_title d) = Some (section_edge count "conclusion")
         /\ count_occ string_dec (Dict.keys (Nx.adj_of G (doc_title d))) t = 1.
Proof.
  intros H. apply build_is_graph_of_docs in H. destruct H as [docs [Hdocs ->]].
  exists docs. split; [exact Hdocs |]. split; [reflexivity |].
  intros before d after t -> _ Hconclusion Hlen Hlater count.
  apply in_map_iff in Hconclusion. destruct Hconclusion as [[t' c] [Heq Hin]].
  simpl in Heq. subst t'.
  destruct (conclusion_edge_survives stop_words word_tokenize before after d Nx.empty t c
              well_formed_empty Hin Hlen Hlater) as [H1 [H2 [H3 H4]]].
  unfold count. rewrite <- H4. now repeat split.
Qed.

End BuiltGraph.

(** ** The sample corpora *)

Lemma documents_have_row_titles (self : ClassBody) (str_hash : string -> string)
    (fetch_from_web : nat -> string -> outcome Content) (rows : list Row) (docs : list Doc) :
  documents_of self str_hash fetch_from_web rows docs ->
  forall d, In d docs -> exists row, In row rows /\ doc_title d = Title row.
Proof.
  induction 1 as [|row d rows docs Hd _ IH]; intros d' Hin; [destruct Hin |].
  destruct Hin as [<- | Hin].
  - exists row. split; [now left | apply Hd].
  - destruct (IH d' Hin) as [row' [Hrow Ht]]. exists row'. split; [now right | exact Ht].
Qed.

(** On the bone corpus every edge joins a publication and a keyword. *)
Lemma built_graph_is_bipartite_witness :
  Forall (fun edge => links_publication_and_keyword bone_graph (fst (fst edge)) (snd (fst edge)))
         (Nx.edges bone_graph).
Proof.
  destruct (built_graph_is_bipartite PublicationProcessor bone_corpus basic_stop_words
              punkt_missing sample_hash network_down first_rows no_scores None bone_graph
              bone_world (snd (sample_build bone_corpus bone_world)))
    as [docs [Hdocs [_ [_ Hlinks]]]].
  - vm_compute. reflexivity.
  - apply Forall_forall. intros [[u v] e] Hin. simpl.
    eapply Hlinks; [| exact Hin].
    apply no_collision_when_titles_are_not_words. intros d Hd.
    destruct (documents_have_row_titles _ _ _ _ _ Hdocs d Hd) as [row [Hrow ->]].
    simpl in Hrow.
    repeat (destruct Hrow as [<- | Hrow]; [reflexivity |]). destruct Hrow.
Defined.

(** C2, as stated, fails on a corpus whose only publication is titled
    'growth' and has the abstract 'growth': the node ends up typed
    'keyword' and the one edge of the graph joins it to itself. *)
Lemma title_keyword_collision_counterexample :
  fst (sample_build growth_corpus growth_world) = Ret (graph_built growth_corpus growth_world)
  /\ Nx.edges (graph_built growth_corpus growth_world)
     = [("growth", "growth", section_edge 1 "abstract")]
  /\ Nx.get_type (graph_built growth_corpus growth_world) "growth" = Some "keyword".
Proof. repeat split; vm_compute; reflexivity. Qed.

(** The conclusion of C8 at the bone corpus. *)
Lemma conclusion_write_overwrites_abstract_witness :
  exists docs,
    documents_of PublicationProcessor sample_hash network_down bone_corpus docs
    /\ bone_graph = graph_of_docs basic_stop_words punkt_missing docs Nx.empty
    /\ forall before d after t,
         docs = before ++ d :: after ->
         In t (map fst (abstract_keywords basic_stop_words punkt_missing d)) ->
         In t (map fst (conclusion_keywords basic_stop_words punkt_missing d)) ->
         3 < String.length t ->
         (forall d', In d' after -> doc_title d' <> doc_title d /\ doc_title d' <> t) ->
         let count := count_occ string_dec
                        (keyword_tokens basic_stop_words punkt_missing
                           (conclusion (doc_content d))) t in
         Nx.edge_attr bone_graph (doc_title d) t = Some (section_edge count "conclusion")
         /\ Nx.edge_attr bone_graph t (doc_title d) = Some (section_edge count "conclusion")
         /\ count_occ string_dec (Dict.keys (Nx.adj_of bone_graph (doc_title d))) t = 1.
Proof.
  apply (conclusion_write_overwrites_abstract PublicationProcessor bone_corpus basic_stop_words
           punkt_missing sample_hash network_down first_rows no_scores None bone_graph
           bone_world (snd (sample_build bone_corpus bone_world))).
  vm_compute. reflexivity.
Defined.

(** On the bone corpus: 'bone' is a keyword of the abstract and of the
    conclusion of the first publication, and the edge carries the section
    and the count of the conclusion. *)
Example bone_edge_is_from_conclusion :
  In "bone" (map fst (extract_keywords basic_stop_words punkt_missing "Bone density decreases" 10))
  /\ In "bone" (map fst (extract_keywords basic_stop_words punkt_missing "Bone loss" 10))
  /\ Nx.edge_attr bone_graph "Bone loss in mice" "bone" = Some (section_edge 1 "conclusion").
Proof. repeat split; vm_compute; auto. Qed.

(** C8, as stated, fails when a later publication is titled with the shared
    term: the first publication, 'cells', has 'growth' in its abstract and
    in its conclusion; the second is titled 'growth' and has 'cells' in its
    abstract, and its write is the one that stays on the pair. *)
Lemma crossed_titles_counterexample :
  fst (sample_build crossed_corpus crossed_world) = Ret (graph_built crossed_corpus crossed_world)
  /\ extract_keywords basic_stop_words punkt_missing "growth" 10 = [("growth", 1)]
  /\ Nx.edge_attr (graph_built crossed_corpus crossed_world) "cells" "growth"
     = Some (section_edge 1 "abstract").
Proof. repeat split; vm_compute; reflexivity. Qed.

(** C5 on the bone corpus. *)
Lemma similar_excludes_title_and_descends_witness :
  (forall pub count,
      In (pub, count) [("Bone density in orbit", 2); ("Skeletal changes in rats", 1)] ->
      pub <> "Bone loss in mice")
  /\ StronglySorted (fun a b => snd b <= snd a)
       [("Bone density in orbit", 2); ("Skeletal changes in rats", 1)].
Proof.
  apply (similar_excludes_title_and_descends bone_graph "Bone loss in mice" 5).
  vm_compute. reflexivity.
Defined.

(** C7 on the bone corpus, at the cluster that stays alone. *)
Lemma small_cluster_is_alone_or_unmatched_witness :
  List.length (identify_research_clusters basic_stop_words distinct_elements bone_graph
                 (ImportFailed bone_components)) = 1
  \/ ((exists large,
          In large (candidates basic_stop_words bone_graph (ImportFailed bone_components))
          /\ 3 <= cluster_size large)
      /\ forall large,
           In large (candidates basic_stop_words bone_graph (ImportFailed bone_components)) ->
           3 <= cluster_size large ->
           cluster_themes (1, ["Seed germination in darkness"], ["seeds"; "germinate"; "slowly"])
           <> []
           /\ cluster_themes large <> []
           /\ theme_overlap
                (cluster_themes
                   (1, ["Seed germination in darkness"], ["seeds"; "germinate"; "slowly"]))
                (cluster_themes large) = false).
Proof.
  apply (small_cluster_is_alone_or_unmatched basic_stop_words distinct_elements bone_graph
           (ImportFailed bone_components)
           (1, ["Seed germination in darkness"], ["seeds"; "germinate"; "slowly"])).
  - vm_compute. right. left. reflexivity.
  - vm_compute. lia.
Defined.

(** C7, as stated, fails on the bone corpus: the list has two clusters and
    the second has one publication. *)
Lemma unmatched_small_cluster_counterexample :
  identify_research_clusters basic_stop_words distinct_elements bone_graph
    (ImportFailed bone_components)
  = [ (0, ["Bone loss in mice"; "Bone density in orbit"; "Skeletal changes in rats"],
       ["bone"; "density"; "decreases"; "loss"; "drops"]);
      (1, ["Seed germination in darkness"], ["seeds"; "germinate"; "slowly"]) ].
Proof. vm_compute. reflexivity. Qed.

(** An example of what the sample components are. *)
Example bone_components_value :
  bone_components
  = [ [ "Bone loss in mice"; "bone"; "density"; "decreases"; "loss";
        "Bone density in orbit"; "Skeletal changes in rats"; "drops"; "mass"; "changes" ];
      [ "Seed germination in darkness"; "seeds"; "germinate"; "slowly" ] ].
Proof. vm_compute. reflexivity. Qed.

(** ** Saving and loading the graph *)

Section RoundTrip.

Lemma update_node_empty (a : NodeAttrs) : Nx.update_node Nx.no_node_attrs a = a.
Proof. destruct a as [[t|] [u|] [th|]]; reflexivity. Qed.

Lemma update_edge_empty (e : EdgeAttrs) : Nx.update_edge Nx.no_edge_attrs e = e.
Proof. destruct e as [[w|] [s|]]; reflexivity. Qed.

Lemma update_edge_same (e : EdgeAttrs) : Nx.update_edge e e = e.
Proof. destruct e as [[w|] [s|]]; reflexivity. Qed.

Lemma set_absent {V : Type} (k : string) (v : V) (d : Dict.t V) :
  Dict.get k d = None -> Dict.set k v d = d ++ [(k, v)].
Proof.
  induction d as [|[k' v'] d IH]; simpl; [reflexivity |].
  destruct (String.eqb k' k); [discriminate |]. intros H. now rewrite IH.
Qed.

Definition add_nodes (nodes : list (string * NodeAttrs)) (G : Graph) : Graph :=
  fold_left (fun G '(n, attr) => Nx.add_node n attr G) nodes G.

Definition add_edges (links : list (string * string * EdgeAttrs)) (G : Graph) : Graph :=
  fold_left (fun G '(u, v, attr) => Nx.add_edge u v attr G) links G.

Lemma node_link_graph_unfold (data : NodeLinkData) :
  node_link_graph data = add_edges (nl_links data) (add_nodes (nl_nodes data) Nx.empty).
Proof. reflexivity. Qed.

(** Adding the nodes of a dictionary, in order, to a graph that has none of
    them appends the dictionary and leaves the edges alone. *)
Lemma add_nodes_fresh (nodes : list (string * NodeAttrs)) (G : Graph) :
  well_formed G ->
  NoDup (Dict.keys (_node G) ++ Dict.keys nodes) ->
  let G' := add_nodes nodes G in
  well_formed G' /\ _node G' = _node G ++ nodes
  /\ forall u v, Nx.edge_attr G' u v = Nx.edge_attr G u v.
Proof.
  unfold add_nodes. revert G.
  induction nodes as [|[n a] nodes IH]; intros G Hwf Hnd; simpl.
  - rewrite app_nil_r. split; [exact Hwf |]. split; reflexivity.
  - assert (Hfresh : Dict.get n (_node G) = None).
    { apply get_none_not_in_keys. intros Hin.
      apply NoDup_remove_2 in Hnd. apply Hnd, in_app_iff. now left. }
    assert (Hnode : _node (Nx.add_node n a G) = _node G ++ [(n, a)]).
    { unfold Nx.add_node. rewrite Hfresh. simpl.
      rewrite update_node_empty. now apply set_absent. }
    destruct (IH (Nx.add_node n a G)) as [Hwf' [Hnodes Hedges]].
    + now apply well_formed_add_node.
    + rewrite Hnode. unfold Dict.keys in *. rewrite map_app. simpl.
      rewrite <- app_assoc. exact Hnd.
    + split; [exact Hwf' |]. split.
      * rewrite Hnodes, Hnode. now rewrite <- app_assoc.
      * intros u v. rewrite Hedges. apply edge_attr_add_node, Hwf.
Qed.

Lemma node_unchanged_add_edge (G : Graph) (u v : string) (a : EdgeAttrs) :
  Nx.node_attr G u <> None -> Nx.node_attr G v <> None ->
  _node (Nx.add_edge u v a G) = _node G.
Proof.
  intros Hu Hv. unfold Nx.add_edge. simpl. unfold Nx.ensure_node, Nx.has_node, Dict.has.
  unfold Nx.node_attr in *. destruct (Dict.get u (_node G)); [| congruence].
  destruct (Dict.get v (_node G)); [reflexivity | congruence].
Qed.

(** The graph a list of edges is written over: every edge of the list is an
    edge of [target], and what is there already agrees with [target]. *)
Variable target : string -> string -> option EdgeAttrs.
Hypothesis target_symmetric : forall u v, target u v = target v u.

Definition agrees (G : Graph) : Prop :=
  forall x y, Nx.edge_attr G x y = None \/ Nx.edge_attr G x y = target x y.

Lemma add_edges_agree (links : list (string * string * EdgeAttrs)) (G : Graph) :
  well_formed G ->
  (forall u v e, In (u, v, e) links ->
     target u v = Some e /\ Nx.node_attr G u <> None /\ Nx.node_attr G v <> None) ->
  agrees G ->
  let G' := add_edges links G in
  well_formed G' /\ _node G' = _node G /\ agrees G'
  /\ (forall x y e, Nx.edge_attr G x y = Some e -> Nx.edge_attr G' x y = Some e)
  /\ (forall u v e, In (u, v, e) links ->
        Nx.edge_attr G' u v = Some e /\ Nx.edge_attr G' v u = Some e).
Proof.
  unfold add_edges. revert G.
  induction links as [|[[u v] e] links IH]; intros G Hwf Hlinks Hag; simpl.
  - split; [exact Hwf |]. split; [reflexivity |]. split; [exact Hag |].
    split; [auto | intros ? ? ? []].
  - destruct (Hlinks u v e (or_introl eq_refl)) as [Ht [Hu Hv]].
    set (G1 := Nx.add_edge u v e G).
    assert (Hwf1 : well_formed G1) by now apply well_formed_add_edge.
    assert (Hnode1 : _node G1 = _node G) by now apply node_unchanged_add_edge.
    assert (Hnew : Nx.update_edge (edge_or_empty (Nx.edge_attr G u v)) e = e).
    { destruct (Hag u v) as [Hn | Hs]; rewrite ?Hn, ?Hs; simpl.
      - apply update_edge_empty.
      - rewrite Ht. simpl. apply update_edge_same. }
    assert (Hattr1 : forall x y, Nx.edge_attr G1 x y
                                 = if same_pair u v x y then Some e else Nx.edge_attr G x y).
    { intros x y. unfold G1. rewrite edge_attr_add_edge by apply Hwf.
      fold (same_pair u v x y). now rewrite Hnew. }
    assert (Hag1 : agrees G1).
    { intros x y. rewrite Hattr1. destruct (same_pair u v x y) eqn:E; [| apply Hag].
      right. apply same_pair_iff in E. destruct E as [[-> ->] | [-> ->]];
        [now rewrite Ht | now rewrite target_symmetric, Ht]. }
    destruct (IH G1 Hwf1) as [Hwf' [Hnode' [Hag' [Hkeep Hall]]]]; [| exact Hag1 |].
    { intros u' v' e' Hin. unfold Nx.node_attr. rewrite Hnode1.
      apply Hlinks. now right. }
    assert (Hkeep1 : forall x y e', Nx.edge_attr G x y = Some e' ->
                                   Nx.edge_attr G1 x y = Some e').
    { intros x y e' He'. rewrite Hattr1. destruct (same_pair u v x y) eqn:E; [| exact He'].
      destruct (Hag x y) as [Hn | Hs]; [congruence |].
      apply same_pair_iff in E. destruct E as [[-> ->] | [-> ->]].
      - congruence.
      - rewrite target_symmetric in Hs. congruence. }
    split; [exact Hwf' |]. split; [congruence |]. split; [exact Hag' |]. split.
    + intros x y e' He'. now apply Hkeep, Hkeep1.
    + intros u' v' e' [Heq | Hin]; [| now apply Hall].
      injection Heq as <- <- <-. split; apply Hkeep; rewrite Hattr1.
      * unfold same_pair. now rewrite !String.eqb_refl.
      * unfold same_pair. now rewrite !String.eqb_refl, orb_true_r.
Qed.

End RoundTrip.

(** The node-link form of a well-formed graph, read back: the same nodes
    with the same attributes, in the same order, and the same edge with
    the same attributes between any two nodes. *)
Lemma node_link_round_trip (G : Graph) :
  well_formed G ->
  let G' := node_link_graph (node_link_data G) in
  well_formed G' /\ _node G' = _node G
  /\ forall u v, Nx.edge_attr G' u v = Nx.edge_attr G u v.
Proof.
  intros Hwf G'. unfold G'. rewrite node_link_graph_unfold. simpl.
  destruct (add_nodes_fresh (_node G) Nx.empty well_formed_empty) as [Hwf1 [Hnode1 Hedge1]].
  { simpl. apply Hwf. }
  simpl in Hnode1.
  set (G1 := add_nodes (_node G) Nx.empty) in *.
  assert (Hsame : forall n, Nx.node_attr G1 n = Nx.node_attr G n).
  { intros n. unfold Nx.node_attr. now rewrite Hnode1. }
  destruct (add_edges_agree (Nx.edge_attr G) (wf_symmetric G Hwf) (Nx.edges G) G1 Hwf1)
    as [Hwf' [Hnode' [Hag [_ Hall]]]].
  - intros u v e Hin. pose proof (in_edges_edge_attr G u v e Hwf Hin) as He.
    split; [exact He |]. rewrite !Hsame. split.
    + eapply wf_endpoints; eauto.
    + rewrite (wf_symmetric G Hwf) in He. eapply wf_endpoints; eauto.
  - intros x y. left. rewrite Hedge1. reflexivity.
  - split; [exact Hwf' |]. split; [congruence |].
    intros u v. destruct (Nx.edge_attr G u v) as [e|] eqn:E.
    + destruct (edge_attr_in_edges G u v e Hwf E) as [Hin | Hin]; now apply Hall in Hin.
    + destruct (Hag u v) as [H | H]; congruence.
Qed.

Section Persist.

Variable self : ClassBody.
Variable publications_df : list Row.
Variable stop_words : list string.
Variable word_tokenize : string -> option (list string).
Variable str_hash : string -> string.
Variable fetch_from_web : nat -> string -> outcome Content.
Variable df_sample : nat -> list Row -> nat -> list Row.
Variable tfidf_first_row : list string -> outcome (list (string * Q)).

Local Abbreviation build :=
  (build_knowledge_graph self publications_df stop_words word_tokenize str_hash
     fetch_from_web df_sample tfidf_first_row).

(** A run that rebuilds the graph leaves its node-link form in the file of
    the persisted graph. *)
Lemma build_persists (G G' : Graph) (num_publications : option nat) (w w' : World) :
  build G num_publications false w = (Ret G', w') ->
  Dict.get "knowledge_graph.json" (cache_dir w') = Some (GraphFile (node_link_data G')).
Proof.
  unfold build_knowledge_graph. unfold bindM at 1. simpl. unfold bindM at 1.
  destruct (foldM _ (head publications_df num_publications) G w) as [[G1|e] w1];
    [| discriminate].
  unfold bindM, write_file, ret. intros [= <- <-]. simpl. apply get_set_same.
Qed.

(** A run that finds the persisted graph returns it. *)
Lemma build_loads (G : Graph) (num_publications : option nat) (w : World)
    (graph_data : NodeLinkData) :
  Dict.get "knowledge_graph.json" (cache_dir w) = Some (GraphFile graph_data) ->
  build G num_publications true w = (Ret (node_link_graph graph_data), w).
Proof.
  intros H. unfold build_knowledge_graph, bindM, load_cached_graph. now rewrite H.
Qed.

(** C6: after a run has built and saved the graph, a run that loads the
    saved graph returns a graph with the same nodes carrying the same
    attributes, and with the same edges carrying the same attributes. *)
Theorem persisted_graph_round_trips (num_publications : option nat) (G : Graph) (w w' : World) :
  build Nx.empty num_publications false w = (Ret G, w') ->
  forall (G0 : Graph) (again : option nat),
  exists G',
    build G0 again true w' = (Ret G', w')
    /\ _node G' = _node G
    /\ (forall u v, Nx.edge_attr G' u v = Nx.edge_attr G u v)
    /\ (forall u v e, In (u, v, e) (Nx.edges G') ->
          In (u, v, e) (Nx.edges G) \/ In (v, u, e) (Nx.edges G))
    /\ (forall u v e, In (u, v, e) (Nx.edges G) ->
          In (u, v, e) (Nx.edges G') \/ In (v, u, e) (Nx.edges G')).
Proof.
  intros Hbuild G0 again.
  pose proof (build_persists _ _ _ _ _ Hbuild) as Hfile.
  apply build_is_graph_of_docs in Hbuild. destruct Hbuild as [docs [_ HG]].
  assert (Hwf : well_formed G).
  { rewrite HG. apply well_formed_graph_of_docs, well_formed_empty. }
  destruct (node_link_round_trip G Hwf) as [Hwf' [Hnode Hedge]].
  exists (node_link_graph (node_link_data G)).
  split; [now apply build_loads |]. split; [exact Hnode |]. split; [exact Hedge |]. split.
  - intros u v e Hin. apply edge_attr_in_edges; [exact Hwf |].
    rewrite <- Hedge. now apply in_edges_edge_attr.
  - intros u v e Hin. apply edge_attr_in_edges; [exact Hwf' |].
    rewrite Hedge. now apply in_edges_edge_attr.
Qed.

End Persist.

(** C6 on the bone corpus. *)
Lemma persisted_graph_round_trips_witness :
  exists G',
    sample_build_from_cache bone_corpus (snd (sample_build bone_corpus bone_world))
    = (Ret G', snd (sample_build bone_corpus bone_world))
    /\ _node G' = _node bone_graph
    /\ (forall u v, Nx.edge_attr G' u v = Nx.edge_attr bone_graph u v)
    /\ (forall u v e, In (u, v, e) (Nx.edges G') ->
          In (u, v, e) (Nx.edges bone_graph) \/ In (v, u, e) (Nx.edges bone_graph))
    /\ (forall u v e, In (u, v, e) (Nx.edges bone_graph) ->
          In (u, v, e) (Nx.edges G') \/ In (v, u, e) (Nx.edges G')).
Proof.
  apply (persisted_graph_round_trips PublicationProcessor bone_corpus basic_stop_words
           punkt_missing sample_hash network_down first_rows no_scores None bone_graph
           bone_world (snd (sample_build bone_corpus bone_world))).
  vm_compute. reflexivity.
Defined.

(** ** The theme extractor *)

Lemma Counter_nonempty (words : list string) : words <> [] -> Py.Counter words <> [].
Proof.
  destruct words as [|w words]; [congruence |]. intros _ Hempty.
  pose proof (count_of_fold (w :: words) [] w) as H.
  unfold Py.Counter in Hempty. rewrite Hempty in H. unfold count_of in H. simpl in H.
  destruct (string_dec w w); [lia | congruence].
Qed.

Lemma most_common_nonempty (n : nat) (c : Dict.t nat) :
  0 < n -> c <> [] -> Py.most_common n c <> [].
Proof.
  intros Hn Hc. unfold Py.most_common.
  pose proof (length_sorted_desc snd c) as Hlen.
  destruct (Py.sorted_desc snd c) as [|x l]; destruct c; simpl in *; try congruence; try lia.
  destruct n; [lia | discriminate].
Qed.

Lemma firstn_nonempty {A : Type} (n : nat) (l : list A) : 0 < n -> l <> [] -> firstn n l <> [].
Proof. destruct n, l; simpl; try lia; try congruence. Qed.

Section Themes.

Variable self : ClassBody.
Variable publications_df : list Row.
Variable stop_words : list string.
Variable word_tokenize : string -> option (list string).
Variable str_hash : string -> string.
Variable fetch_from_web : nat -> string -> outcome Content.
Variable df_sample : nat -> list Row -> nat -> list Row.
Variable tfidf_first_row : list string -> outcome (list (string * Q)).

Local Abbreviation themes_from_text :=
  (text_themes self publications_df stop_words str_hash fetch_from_web df_sample
     tfidf_first_row).
Local Abbreviation themes_of_publication :=
  (identify_publication_themes self publications_df stop_words word_tokenize str_hash
     fetch_from_web df_sample tfidf_first_row).

Variable num_themes : nat.
Hypothesis some_themes : 0 < num_themes.

Lemma text_themes_returns (title : string) (filtered_words : list string) (w : World) :
  exists themes w', themes_from_text title filtered_words num_themes w = (Ret themes, w').
Proof.
  unfold text_themes. destruct (10 <? List.length filtered_words).
  - unfold try_except.
    match goal with |- context [match ?body w with _ => _ end] => destruct (body w) as [[a|e] w1] end;
      eexists; eexists; reflexivity.
  - eexists; eexists; reflexivity.
Qed.

Lemma text_themes_short (title : string) (filtered_words : list string) (w : World) :
  List.length filtered_words <= 10 ->
  themes_from_text title filtered_words num_themes w
  = (Ret (frequency_themes filtered_words
            (Nat.min (List.length (Py.Counter filtered_words)) num_themes)), w).
Proof.
  intros H. unfold text_themes. apply Nat.ltb_ge in H. now rewrite H.
Qed.

(** What the function returns once the themes of the text are known. *)
Lemma themes_after_text (title : string) (content : Content) (w w1 : World)
    (themes : list string) :
  themes_from_text title (theme_tokens stop_words word_tokenize content) num_themes w
  = (Ret themes, w1) ->
  themes_of_publication title content num_themes w
  = (Ret (firstn num_themes
            (if List.length themes <? num_themes
             then themes ++ map fst (Py.most_common (num_themes - List.length themes)
                                       (Py.Counter (title_tokens stop_words title)))
             else themes)), w1).
Proof.
  intros H. unfold identify_publication_themes, bindM. rewrite H.
  destruct (List.length themes <? num_themes) eqn:E.
  - destruct (themes ++ _) as [|t rest] eqn:Et; [| reflexivity].
    destruct (title_tokens stop_words title) as [|first others]; [reflexivity |].
    exfalso. apply app_eq_nil in Et. destruct Et as [_ Et]. apply map_eq_nil in Et.
    revert Et. apply most_common_nonempty.
    + apply Nat.ltb_lt in E. lia.
    + apply Counter_nonempty. discriminate.
  - destruct themes as [|t rest]; [| reflexivity].
    apply Nat.ltb_ge in E. simpl in E. lia.
Qed.

(** The guarantee where it holds: a title with a word gives a theme, a text
    of one to ten words gives a theme, and no word at all gives none. *)
Lemma themes_guarantee_outside_tfidf (title : string) (content : Content) (w : World) :
  exists themes w',
    themes_of_publication title content num_themes w = (Ret themes, w')
    /\ (title_tokens stop_words title <> [] -> themes <> [])
    /\ (theme_tokens stop_words word_tokenize content <> [] ->
        List.length (theme_tokens stop_words word_tokenize content) <= 10 -> themes <> [])
    /\ (title_tokens stop_words title = [] ->
        theme_tokens stop_words word_tokenize content = [] -> themes = []).
Proof.
  destruct (text_themes_returns title (theme_tokens stop_words word_tokenize content) w)
    as [th [w1 Hth]].
  eexists. exists w1. split; [exact (themes_after_text _ _ _ _ _ Hth) |].
  split; [| split].
  - intros Htitle. apply firstn_nonempty; [exact some_themes |].
    destruct (List.length th <? num_themes) eqn:E.
    + apply Nat.ltb_lt in E. intros Happ. apply app_eq_nil in Happ. destruct Happ as [_ Happ].
      apply map_eq_nil in Happ. revert Happ. apply most_common_nonempty; [lia |].
      now apply Counter_nonempty.
    + apply Nat.ltb_ge in E. destruct th; [simpl in E; lia | discriminate].
  - intros Htext Hshort. rewrite text_themes_short in Hth by exact Hshort.
    injection Hth as <- _. apply firstn_nonempty; [exact some_themes |].
    assert (Hfreq : frequency_themes (theme_tokens stop_words word_tokenize content)
                      (Nat.min (List.length (Py.Counter (theme_tokens stop_words word_tokenize
                                                           content))) num_themes) <> []).
    { unfold frequency_themes. intros Hmap. apply map_eq_nil in Hmap. revert Hmap.
      pose proof (Counter_nonempty _ Htext) as Hc.
      apply most_common_nonempty; [| exact Hc].
      destruct (Py.Counter (theme_tokens stop_words word_tokenize content));
        [congruence | apply Nat.min_glb_lt; [simpl; lia | exact some_themes]]. }
    match goal with |- (if ?b then _ else _) <> [] => destruct b end; [| exact Hfreq].
    intros Happ. apply app_eq_nil in Happ. now destruct Happ.
  - intros Htitle Htext. rewrite Htext in Hth.
    rewrite text_themes_short in Hth by (simpl; lia).
    injection Hth as <- _. rewrite Htitle. simpl.
    destruct num_themes; [lia | reflexivity].
Qed.

End Themes.

(** C9 fails on the code: the long abstract yields 288 words and the title
    'To be or not to be' none; every score of the TF-IDF row is 1/12, below
    the 0.1 threshold, so no theme is taken from the text; the title has
    nothing to add, and the function returns the empty list. *)
Theorem themes_empty_despite_text_words :
  List.length (theme_tokens basic_stop_words punkt_missing dense_content) = 288
  /\ title_tokens basic_stop_words "To be or not to be" = []
  /\ fst (identify_publication_themes PublicationProcessor dense_corpus basic_stop_words
            punkt_missing sample_hash network_down first_rows equal_scores
            "To be or not to be" dense_content 5 dense_world)
     = Ret [].
Proof. repeat split; vm_compute; reflexivity. Qed.

(** ** The similarity engine returns on a built graph *)

Definition all_typed (G : Graph) : Prop :=
  forall n a, Nx.node_attr G n = Some a -> n_type a <> None.

Lemma all_typed_add_node (G : Graph) (n : string) (a : NodeAttrs) :
  n_type a <> None -> all_typed G -> all_typed (Nx.add_node n a G).
Proof.
  intros Ha HG m b Hm. rewrite node_attr_add_node in Hm.
  destruct (String.eqb n m); [| now apply (HG m)].
  injection Hm as <-. simpl. destruct (n_type a); [discriminate | congruence].
Qed.

Lemma all_typed_add_keywords (title section : string) (keywords : list (string * nat))
    (G : Graph) :
  Nx.node_attr G title <> None -> all_typed G ->
  all_typed (add_keywords title section keywords G)
  /\ Nx.node_attr (add_keywords title section keywords G) title <> None.
Proof.
  revert G. induction keywords as [|[k c] rest IH]; intros G Hnode HG; [now split |].
  rewrite add_keywords_cons. destruct (3 <? String.length k); [| now apply IH].
  apply IH; [now apply node_stays_add_keyword |].
  intros m b Hm. rewrite node_attr_add_keyword in Hm by exact Hnode.
  destruct (String.eqb k m); [| now apply (HG m)].
  injection Hm as <-. discriminate.
Qed.

Section SimilarReturns.

Variable stop_words : list string.
Variable word_tokenize : string -> option (list string).

Lemma all_typed_graph_of_docs (docs : list Doc) (G : Graph) :
  all_typed G -> all_typed (graph_of_docs stop_words word_tokenize docs G).
Proof.
  revert G. induction docs as [|d docs IH]; intros G HG; [exact HG |].
  simpl. apply IH. rewrite add_doc_unfold.
  set (G0 := Nx.add_node (doc_title d) (publication_node d) G).
  assert (H0 : all_typed G0) by (apply all_typed_add_node; [discriminate | exact HG]).
  assert (Hn0 : Nx.node_attr G0 (doc_title d) <> None).
  { unfold G0. rewrite node_attr_add_node, String.eqb_refl. discriminate. }
  destruct (all_typed_add_keywords (doc_title d) "abstract"
              (abstract_keywords stop_words word_tokenize d) G0 Hn0 H0) as [H1 Hn1].
  now apply all_typed_add_keywords.
Qed.

End SimilarReturns.

Lemma in_keys_get {V : Type} (k : string) (d : Dict.t V) :
  In k (Dict.keys d) -> exists v, Dict.get k d = Some v.
Proof.
  intros H. destruct (Dict.get k d) as [v|] eqn:E; [now exists v |].
  now apply get_none_not_in_keys in E.
Qed.

Lemma filter_o_returns {A : Type} (f : A -> outcome bool) (l : list A) :
  (forall x, In x l -> exists b, f x = Ret b) ->
  exists kept, filter_o f l = Ret kept /\ incl kept l.
Proof.
  induction l as [|x l IH]; intros H; simpl.
  - exists []. split; [reflexivity | intros ? []].
  - destruct (H x (or_introl eq_refl)) as [b ->]. simpl.
    destruct IH as [kept [-> Hincl]]; [intros y Hy; apply H; now right |]. simpl.
    destruct b; eexists; (split; [reflexivity |]).
    + intros y [<- | Hy]; [now left | right; now apply Hincl].
    + intros y Hy. right. now apply Hincl.
Qed.

Lemma fold_o_returns {A B : Type} (f : B -> A -> outcome B) (l : list A) (b : B) :
  (forall b x, In x l -> exists b', f b x = Ret b') ->
  exists b', fold_o f l b = Ret b'.
Proof.
  revert b. induction l as [|x l IH]; intros b H; simpl; [now exists b |].
  destruct (H b x (or_introl eq_refl)) as [b1 ->]. simpl.
  apply IH. intros b0 y Hy. apply H. now right.
Qed.

Section SimilarTotal.

Variable G : Graph.
Hypothesis wf : well_formed G.
Hypothesis typed : all_typed G.

Lemma neighbor_is_node (u v : string) :
  In v (Dict.keys (Nx.adj_of G u)) -> Nx.node_attr G v <> None.
Proof.
  intros H. apply in_keys_get in H. destruct H as [e He].
  change (Nx.edge_attr G u v = Some e) in He. rewrite (wf_symmetric G wf) in He.
  eapply wf_endpoints; eauto.
Qed.

Lemma has_type_returns (t node : string) :
  Nx.node_attr G node <> None -> exists b, has_type G t node = Ret b.
Proof.
  intros H. unfold has_type, Nx.node_type. unfold Nx.node_attr in *.
  destruct (Dict.get node (_node G)) as [a|] eqn:E; [| congruence].
  pose proof (typed node a E) as Ht. destruct (n_type a); [| congruence].
  simpl. eexists. reflexivity.
Qed.

Lemma neighbors_returns (n : string) :
  Nx.node_attr G n <> None -> Nx.neighbors G n = Ret (Dict.keys (Nx.adj_of G n)).
Proof.
  intros H. apply (wf_nodes_have_adj G wf) in H. unfold Nx.neighbors, Nx.adj_of.
  destruct (Dict.get n (_adj G)); [reflexivity | congruence].
Qed.

(** On a well-formed graph whose nodes all have a type, the function
    returns a list for every title and every [n]. *)
Lemma get_similar_publications_returns (title : string) (n : Z) :
  exists similar, get_similar_publications G title n = Ret similar.
Proof.
  unfold get_similar_publications.
  destruct (Nx.has_node G title) eqn:Hnode; simpl; [| now eexists].
  assert (Htitle : Nx.node_attr G title <> None).
  { unfold Nx.has_node, Dict.has, Nx.node_attr in *.
    destruct (Dict.get title (_node G)); [discriminate | discriminate]. }
  rewrite (neighbors_returns title Htitle). simpl.
  destruct (filter_o_returns (has_type G "keyword") (Dict.keys (Nx.adj_of G title)))
    as [keywords [-> Hincl]].
  { intros x Hx. apply has_type_returns. eapply neighbor_is_node. exact Hx. }
  simpl.
  destruct (fold_o_returns (tally_shared G title) keywords []) as [similar_pubs ->].
  - intros b keyword Hk. unfold tally_shared.
    assert (Hkw : Nx.node_attr G keyword <> None).
    { eapply neighbor_is_node. apply Hincl. exact Hk. }
    rewrite (neighbors_returns keyword Hkw). simpl.
    apply fold_o_returns. intros b0 node Hin.
    destruct (String.eqb node title); [now eexists |].
    destruct (has_type_returns "publication" node) as [is_pub ->].
    + eapply neighbor_is_node. exact Hin.
    + simpl. now eexists.
  - simpl. now eexists.
Qed.

End SimilarTotal.

(** On the graph of any documents, built from the empty graph. *)
Lemma similar_returns_on_built_graph (stop_words : list string)
    (word_tokenize : string -> option (list string)) (docs : list Doc) (title : string) (n : Z) :
  exists similar,
    get_similar_publications (graph_of_docs stop_words word_tokenize docs Nx.empty) title n
    = Ret similar.
Proof.
  apply get_similar_publications_returns.
  - apply well_formed_graph_of_docs, well_formed_empty.
  - apply all_typed_graph_of_docs. intros m a H. discriminate H.
Qed.

(** * Further properties of the search engine *)

(** ** Splitting and lowering *)

Section SplitFacts.
Import PyStr.

Lemma flush_rev (cur : list ascii) (acc : list string) :
  rev (flush cur acc) = rev acc ++ rev (flush cur []).
Proof. destruct cur; simpl; [now rewrite app_nil_r | reflexivity]. Qed.

Lemma split_go_acc (s : string) (cur : list ascii) (acc : list string) :
  split_go s cur acc = rev acc ++ split_go s cur [].
Proof.
  revert cur acc. induction s as [|c s IH]; intros cur acc; simpl.
  - apply flush_rev.
  - destruct (is_space c).
    + rewrite IH, (IH [] (flush cur [])), flush_rev. now rewrite app_assoc.
    + apply IH.
Qed.

Lemma split_go_space_app (a b : string) (cur : list ascii) :
  split_go (a ++ String " " b) cur [] = split_go a cur [] ++ split b.
Proof.
  revert cur. induction a as [|c a IH]; intros cur; simpl.
  - change (is_space " ") with true. cbv iota. now rewrite split_go_acc.
  - destruct (is_space c).
    + rewrite split_go_acc, IH, (split_go_acc a [] (flush cur [])). now rewrite app_assoc.
    + apply IH.
Qed.

(** [(a + ' ' + b).split() == a.split() + b.split()] *)
Lemma split_space_app (a b : string) : split (a ++ " " ++ b) = split a ++ split b.
Proof. apply split_go_space_app. Qed.

Lemma lower_app (a b : string) : lower (a ++ b) = (lower a ++ lower b)%string.
Proof. induction a as [|c a IH]; simpl; [reflexivity | now rewrite IH]. Qed.

(** A string of white space has no word. *)
Lemma split_go_blank (s : string) (acc : list string) :
  forallb is_space (list_ascii_of_string s) = true -> split_go s [] acc = rev acc.
Proof.
  revert acc. induction s as [|c s IH]; intros acc; simpl; [reflexivity |].
  destruct (is_space c); [| discriminate]. simpl. apply IH.
Qed.

Lemma lower_char_space (c : ascii) : is_space (lower_char c) = is_space c.
Proof.
  unfold lower_char. destruct (is_upper c) eqn:E; [| reflexivity].
  unfold is_upper in E. apply andb_true_iff in E. destruct E as [E1 E2].
  apply Nat.leb_le in E1. apply Nat.leb_le in E2.
  unfold is_space. rewrite nat_ascii_embedding by lia.
  repeat match goal with |- context [?a <=? ?b] =>
    let H := fresh in destruct (Nat.leb_spec a b) as [H | H]; try lia end; reflexivity.
Qed.

Lemma lower_blank (s : string) :
  forallb is_space (list_ascii_of_string (lower s)) = forallb is_space (list_ascii_of_string s).
Proof. induction s as [|c s IH]; simpl; [reflexivity | now rewrite lower_char_space, IH]. Qed.

End SplitFacts.

(** ** Matching composes over the words of the query *)

Section QueryWords.
Import PyStr.

Variable word_tokenize : string -> option (list string).
Variable stem : string -> string.

Local Abbreviation matches := (_text_matches word_tokenize stem).

(** X1: in fuzzy mode a query made of two parts joined by a space matches
    a section exactly when both parts match it, so the order of the parts
    does not matter. *)
Theorem fuzzy_match_of_joined_queries (text q1 q2 : string) :
  _text_matches word_tokenize stem text (q1 ++ " " ++ q2) false
  = _text_matches word_tokenize stem text q1 false
    && _text_matches word_tokenize stem text q2 false
  /\ _text_matches word_tokenize stem text (q1 ++ " " ++ q2) false
     = _text_matches word_tokenize stem text (q2 ++ " " ++ q1) false.
Proof.
  assert (H : forall a b, matches text (a ++ " " ++ b) false
                          = matches text a false && matches text b false).
  { intros a b. destruct text as [|c text]; [reflexivity |].
    cbn [_text_matches]. rewrite !lower_app. change (lower " ") with " ".
    now rewrite split_space_app, forallb_app. }
  split; [apply H |]. rewrite !H. apply andb_comm.
Qed.

(** X2: in fuzzy mode a query that is empty or made of white space only
    has no word to test, and matches every section that is not empty. *)
Theorem blank_query_matches_any_text (text query : string) :
  text <> "" ->
  forallb is_space (list_ascii_of_string query) = true ->
  _text_matches word_tokenize stem text query false = true.
Proof.
  intros Htext Hblank. destruct text as [|c text]; [congruence |].
  cbn [_text_matches]. unfold split. rewrite split_go_blank; [reflexivity |].
  now rewrite lower_blank.
Qed.

End QueryWords.

Lemma blank_query_matches_any_text_witness :
  _text_matches punkt_missing porter_sample "bone density drops" "   " false = true.
Proof.
  apply (blank_query_matches_any_text punkt_missing porter_sample "bone density drops" "   ").
  - discriminate.
  - reflexivity.
Defined.

(** ** Context snippets *)

Section SubstringFacts.
Import PyStr.

Lemma length_app_string (a b : string) :
  String.length (a ++ b) = String.length a + String.length b.
Proof. induction a as [|c a IH]; simpl; [reflexivity | now rewrite IH]. Qed.

Lemma app_assoc_string (a b c : string) : ((a ++ b) ++ c = a ++ b ++ c)%string.
Proof. induction a as [|x a IH]; simpl; [reflexivity | now rewrite IH]. Qed.

Lemma app_empty_r (a : string) : (a ++ "")%string = a.
Proof. induction a as [|x a IH]; simpl; [reflexivity | now rewrite IH]. Qed.

Lemma length_substring_le (n m : nat) (s : string) : String.length (substring n m s) <= m.
Proof.
  revert n m. induction s as [|c s IH]; intros n m.
  - destruct n, m; simpl; lia.
  - destruct n as [|n]; [destruct m as [|m]; simpl; [lia |] | simpl; apply IH].
    specialize (IH 0 m). lia.
Qed.

Lemma substring_0_app (n : nat) (x y : string) :
  String.length x <= n ->
  substring 0 n (x ++ y) = (x ++ substring 0 (n - String.length x) y)%string.
Proof.
  revert n. induction x as [|c x IH]; intros n H; simpl in *.
  - now rewrite Nat.sub_0_r.
  - destruct n as [|n]; [lia |]. simpl. rewrite IH by lia. reflexivity.
Qed.

Lemma Substring_prefix (q s p : string) : Substring q s -> Substring q (p ++ s).
Proof.
  intros [pre [post ->]]. exists (p ++ pre)%string, post. now rewrite app_assoc_string.
Qed.

Lemma Substring_suffix (q s p : string) : Substring q s -> Substring q (s ++ p).
Proof.
  intros [pre [post ->]]. exists pre, (post ++ p)%string. now rewrite !app_assoc_string.
Qed.

(** A slice that starts before an occurrence and ends after it holds the
    occurrence. *)
Lemma Substring_substring (pre q post : string) (a n : nat) :
  a <= String.length pre -> String.length pre + String.length q <= a + n ->
  Substring q (substring a n (pre ++ q ++ post)).
Proof.
  revert a n. induction pre as [|c pre IH]; intros a n Ha Hn; simpl in *.
  - assert (a = 0) as -> by lia. rewrite substring_0_app by lia.
    exists "", (substring 0 (n - String.length q) post). reflexivity.
  - destruct a as [|a].
    + destruct n as [|n]; [lia |]. simpl.
      apply (Substring_prefix q _ (String c "")). apply (IH 0); lia.
    + apply IH; lia.
Qed.

Lemma drop_split (start : nat) (s : string) :
  start <= String.length s ->
  exists pre, s = (pre ++ drop start s)%string /\ String.length pre = start.
Proof.
  revert s. induction start as [|k IH]; intros s H.
  - exists "". now split.
  - destruct s as [|c s]; simpl in *; [lia |].
    destruct (IH s) as [pre [Hs Hlen]]; [lia |].
    exists (String c pre). simpl. split; [now rewrite <- Hs | now rewrite Hlen].
Qed.

Lemma find_at_occurrence (q s : string) (i j : nat) :
  find_at q s i = Some j ->
  exists pre post, s = (pre ++ q ++ post)%string /\ j = i + String.length pre.
Proof.
  revert i. induction s as [|c s IH]; intros i; simpl.
  - destruct (startswith q "") eqn:E; [| discriminate]. intros [= <-].
    apply startswith_iff in E. destruct E as [r Hr]. exists "", r. split; [exact Hr | simpl; lia].
  - destruct (startswith q (String c s)) eqn:E.
    + intros [= <-]. apply startswith_iff in E. destruct E as [r Hr].
      exists "", r. split; [exact Hr | simpl; lia].
    + intros H. apply IH in H. destruct H as [pre [post [-> ->]]].
      exists (String c pre), post. split; [reflexivity | simpl; lia].
Qed.

(** [text.find(query, start)] returns the start of an occurrence at or
    after [start]. *)
Lemma find_occurrence (q s : string) (start idx : nat) :
  find q s start = Some idx ->
  exists pre post,
    s = (pre ++ q ++ post)%string /\ idx = String.length pre /\ start <= idx.
Proof.
  unfold find. destruct (String.length s <? start) eqn:E; [discriminate |].
  apply Nat.ltb_ge in E. intros H. apply find_at_occurrence in H.
  destruct H as [pre [post [Hdrop ->]]].
  destruct (drop_split start s E) as [front [Hs Hlen]].
  exists (front ++ pre)%string, post. rewrite Hdrop in Hs.
  split; [now rewrite app_assoc_string | rewrite length_app_string; lia].
Qed.

Lemma search_word_go_occurrence (prev : bool) (w s : string) (i j : nat) :
  Re.search_word_go prev w s i = Some j ->
  exists pre post, s = (pre ++ w ++ post)%string /\ j = i + String.length pre.
Proof.
  revert prev i. induction s as [|c s IH]; intros prev i; simpl.
  - destruct (Re.word_at prev w "") eqn:E; [| discriminate]. intros [= <-].
    unfold Re.word_at in E. apply andb_true_iff in E. destruct E as [E _].
    apply andb_true_iff in E. destruct E as [_ E].
    apply startswith_iff in E. destruct E as [r Hr]. exists "", r. split; [exact Hr | simpl; lia].
  - destruct (Re.word_at prev w (String c s)) eqn:E.
    + intros [= <-]. unfold Re.word_at in E. apply andb_true_iff in E. destruct E as [E _].
      apply andb_true_iff in E. destruct E as [_ E].
      apply startswith_iff in E. destruct E as [r Hr].
      exists "", r. split; [exact Hr | simpl; lia].
    + intros H. apply IH in H. destruct H as [pre [post [-> ->]]].
      exists (String c pre), post. split; [reflexivity | simpl; lia].
Qed.

End SubstringFacts.

Section Snippets.
Import PyStr.

(** The snippet around an occurrence holds the occurrence and at most
    [context_chars] characters on either side, plus the two ellipses. *)
Lemma context_snippet_spec (pre q post : string) (context_chars : nat) :
  let snippet :=
    context_snippet (pre ++ q ++ post) (String.length pre)
      (String.length pre + String.length q) context_chars in
  Substring q snippet
  /\ String.length snippet <= String.length q + 2 * context_chars + 6.
Proof.
  cbv zeta. unfold context_snippet.
  set (text := (pre ++ q ++ post)%string).
  set (a := String.length pre - context_chars).
  set (b := Nat.min (String.length text) (String.length pre + String.length q + context_chars)).
  assert (Hlen : String.length text
                 = String.length pre + String.length q + String.length post).
  { unfold text. rewrite !length_app_string. lia. }
  assert (Hsub : Substring q (slice text a b)).
  { unfold slice, text. apply Substring_substring; unfold a, b; lia. }
  assert (Hslice : String.length (slice text a b) <= String.length q + 2 * context_chars).
  { unfold slice. pose proof (length_substring_le a (b - a) text). unfold a, b in *. lia. }
  destruct (0 <? a), (b <? String.length text);
    rewrite ?length_app_string; simpl String.length; (split; [| lia]).
  - apply Substring_suffix, (Substring_prefix q _ "..."), Hsub.
  - apply (Substring_prefix q _ "..."), Hsub.
  - apply Substring_suffix, Hsub.
  - exact Hsub.
Qed.

Lemma exact_snippets_length (room : nat) (text query : string) (start_idx context_chars : nat) :
  List.length (exact_snippets room text query start_idx context_chars) <= room.
Proof.
  revert start_idx. induction room as [|room IH]; intros start_idx; simpl; [lia |].
  destruct (find query text start_idx); simpl; [| lia].
  specialize (IH (n + String.length query)). lia.
Qed.

Lemma fuzzy_snippets_length (query_words : list string) (text : string)
    (context_chars max_snippets : nat) (snippets : list string) :
  List.length (fuzzy_snippets query_words text context_chars max_snippets snippets)
  <= Nat.max (List.length snippets) max_snippets.
Proof.
  revert snippets. induction query_words as [|word rest IH]; intros snippets; simpl; [lia |].
  destruct (max_snippets <=? List.length snippets) eqn:E; [lia |].
  apply Nat.leb_gt in E.
  destruct (first_variation_snippet (variations word) text context_chars).
  - specialize (IH (snippets ++ [s])). rewrite length_app in IH. simpl in IH. lia.
  - specialize (IH snippets). lia.
Qed.

(** X3: the function returns at most [max_snippets] snippets, in exact
    and in fuzzy mode, whatever the text and the query. *)
Theorem snippet_count_within_limit (text query : string) (exact_match : bool)
    (context_chars max_snippets : nat) :
  List.length (_extract_context_snippets text query exact_match context_chars max_snippets)
  <= max_snippets.
Proof.
  unfold _extract_context_snippets. destruct exact_match.
  - apply exact_snippets_length.
  - pose proof (fuzzy_snippets_length (split (lower query)) text context_chars max_snippets []).
    simpl in H. lia.
Qed.

Lemma exact_snippets_spec (room : nat) (text query : string) (start_idx context_chars : nat) :
  Forall (fun snippet =>
            Substring query snippet
            /\ String.length snippet <= String.length query + 2 * context_chars + 6)
         (exact_snippets room text query start_idx context_chars).
Proof.
  revert start_idx. induction room as [|room IH]; intros start_idx; simpl; [constructor |].
  destruct (find query text start_idx) as [idx|] eqn:E; [| constructor].
  constructor; [| apply IH].
  apply find_occurrence in E. destruct E as [pre [post [-> [-> _]]]].
  apply context_snippet_spec.
Qed.

(** X4: in exact mode every snippet holds the query as written, and is no
    longer than the query with [context_chars] characters on either side
    and the two ellipses of three characters. *)
Theorem exact_snippets_hold_the_query (text query : string) (context_chars max_snippets : nat) :
  Forall (fun snippet =>
            Substring query snippet
            /\ String.length snippet <= String.length query + 2 * context_chars + 6)
         (_extract_context_snippets text query true context_chars max_snippets).
Proof. apply exact_snippets_spec. Qed.

(** The word forms a snippet of the fuzzy mode can be cut around. *)
Definition shown_form (query variation : string) : Prop :=
  exists word, In word (split (lower query)) /\ In variation (variations word)
               /\ 3 <= String.length variation.

Lemma first_variation_snippet_spec (vs : list string) (text : string) (context_chars : nat)
    (snippet : string) :
  first_variation_snippet vs text context_chars = Some snippet ->
  exists variation,
    In variation vs /\ 3 <= String.length variation
    /\ Substring variation snippet
    /\ String.length snippet <= String.length variation + 2 * context_chars + 6.
Proof.
  induction vs as [|variation rest IH]; simpl; [discriminate |].
  destruct (String.eqb variation "" || (String.length variation <? 3)) eqn:Eshort.
  - intros H. destruct (IH H) as [v [Hin Hv]]. exists v. split; [now right | exact Hv].
  - destruct (Re.search_word variation text) as [start_idx|] eqn:E.
    + intros [= <-]. exists variation. split; [now left |].
      apply orb_false_iff in Eshort. destruct Eshort as [_ Elen]. apply Nat.ltb_ge in Elen.
      split; [exact Elen |].
      apply search_word_go_occurrence in E. destruct E as [pre [post [-> ->]]].
      apply context_snippet_spec.
    + intros H. destruct (IH H) as [v [Hin Hv]]. exists v. split; [now right | exact Hv].
Qed.

Lemma fuzzy_snippets_spec (P : string -> Prop) (query_words : list string)
    (text : string) (context_chars max_snippets : nat) (snippets : list string) :
  (forall word snippet,
      In word query_words ->
      first_variation_snippet (variations word) text context_chars = Some snippet ->
      P snippet) ->
  Forall P snippets ->
  Forall P (fuzzy_snippets query_words text context_chars max_snippets snippets).
Proof.
  revert snippets. induction query_words as [|word rest IH]; intros snippets Hstep Hs; simpl;
    [exact Hs |].
  destruct (max_snippets <=? List.length snippets); [exact Hs |].
  destruct (first_variation_snippet (variations word) text context_chars) as [snippet|] eqn:E.
  - apply IH; [intros w s Hw; apply Hstep; now right |].
    apply Forall_app. split; [exact Hs |]. constructor; [| constructor].
    apply (Hstep word); [now left | exact E].
  - apply IH; [intros w s Hw; apply Hstep; now right | exact Hs].
Qed.

(** X5: in fuzzy mode every snippet is cut around a form of a query
    word (the word, its plural in s, or its singular) of at least 3
    characters: it holds that form and is no longer than the form with
    [context_chars] characters on either side and the two ellipses. *)
Theorem fuzzy_snippets_show_a_word_form (text query : string)
    (context_chars max_snippets : nat) :
  Forall (fun snippet =>
            exists variation,
              shown_form query variation
              /\ Substring variation snippet
              /\ String.length snippet <= String.length variation + 2 * context_chars + 6)
         (_extract_context_snippets text query false context_chars max_snippets).
Proof.
  unfold _extract_context_snippets.
  apply fuzzy_snippets_spec; [| constructor].
  intros word snippet Hword Hsnippet.
  apply first_variation_snippet_spec in Hsnippet.
  destruct Hsnippet as [variation [Hin [Hlen [Hsub Hbound]]]].
  exists variation. split; [| now split]. exists word. now repeat split.
Qed.

End Snippets.

(** ** The results of a search *)

Section SearchResults.
Import PyStr.

Variable word_tokenize : string -> option (list string).
Variable stem : string -> string.
Variable publications_df : list Row.

Variable query : string.
Variable section : option string.
Variable exact_match : bool.

Local Abbreviation matched_in := (fun content =>
  matched_sections word_tokenize stem content query section exact_match).
Local Abbreviation step :=
  (search_file word_tokenize stem publications_df query section exact_match).

(** Every entry of the map from hashes to publications is a row of the
    table. *)
Definition from_table (url_hash_map : Dict.t Row) : Prop :=
  forall k row, Dict.get k url_hash_map = Some row -> In row publications_df.

(** The entry the loop appends for a cached document identified as
    [row]. *)
Definition result_for (row : Row) (content : Content) : SearchResult :=
  mkSearchResult (Title row) (Link row) (map snd (matched_in content))
    (firstn 3
       (flat_map (fun '(text, section_name) =>
                    map (fun snippet => (snippet, section_name))
                        (_extract_context_snippets text query exact_match 100 2))
                 (matched_in content))).

Lemma from_table_set (k : string) (row : Row) (m : Dict.t Row) :
  In row publications_df -> from_table m -> from_table (Dict.set k row m).
Proof.
  intros Hrow Hm k' row' H. rewrite get_set in H.
  destruct (String.eqb k k'); [now injection H as <- | now apply (Hm k')].
Qed.

Lemma resolve_unmapped_spec (m m' : Dict.t Row) (file_hash : string) (content : Content)
    (found : option Row) :
  from_table m -> Dict.get file_hash m = None ->
  resolve_unmapped publications_df m file_hash content = (found, m') ->
  from_table m'
  /\ (forall k row, Dict.get k m = Some row -> Dict.get k m' = Some row)
  /\ (forall row, found = Some row -> In row publications_df).
Proof.
  intros Hm Hnone. unfold resolve_unmapped.
  destruct (if startswith "-" file_hash then Dict.get (drop 1 file_hash) m else None)
    as [row|] eqn:E.
  - intros [= <- <-]. split; [exact Hm |]. split; [tauto |].
    intros r [= <-]. destruct (startswith "-" file_hash); [| discriminate].
    now apply (Hm _ _ E).
  - destruct (List.find _ publications_df) as [row|] eqn:F.
    + intros [= <- <-]. apply find_some in F. destruct F as [Hrow _].
      split; [now apply from_table_set |]. split.
      * intros k r Hk. rewrite get_set_other; [exact Hk |]. intros ->. congruence.
      * now intros r [= <-].
    + intros [= <- <-]. split; [exact Hm |]. split; [tauto | discriminate].
Qed.

(** The publication a cache file belongs to: by the map, or else as
    [resolve_unmapped] finds it. *)
Lemma owner_spec (m m' : Dict.t Row) (file_hash : string) (content : Content)
    (found : option Row) :
  from_table m ->
  match Dict.get file_hash m with
  | Some row => (Some row, m)
  | None => resolve_unmapped publications_df m file_hash content
  end = (found, m') ->
  from_table m'
  /\ (forall k row, Dict.get k m = Some row -> Dict.get k m' = Some row)
  /\ (forall row, found = Some row -> In row publications_df)
  /\ (forall row, Dict.get file_hash m = Some row -> found = Some row).
Proof.
  intros Hm. destruct (Dict.get file_hash m) as [row|] eqn:Eget.
  - intros [= <- <-]. split; [exact Hm |]. split; [tauto |]. split.
    + intros r [= <-]. now apply (Hm _ _ Eget).
    + now intros r [= <-].
  - intros Eres. destruct (resolve_unmapped_spec _ _ _ _ _ Hm Eget Eres) as [H1 [H2 H3]].
    split; [exact H1 |]. split; [exact H2 |]. split; [exact H3 | discriminate].
Qed.

Lemma seen_iff (title : string) (found : list SearchResult) :
  existsb (fun r => String.eqb (sr_title r) title) found = true
  <-> In title (map sr_title found).
Proof.
  rewrite existsb_exists, in_map_iff. split; intros [x [H1 H2]]; exists x.
  - split; [now apply String.eqb_eq | exact H1].
  - split; [exact H2 | now apply String.eqb_eq].
Qed.

(** One turn of the loop over the cache files. *)
Lemma search_file_step (found : list SearchResult) (m : Dict.t Row) (file : string * File) :
  from_table m ->
  from_table (snd (step (found, m) file))
  /\ (forall k row, Dict.get k m = Some row ->
        Dict.get k (snd (step (found, m) file)) = Some row)
  /\ (fst (step (found, m) file) = found
      \/ exists row content,
           snd file = ContentFile content /\ In row publications_df
           /\ matched_in content <> []
           /\ ~ In (Title row) (map sr_title found)
           /\ fst (step (found, m) file) = found ++ [result_for row content])
  /\ (forall row content,
        snd file = ContentFile content ->
        Dict.get (before_first "." (fst file)) m = Some row ->
        matched_in content <> [] ->
        In (Title row) (map sr_title (fst (step (found, m) file)))).
Proof.
  intros Hm. destruct file as [filename loaded]. unfold search_file.
  destruct loaded as [content | graph_data |];
    [| cbn [fst snd]; split; [exact Hm |]; split; [tauto |]; split; [now left |];
       intros r c Hc; discriminate Hc ..].
  destruct (match Dict.get (before_first "." filename) m with
            | Some row => (Some row, m)
            | None => resolve_unmapped publications_df m (before_first "." filename) content
            end) as [publication_data m'] eqn:Eowner.
  destruct (owner_spec _ _ _ _ _ Hm Eowner) as [Hm' [Hmono [Hfound Hmapped]]].
  cbn [fst snd].
  destruct publication_data as [row|].
  - assert (Hrow : In row publications_df) by now apply Hfound.
    destruct (matched_sections word_tokenize stem content query section exact_match)
      as [|first others] eqn:Ematched.
    + cbn [fst snd]. split; [exact Hm' |]. split; [exact Hmono |]. split; [now left |].
      intros r c [= <-] _ H. now contradiction H.
    + destruct (existsb (fun r => String.eqb (sr_title r) (Title row)) found) eqn:Eseen;
        cbn [fst snd]; (split; [exact Hm' |]); (split; [exact Hmono |]).
      * split; [now left |].
        intros r c _ Hr _. apply Hmapped in Hr. injection Hr as <-. now apply seen_iff.
      * split.
        -- right. exists row, content. split; [reflexivity |]. split; [exact Hrow |].
           split; [rewrite Ematched; discriminate |]. split.
           ++ intros Hin. apply seen_iff in Hin. congruence.
           ++ unfold result_for. now rewrite Ematched.
        -- intros r c _ Hr _. apply Hmapped in Hr. injection Hr as <-.
           rewrite map_app. apply in_or_app. right. now left.
  - cbn [fst snd]. split; [exact Hm' |]. split; [exact Hmono |]. split; [now left |].
    intros r c _ Hr _. apply Hmapped in Hr. discriminate Hr.
Qed.

(** The loop over the cache files. *)
Lemma search_files_spec (files : list (string * File)) (found : list SearchResult)
    (m : Dict.t Row) :
  from_table m ->
  NoDup (map sr_title found) ->
  let found' := fst (fold_left step files (found, m)) in
  NoDup (map sr_title found')
  /\ (forall r, In r found' ->
        In r found
        \/ exists row file content,
             In (file, ContentFile content) files /\ In row publications_df
             /\ matched_in content <> [] /\ r = result_for row content)
  /\ (forall title, In title (map sr_title found) -> In title (map sr_title found'))
  /\ (forall row file content,
        In (file, ContentFile content) files ->
        Dict.get (before_first "." file) m = Some row ->
        matched_in content <> [] ->
        In (Title row) (map sr_title found')).
Proof.
  revert found m. induction files as [|file files IH]; intros found m Hm Hnodup; cbn [fold_left].
  - cbv zeta. cbn [fst]. split; [exact Hnodup |]. split; [now left |]. split; [tauto |].
    intros row f c H. now contradiction H.
  - destruct (search_file_step found m file Hm) as [Hm1 [Hmono [Hfound Hhit]]].
    destruct (step (found, m) file) as [found1 m1] eqn:Estep. cbn [fst snd] in *.
    assert (Hnodup1 : NoDup (map sr_title found1)).
    { destruct Hfound as [-> | [row [content [_ [_ [_ [Hnew ->]]]]]]]; [exact Hnodup |].
      rewrite map_app. cbn [map]. apply NoDup_app; [exact Hnodup | |].
      - constructor; [intros [] | constructor].
      - intros a Ha [<- | []]. now apply Hnew. }
    assert (Hgrow : forall title, In title (map sr_title found) -> In title (map sr_title found1)).
    { destruct Hfound as [-> | [row [content [_ [_ [_ [_ ->]]]]]]]; [tauto |].
      intros title H. rewrite map_app. apply in_or_app. now left. }
    destruct (IH found1 m1 Hm1 Hnodup1) as [H1 [H2 [H3 H4]]]. cbv zeta.
    split; [exact H1 |]. split; [| split].
    + intros r Hr. apply H2 in Hr.
      destruct Hr as [Hr | [row [f [c [Hf Hrest]]]]].
      * destruct Hfound as [-> | [row [content [Hfile [Hrow [Hmatch [_ ->]]]]]]]; [now left |].
        apply in_app_or in Hr. destruct Hr as [Hr | [<- | []]]; [now left |].
        right. exists row, (fst file), content. split; [| now split].
        left. destruct file as [f c]. cbn [fst snd] in *. now rewrite Hfile.
      * right. exists row, f, c. split; [now right | exact Hrest].
    + intros title H. now apply H3, Hgrow.
    + intros row f c [Heq | Hin] Hget Hmatch.
      * apply H3. subst file. now apply (Hhit row c).
      * apply (H4 row f c Hin); [now apply Hmono | exact Hmatch].
Qed.

Variable str_hash : string -> string.

Lemma initial_url_hash_map_from_table :
  from_table (initial_url_hash_map str_hash publications_df).
Proof.
  unfold initial_url_hash_map.
  assert (H : forall rows m, incl rows publications_df -> from_table m ->
              from_table
                (fold_left
                   (fun url_hash_map row =>
                      if String.eqb (Link row) "" then url_hash_map
                      else
                        let url_hash := str_hash (Link row) in
                        let m := Dict.set url_hash row url_hash_map in
                        if startswith "-" url_hash then Dict.set (drop 1 url_hash) row m else m)
                   rows m)).
  { induction rows as [|row rows IH]; intros m Hincl Hm; cbn [fold_left]; [exact Hm |].
    apply IH; [intros r Hr; apply Hincl; now right |].
    assert (Hrow : In row publications_df) by (apply Hincl; now left).
    destruct (String.eqb (Link row) ""); [exact Hm |]. cbv zeta.
    destruct (startswith "-" (str_hash (Link row)));
      repeat apply from_table_set; assumption. }
  apply H; [apply incl_refl | intros k row Hk; discriminate Hk].
Qed.

End SearchResults.

(** [content.get(key, '')] for the key a section name stands for; the
    name 'full text' stands for the key [full_text]. *)
Definition section_text (content : Content) (name : string) : option string :=
  if String.eqb name "abstract" then Some (abstract content)
  else if String.eqb name "results" then Some (results content)
  else if String.eqb name "conclusion" then Some (conclusion content)
  else if String.eqb name "full text" then Some (full_text content)
  else None.

Definition named_sections : list string := ["abstract"; "results"; "conclusion"].

Section SearchEngine.
Import PyStr.

Variable word_tokenize : string -> option (list string).
Variable stem : string -> string.
Variable str_hash : string -> string.
Variable publications_df : list Row.

Local Abbreviation search :=
  (search_publications_full_text word_tokenize stem str_hash publications_df).
Local Abbreviation matched_in := (matched_sections word_tokenize stem).
Local Abbreviation matches := (_text_matches word_tokenize stem).

(** Where a result comes from: a cached document, a row of the table, and
    the sections of the document that match. *)
Lemma search_result_origin (cache_dir : Dict.t File) (query : string)
    (section : option string) (exact_match : bool) (r : SearchResult) :
  In r (search cache_dir query section exact_match) ->
  exists row file content,
    In (file, ContentFile content) cache_dir /\ is_cache_file file = true
    /\ In row publications_df
    /\ matched_in content (lower query) section exact_match <> []
    /\ r = result_for word_tokenize stem (lower query) section exact_match row content.
Proof.
  unfold search_publications_full_text. intros H.
  destruct (search_files_spec word_tokenize stem publications_df (lower query) section
              exact_match (filter (fun f => is_cache_file (fst f)) cache_dir) []
              (initial_url_hash_map str_hash publications_df)
              (initial_url_hash_map_from_table publications_df str_hash))
    as [_ [Horigin _]]; [constructor |].
  apply Horigin in H. destruct H as [[] | [row [file [content [Hfile Hrest]]]]].
  exists row, file, content. apply filter_In in Hfile. destruct Hfile as [Hfile Hcache].
  split; [exact Hfile |]. split; [exact Hcache | exact Hrest].
Qed.

(** What [matched_sections] lists. *)
Lemma matched_sections_spec (content : Content) (query : string) (section : option string)
    (exact_match : bool) :
  let matched := matched_in content query section exact_match in
  (forall text name, In (text, name) matched ->
     exists original,
       section_text content name = Some original /\ text = lower original
       /\ matches (lower original) query exact_match = true)
  /\ (map snd matched = ["full text"] /\ section = None
      \/ (NoDup (map snd matched) /\ incl (map snd matched) named_sections
          /\ forall s, section = Some s -> incl (map snd matched) [s])).
Proof.
  cbv zeta. unfold matched_sections. cbv zeta.
  set (probe := fun name text =>
         if section_selected section name && matches (lower text) query exact_match
         then [(lower text, name)] else []).
  assert (Hprobe : forall name text x n,
            In (x, n) (probe name text) ->
            n = name /\ x = lower text /\ matches (lower text) query exact_match = true
            /\ section_selected section name = true).
  { intros name text x n. unfold probe.
    destruct (section_selected section name); [| intros []].
    destruct (matches (lower text) query exact_match); [| intros []].
    intros [[= <- <-] | []]. now repeat split. }
  assert (Hnamed : forall x n,
            In (x, n) (probe "abstract" (abstract content) ++ probe "results" (results content)
                       ++ probe "conclusion" (conclusion content)) ->
            exists original,
              section_text content n = Some original /\ x = lower original
              /\ matches (lower original) query exact_match = true).
  { intros x n H. apply in_app_or in H. destruct H as [H | H]; [| apply in_app_or in H; destruct H as [H | H]];
      apply Hprobe in H; destruct H as [-> [-> [Hm _]]]; eexists; (split; [reflexivity |]);
      now split. }
  assert (Hnames : NoDup (map snd (probe "abstract" (abstract content)
                                   ++ probe "results" (results content)
                                   ++ probe "conclusion" (conclusion content)))
                   /\ incl (map snd (probe "abstract" (abstract content)
                                     ++ probe "results" (results content)
                                     ++ probe "conclusion" (conclusion content)))
                           named_sections
                   /\ forall s, section = Some s ->
                        incl (map snd (probe "abstract" (abstract content)
                                       ++ probe "results" (results content)
                                       ++ probe "conclusion" (conclusion content))) [s]).
  { split; [| split].
    - unfold probe.
      destruct (section_selected section "abstract" && _), (section_selected section "results" && _),
        (section_selected section "conclusion" && _); cbn [map app];
        repeat constructor; cbn [In]; intuition discriminate.
    - intros n Hn. apply in_map_iff in Hn. destruct Hn as [[x n'] [<- Hn]]. cbn [snd].
      unfold named_sections.
      apply in_app_or in Hn. destruct Hn as [H | H]; [| apply in_app_or in H; destruct H as [H | H]];
        apply Hprobe in H; destruct H as [-> _]; cbn [In]; tauto.
    - intros s -> n Hn. apply in_map_iff in Hn. destruct Hn as [[x n'] [<- Hn]]. cbn [snd].
      apply in_app_or in Hn. destruct Hn as [H | H]; [| apply in_app_or in H; destruct H as [H | H]];
        apply Hprobe in H; destruct H as [-> [_ [_ Hsel]]]; cbn [section_selected] in Hsel;
        apply String.eqb_eq in Hsel; left; exact Hsel. }
  destruct section as [s|].
  - split; [exact Hnamed | right; exact Hnames].
  - unfold probe in Hnamed, Hnames. cbv beta in Hnamed, Hnames. clear Hprobe. clear probe.
    match goal with
    | |- context [match ?l with [] => _ | _ :: _ => _ end] =>
        destruct l as [|first others] eqn:E
    end.
    + destruct (matches (lower (full_text content)) query exact_match) eqn:Efull.
      * split; [| left; now split].
        intros text name [[= <- <-] | []]. exists (full_text content). now repeat split.
      * split; [intros text name [] | right; exact Hnames].
    + split; [exact Hnamed | right; exact Hnames].
Qed.

(** X6: no two results of a search have the same title. *)
Theorem search_results_have_distinct_titles (cache_dir : Dict.t File) (query : string)
    (section : option string) (exact_match : bool) :
  NoDup (map sr_title (search cache_dir query section exact_match)).
Proof.
  unfold search_publications_full_text.
  destruct (search_files_spec word_tokenize stem publications_df (lower query) section
              exact_match (filter (fun f => is_cache_file (fst f)) cache_dir) []
              (initial_url_hash_map str_hash publications_df)
              (initial_url_hash_map_from_table publications_df str_hash))
    as [Hnodup _]; [constructor | exact Hnodup].
Qed.

(** X7: every result carries the title and the link of one row of the
    publication table, names at least one matching section, has at most 3
    snippets, and each snippet is labelled with one of the matching
    sections of its result. *)
Theorem search_result_is_well_formed (cache_dir : Dict.t File) (query : string)
    (section : option string) (exact_match : bool) :
  Forall (fun r =>
            (exists row, In row publications_df
                         /\ sr_title r = Title row /\ sr_url r = Link row)
            /\ matching_sections r <> []
            /\ List.length (snippets r) <= 3
            /\ forall snippet, In snippet (snippets r) ->
                 In (snd snippet) (matching_sections r))
         (search cache_dir query section exact_match).
Proof.
  apply Forall_forall. intros r Hr. apply search_result_origin in Hr.
  destruct Hr as [row [file [content [_ [_ [Hrow [Hmatched ->]]]]]]].
  unfold result_for. cbn [sr_title sr_url matching_sections snippets].
  split; [now exists row |]. split.
  - intros Hnil. apply map_eq_nil in Hnil. now apply Hmatched.
  - split; [rewrite length_firstn; lia |].
    intros snippet Hin. apply in_firstn in Hin. apply in_flat_map in Hin.
    destruct Hin as [[text name] [Hin Hsn]]. apply in_map_iff in Hsn.
    destruct Hsn as [s [<- _]]. cbn [snd]. apply in_map_iff. now exists (text, name).
Qed.

(** X8: a result only names sections that match. For every result there
    is a cached document such that each section the result names is a
    section of the document whose lower-cased text matches the lower-cased
    query. *)
Theorem search_reports_sections_that_match (cache_dir : Dict.t File) (query : string)
    (section : option string) (exact_match : bool) :
  Forall (fun r =>
            exists file content,
              In (file, ContentFile content) cache_dir
              /\ forall name, In name (matching_sections r) ->
                   exists text,
                     section_text content name = Some text
                     /\ matches (lower text) (lower query) exact_match = true)
         (search cache_dir query section exact_match).
Proof.
  apply Forall_forall. intros r Hr. apply search_result_origin in Hr.
  destruct Hr as [row [file [content [Hfile [_ [_ [_ ->]]]]]]].
  exists file, content. split; [exact Hfile |].
  unfold result_for. cbn [matching_sections]. intros name Hname.
  apply in_map_iff in Hname. destruct Hname as [[text n] [<- Hin]]. cbn [snd].
  destruct (matched_sections_spec content (lower query) section exact_match) as [Hspec _].
  destruct (Hspec text n Hin) as [original [Htext [_ Hm]]]. now exists original.
Qed.

(** X9: the names of the matching sections. When a section is asked for,
    every result names exactly that section, and the section is 'abstract',
    'results' or 'conclusion' (any other name, 'full text' included, gives
    no result). When none is asked for, a result names either 'full text'
    alone or some of the three sections, each once. *)
Theorem search_names_the_sections_asked_for (cache_dir : Dict.t File) (query : string)
    (exact_match : bool) :
  (forall s,
      Forall (fun r => matching_sections r = [s] /\ In s named_sections)
             (search cache_dir query (Some s) exact_match))
  /\ Forall (fun r =>
               matching_sections r = ["full text"]
               \/ (NoDup (matching_sections r)
                   /\ incl (matching_sections r) named_sections))
            (search cache_dir query None exact_match).
Proof.
  split; [intros s |]; apply Forall_forall; intros r Hr; apply search_result_origin in Hr;
    destruct Hr as [row [file [content [_ [_ [_ [Hmatched ->]]]]]]];
    unfold result_for; cbn [matching_sections].
  - destruct (matched_sections_spec content (lower query) (Some s) exact_match)
      as [_ [[_ Hnone] | [Hnodup [Hincl Hs]]]]; [discriminate |].
    specialize (Hs s eq_refl).
    destruct (map snd (matched_in content (lower query) (Some s) exact_match))
      as [|n1 rest] eqn:E.
    + apply map_eq_nil in E. now contradiction Hmatched.
    + assert (n1 = s) as -> by (destruct (Hs n1 (or_introl eq_refl)) as [H | []]; now symmetry).
      split; [| apply Hincl; now left].
      destruct rest as [|n2 rest]; [reflexivity |].
      assert (n2 = s) as -> by (destruct (Hs n2 (or_intror (or_introl eq_refl))) as [H | []];
                                now symmetry).
      inversion Hnodup as [|x l Hnotin _]. contradiction Hnotin. now left.
  - destruct (matched_sections_spec content (lower query) None exact_match)
      as [_ [[Hfull _] | [Hnodup [Hincl _]]]]; [now left | right; now split].
Qed.

(** X10: the search is complete for the cached documents the table
    accounts for. If a cache file holds a document, its name is the hash of
    a row's link, and a section that is searched matches the query, then the
    row's title is among the results. *)
Theorem search_finds_every_matching_document (cache_dir : Dict.t File) (query : string)
    (section : option string) (exact_match : bool)
    (file : string) (content : Content) (row : Row) (name text : string) :
  In (file, ContentFile content) cache_dir ->
  is_cache_file file = true ->
  Dict.get (before_first "." file) (initial_url_hash_map str_hash publications_df) = Some row ->
  In name named_sections ->
  section = None \/ section = Some name ->
  section_text content name = Some text ->
  matches (lower text) (lower query) exact_match = true ->
  In (Title row) (map sr_title (search cache_dir query section exact_match)).
Proof.
  intros Hfile Hcache Hrow Hname Hsection Htext Hmatch.
  unfold search_publications_full_text.
  destruct (search_files_spec word_tokenize stem publications_df (lower query) section
              exact_match (filter (fun f => is_cache_file (fst f)) cache_dir) []
              (initial_url_hash_map str_hash publications_df)
              (initial_url_hash_map_from_table publications_df str_hash))
    as [_ [_ [_ Hcomplete]]]; [constructor |].
  apply (Hcomplete row file content); [| exact Hrow |].
  - apply filter_In. now split.
  - assert (Hsel : section_selected section name = true).
    { destruct Hsection as [-> | ->]; [reflexivity | apply String.eqb_refl]. }
    unfold matched_sections.
    assert (Hin : exists x,
               In x ((if section_selected section "abstract"
                         && matches (lower (abstract content)) (lower query) exact_match
                      then [(lower (abstract content), "abstract")] else [])
                     ++ (if section_selected section "results"
                            && matches (lower (results content)) (lower query) exact_match
                         then [(lower (results content), "results")] else [])
                     ++ (if section_selected section "conclusion"
                            && matches (lower (conclusion content)) (lower query) exact_match
                         then [(lower (conclusion content), "conclusion")] else []))).
    { destruct Hname as [<- | [<- | [<- | []]]]; injection Htext as <-;
        rewrite Hsel, Hmatch; cbn [andb]; eexists.
      - apply in_or_app. left. now left.
      - apply in_or_app. right. apply in_or_app. left. now left.
      - apply in_or_app. right. apply in_or_app. right. now left. }
    destruct Hin as [x Hx].
    match goal with Hx : In x ?l |- _ => destruct l as [|first others] end;
      [now contradiction Hx |].
    destruct section; discriminate.
Qed.

End SearchEngine.

Lemma search_finds_every_matching_document_witness :
  In "Locomotion in orbit"
     (map sr_title
        (search_publications_full_text punkt_missing porter_sample (fun _ => "7041") [sample_row]
           [("7041.json", ContentFile sample_document)] "Running" None false)).
Proof.
  apply (search_finds_every_matching_document punkt_missing porter_sample (fun _ => "7041")
           [sample_row] [("7041.json", ContentFile sample_document)] "Running" None false
           "7041.json" sample_document sample_row "abstract" "they run daily").
  - now left.
  - reflexivity.
  - reflexivity.
  - now left.
  - now left.
  - reflexivity.
  - reflexivity.
Defined.

(** * Further properties of the keyword and theme extraction *)

Section MostCommon.

Lemma sorted_app_inv {A : Type} (R : A -> A -> Prop) (l1 l2 : list A) :
  StronglySorted R (l1 ++ l2) -> forall x y, In x l1 -> In y l2 -> R x y.
Proof.
  induction l1 as [|a l1 IH]; intros H x y Hx Hy; [now contradiction Hx |].
  simpl in H. inversion H as [|a' l' Hs Hall]; subst.
  destruct Hx as [<- | Hx].
  - rewrite Forall_forall in Hall. apply Hall, in_or_app. now right.
  - now apply IH.
Qed.

(** [c.most_common(n)]: at most [n] entries of [c], in descending order of
    count, and no entry left out has a larger count than one taken. *)
Lemma most_common_spec (n : nat) (c : Dict.t nat) :
  List.length (Py.most_common n c) <= n
  /\ StronglySorted (fun a b => snd b <= snd a) (Py.most_common n c)
  /\ forall x y, In x (Py.most_common n c) -> In y c -> ~ In y (Py.most_common n c) ->
       snd y <= snd x.
Proof.
  unfold Py.most_common. pose proof (sorted_desc_sorted snd c) as Hsorted.
  split; [rewrite length_firstn; lia |]. split; [now apply firstn_sorted |].
  intros x y Hx Hy Hout. apply (in_sorted_desc snd) in Hy.
  rewrite <- (firstn_skipn n (Py.sorted_desc snd c)) in Hy, Hsorted.
  apply in_app_or in Hy. destruct Hy as [Hy | Hy]; [now contradiction Hout |].
  exact (sorted_app_inv _ _ _ Hsorted x y Hx Hy).
Qed.

Lemma in_Counter_iff (words : list string) (w : string) :
  In w words <-> In (w, count_occ string_dec words w) (Py.Counter words).
Proof.
  split.
  - intros H. apply get_in.
    pose proof (count_of_fold words [] w) as Hc. unfold count_of in Hc at 1.
    fold (Py.Counter words) in Hc.
    apply (count_occ_In string_dec) in H.
    destruct (Dict.get w (Py.Counter words)) as [n|]; [| simpl in Hc; lia].
    simpl in Hc. now rewrite Hc.
  - intros H. apply (in_map fst) in H. cbn [fst] in H.
    apply in_keys_fold_count in H. destruct H as [[] | H]. exact H.
Qed.

End MostCommon.

Section KeywordContract.
Import PyStr.

Variable stop_words : list string.
Variable word_tokenize : string -> option (list string).

Local Abbreviation keywords_of := (extract_keywords stop_words word_tokenize).
Local Abbreviation tokens_of := (keyword_tokens stop_words word_tokenize).

(** X11: what [extract_keywords(text, n)] returns: at most [n] pairs
    with distinct keywords, in descending order of count; every keyword is
    alphabetic and no stop word, and its count is the number of times it
    occurs among the filtered tokens of the text, at least 1; and no token
    that was left out occurs more often than a keyword that was taken. *)
Theorem extract_keywords_contract (text : string) (n : nat) :
  List.length (keywords_of text n) <= n
  /\ NoDup (map fst (keywords_of text n))
  /\ StronglySorted (fun a b => snd b <= snd a) (keywords_of text n)
  /\ Forall (fun kc =>
               isalpha (fst kc) = true /\ mem (fst kc) stop_words = false
               /\ snd kc = count_occ string_dec (tokens_of text) (fst kc)
               /\ 1 <= snd kc)
            (keywords_of text n)
  /\ forall word kc,
       In word (tokens_of text) -> ~ In word (map fst (keywords_of text n)) ->
       In kc (keywords_of text n) ->
       count_occ string_dec (tokens_of text) word <= snd kc.
Proof.
  unfold extract_keywords. destruct text as [|c text].
  - split; [simpl; lia |]. split; [constructor |]. split; [constructor |].
    split; [constructor |]. intros word kc _ _ [].
  - set (tokens := tokens_of (String c text)).
    destruct (most_common_spec n (Py.Counter tokens)) as [Hlen [Hsorted Htop]].
    split; [exact Hlen |].
    split; [apply nodup_keys_most_common, nodup_keys_Counter |].
    split; [exact Hsorted |]. split.
    + apply Forall_forall. intros [k count] Hin. cbn [fst snd].
      apply in_most_common in Hin. pose proof (in_Counter _ _ _ Hin) as ->.
      assert (Hk : In k tokens) by (apply in_Counter_iff; exact Hin).
      pose proof Hk as Hfilter. unfold tokens, keyword_tokens in Hfilter.
      apply filter_In in Hfilter. destruct Hfilter as [_ Hfilter].
      apply andb_true_iff in Hfilter. destruct Hfilter as [Halpha Hstop].
      unfold not_stop_word in Hstop. apply negb_true_iff in Hstop.
      split; [exact Halpha |]. split; [exact Hstop |]. split; [reflexivity |].
      apply (count_occ_In string_dec) in Hk. lia.
    + intros word kc Hword Hout Hkc.
      apply in_Counter_iff in Hword.
      apply (Htop kc (word, count_occ string_dec tokens word) Hkc Hword).
      intros Hin. apply Hout. apply (in_map fst) in Hin. exact Hin.
Qed.

End KeywordContract.

Section ThemeCount.

Variable self : ClassBody.
Variable publications_df : list Row.
Variable stop_words : list string.
Variable word_tokenize : string -> option (list string).
Variable str_hash : string -> string.
Variable fetch_from_web : nat -> string -> outcome Content.
Variable df_sample : nat -> list Row -> nat -> list Row.
Variable tfidf_first_row : list string -> outcome (list (string * Q)).

Local Abbreviation themes_from_text :=
  (text_themes self publications_df stop_words str_hash fetch_from_web df_sample
     tfidf_first_row).
Local Abbreviation themes_of_publication :=
  (identify_publication_themes self publications_df stop_words word_tokenize str_hash
     fetch_from_web df_sample tfidf_first_row).

(** X12: asked for at least one theme, the function returns a list of
    at most [num_themes] themes; it does not raise, whatever the tokenizer,
    the fetcher, the sampler and the TF-IDF step do. *)
Theorem themes_are_returned_and_bounded (title : string) (content : Content)
    (num_themes : nat) (w : World) :
  0 < num_themes ->
  exists themes w',
    themes_of_publication title content num_themes w = (Ret themes, w')
    /\ List.length themes <= num_themes.
Proof.
  intros Hsome.
  destruct (text_themes_returns self publications_df stop_words str_hash fetch_from_web
              df_sample tfidf_first_row num_themes title
              (theme_tokens stop_words word_tokenize content) w) as [themes [w1 Hthemes]].
  eexists. exists w1. split.
  - exact (themes_after_text self publications_df stop_words word_tokenize str_hash
             fetch_from_web df_sample tfidf_first_row num_themes Hsome title content w w1
             themes Hthemes).
  - rewrite length_firstn. lia.
Qed.

Lemma text_themes_of_zero (title : string) (filtered_words : list string) (w : World) :
  exists w', themes_from_text title filtered_words 0 w = (Ret [], w').
Proof.
  unfold text_themes. destruct (10 <? List.length filtered_words).
  - unfold try_except.
    match goal with |- context [match ?body w with _ => _ end] =>
      destruct (body w) as [[themes|e] w1] eqn:E end.
    + exists w1. f_equal. f_equal. revert E. unfold bindM.
      match goal with |- context [match ?m w with _ => _ end] =>
        destruct (m w) as [[documents|e] w2] end; [| discriminate].
      destruct (1 <? List.length documents).
      * unfold lift, tfidf_themes. destruct (tfidf_first_row documents); simpl; [| discriminate].
        now intros [= <- _].
      * unfold ret. now intros [= <- _].
    + exists w1. reflexivity.
  - exists w. unfold ret. rewrite Nat.min_0_r. reflexivity.
Qed.

(** X13: asked for no theme at all, the function raises
    [UnboundLocalError]: the list of themes is empty and the test that
    follows reads [title_words], which was never assigned. *)
Theorem zero_themes_raise_unbound_local (title : string) (content : Content) (w : World) :
  fst (themes_of_publication title content 0 w) = Raise (UnboundLocalError "title_words").
Proof.
  unfold identify_publication_themes, bindM.
  destruct (text_themes_of_zero title (theme_tokens stop_words word_tokenize content) w)
    as [w1 ->].
  reflexivity.
Qed.

End ThemeCount.

Lemma themes_are_returned_and_bounded_witness :
  exists themes w',
    identify_publication_themes PublicationProcessor bone_corpus basic_stop_words punkt_missing
      sample_hash network_down first_rows no_scores "Bone loss in mice"
      (mkContent "Bone density decreases" "" "Bone loss" "" "web" "success" None) 5 bone_world
    = (Ret themes, w')
    /\ List.length themes <= 5.
Proof.
  apply (themes_are_returned_and_bounded PublicationProcessor bone_corpus basic_stop_words
           punkt_missing sample_hash network_down first_rows no_scores "Bone loss in mice"
           (mkContent "Bone density decreases" "" "Bone loss" "" "web" "success" None)
           5 bone_world).
  lia.
Defined.

(** * Further properties of the content fetcher *)

(** A page that is served: every request succeeds with this document. *)
Definition served_page : Content :=
  mkContent "Bone density decreases" "" "Bone loss" "Bone density decreases. Bone loss."
            "web" "success" None.

Definition network_up : nat -> string -> outcome Content := fun _ _ => Ret served_page.

Section StringTails.
Import PyStr.

Lemma slash_in_tail (s : string) :
  existsb (Ascii.eqb "/") (list_ascii_of_string (s ++ "/")) = true.
Proof. induction s as [|c s IH]; simpl; [reflexivity | rewrite IH; apply orb_true_r]. Qed.

(** [(s + '/').split('/')[-1] == ''] *)
Lemma after_last_slash (s : string) : after_last "/" (s ++ "/") = "".
Proof.
  induction s as [|c s IH]; [reflexivity |].
  cbn [append after_last]. now rewrite slash_in_tail.
Qed.

End StringTails.

Section WebUrl.
Import PyStr.

Lemma web_url_cases (url : string) :
  web_url url = url
  \/ exists pmc_id, web_url url = (("https://pmc.ncbi.nlm.nih.gov/articles/" ++ pmc_id) ++ "/")%string.
Proof.
  unfold web_url. destruct (contains _ url); [| now left].
  destruct (String.eqb (after_last "/" url) ""); [now left |].
  right. exists (after_last "/" url). now rewrite app_assoc_string.
Qed.

(** X14: the address rewriting leaves every address that ends in a
    slash as it is (its last path segment is empty), the form
    [https://www.ncbi.nlm.nih.gov/pmc/articles/PMC.../] included; and
    rewriting twice is the same as rewriting once. *)
Theorem web_url_keeps_trailing_slash (url : string) :
  web_url (url ++ "/") = (url ++ "/")%string
  /\ web_url (web_url url) = web_url url.
Proof.
  assert (Hslash : forall s, web_url (s ++ "/") = (s ++ "/")%string).
  { intros s. unfold web_url. rewrite after_last_slash.
    now destruct (contains _ (s ++ "/")). }
  split; [apply Hslash |].
  destruct (web_url_cases url) as [H | [pmc_id H]]; rewrite H; [exact H | apply Hslash].
Qed.

End WebUrl.

Section FetchAndCache.

Variable self : ClassBody.
Variable str_hash : string -> string.
Variable fetch_from_web : nat -> string -> outcome Content.

Local Abbreviation fetch := (fetch_publication_content self str_hash fetch_from_web).

(** X15: once an address has been fetched from the web with the cache
    on, fetching it again returns the same document from the cache: the
    first call makes one request, the second makes none and leaves the
    world as it is. *)
Theorem fetched_document_is_served_from_cache (url : string) (w : World) (data : Content) :
  Dict.get (str_hash url ++ ".json") (cache_dir w) = None ->
  fetch_from_web (requests w) (web_url url) = Ret data ->
  let w1 := snd (fetch url true w) in
  fst (fetch url true w) = Ret data
  /\ requests w1 = S (requests w)
  /\ fetch url true w1 = (Ret data, w1).
Proof.
  intros Hmiss Hweb. cbv zeta.
  assert (Hfirst : fetch url true w
                   = (Ret data,
                      mkWorld (Dict.set (str_hash url ++ ".json") (ContentFile data) (cache_dir w))
                              (S (requests w)) (draws w))).
  { unfold fetch_publication_content. rewrite Hmiss.
    unfold try_except, bindM, request. rewrite Hweb. reflexivity. }
  rewrite Hfirst. cbn [fst snd requests]. split; [reflexivity |]. split; [reflexivity |].
  unfold fetch_publication_content. cbn [cache_dir]. now rewrite get_set_same.
Qed.


End FetchAndCache.

(** The world after the first fetch of the sample address. *)
Definition after_first_fetch : World :=
  snd (fetch_publication_content PublicationProcessor sample_hash network_up
         "https://example.org/pmc/1" true empty_world).

Lemma fetched_document_is_served_from_cache_witness :
  fst (fetch_publication_content PublicationProcessor sample_hash network_up
         "https://example.org/pmc/1" true empty_world) = Ret served_page
  /\ requests after_first_fetch = S (requests empty_world)
  /\ fetch_publication_content PublicationProcessor sample_hash network_up
       "https://example.org/pmc/1" true after_first_fetch = (Ret served_page, after_first_fetch).
Proof.
  apply (fetched_document_is_served_from_cache PublicationProcessor sample_hash network_up
           "https://example.org/pmc/1" empty_world served_page); reflexivity.
Defined.

(** * Further properties of the graph builder *)

(** ** What a built graph holds *)

(** Every node is typed 'publication' or 'keyword', and a node typed
    'publication' carries the link of a row of the table with its title and
    a list of at most 5 themes. *)
Definition nodes_described (publications_df : list Row) (G : Graph) : Prop :=
  forall n a, Nx.node_attr G n = Some a ->
    (n_type a = Some "publication" \/ n_type a = Some "keyword")
    /\ (n_type a = Some "publication" ->
        exists row themes,
          In row publications_df /\ Title row = n /\ n_url a = Some (Link row)
          /\ n_themes a = Some themes /\ List.length themes <= 5).

(** Every edge carries a count of at least 1 and the name of the section
    that wrote it. *)
Definition edges_described (G : Graph) : Prop :=
  forall u v e, Nx.edge_attr G u v = Some e ->
    exists count section,
      e = section_edge count section /\ 1 <= count
      /\ (section = "abstract" \/ section = "conclusion").

(** The document of a row, with the themes the builder asks for. *)
Definition row_document (row : Row) (d : Doc) : Prop :=
  doc_title d = Title row /\ doc_url d = Link row /\ List.length (doc_themes d) <= 5.

Section DescribedGraph.

Variable publications_df : list Row.
Variable stop_words : list string.
Variable word_tokenize : string -> option (list string).

Local Abbreviation docs_graph := (graph_of_docs stop_words word_tokenize).

Lemma extract_keywords_positive (text : string) (n : nat) (keyword : string) (count : nat) :
  In (keyword, count) (extract_keywords stop_words word_tokenize text n) -> 1 <= count.
Proof.
  intros H. pose proof (extract_keywords_count _ _ _ _ _ _ H) as ->.
  unfold extract_keywords in H. destruct text; [now contradiction H |].
  apply in_most_common in H. apply (in_map fst) in H. cbn [fst] in H.
  apply in_keys_fold_count in H. destruct H as [[] | H].
  apply (count_occ_In string_dec) in H. lia.
Qed.

Lemma nodes_described_add_keywords (title section : string) (keywords : list (string * nat))
    (G : Graph) :
  Nx.node_attr G title <> None -> nodes_described publications_df G ->
  nodes_described publications_df (add_keywords title section keywords G).
Proof.
  revert G. induction keywords as [|[k c] rest IH]; intros G Hnode HG; [exact HG |].
  rewrite add_keywords_cons. destruct (3 <? String.length k); [| now apply IH].
  apply IH; [now apply node_stays_add_keyword |].
  intros m a Hm. rewrite node_attr_add_keyword in Hm by exact Hnode.
  destruct (String.eqb k m); [| now apply (HG m)].
  injection Hm as <-. cbn [Nx.update_node keyword_node n_type Nx.or_else].
  split; [now right | discriminate].
Qed.

Lemma edges_described_add_keywords (title section : string) (keywords : list (string * nat))
    (G : Graph) :
  adj_in_nodes G ->
  (forall k c, In (k, c) keywords -> 1 <= c) ->
  section = "abstract" \/ section = "conclusion" ->
  edges_described G -> edges_described (add_keywords title section keywords G).
Proof.
  intros Hadj Hpos Hsection. revert G Hadj.
  induction keywords as [|[k c] rest IH]; intros G Hadj HG; [exact HG |].
  rewrite add_keywords_cons.
  assert (Hrest : forall k' c', In (k', c') rest -> 1 <= c')
    by (intros k' c' H; apply (Hpos k' c'); now right).
  destruct (3 <? String.length k); [| now apply IH].
  apply IH; [exact Hrest | now apply adj_in_nodes_add_keyword |].
  intros u v e He. rewrite edge_attr_add_keyword in He by exact Hadj.
  destruct (same_pair title k u v); [| now apply (HG u v)].
  injection He as <-. exists c, section. split; [reflexivity |].
  split; [apply (Hpos k c); now left | exact Hsection].
Qed.

Lemma node_stays_add_keywords (title section : string) (keywords : list (string * nat))
    (G : Graph) (m : string) :
  Nx.node_attr G m <> None -> Nx.node_attr (add_keywords title section keywords G) m <> None.
Proof.
  revert G. induction keywords as [|[k c] rest IH]; intros G Hm; [exact Hm |].
  rewrite add_keywords_cons. apply IH.
  destruct (3 <? String.length k); [now apply node_stays_add_keyword | exact Hm].
Qed.

Lemma node_stays_add_doc (G : Graph) (d : Doc) (m : string) :
  Nx.node_attr G m <> None \/ m = doc_title d ->
  Nx.node_attr (add_doc stop_words word_tokenize G d) m <> None.
Proof.
  intros H. rewrite add_doc_unfold. do 2 apply node_stays_add_keywords.
  rewrite node_attr_add_node. destruct (String.eqb (doc_title d) m) eqn:E; [discriminate |].
  destruct H as [H | ->]; [exact H |]. now rewrite String.eqb_refl in E.
Qed.

Lemma described_add_doc (G : Graph) (d : Doc) (row : Row) :
  In row publications_df -> row_document row d ->
  well_formed G -> nodes_described publications_df G -> edges_described G ->
  nodes_described publications_df (add_doc stop_words word_tokenize G d)
  /\ edges_described (add_doc stop_words word_tokenize G d).
Proof.
  intros Hrow [Htitle [Hurl Hthemes]] Hwf Hnodes Hedges. rewrite add_doc_unfold.
  set (G0 := Nx.add_node (doc_title d) (publication_node d) G).
  assert (Hwf0 : well_formed G0) by now apply well_formed_add_node.
  assert (Hnode0 : Nx.node_attr G0 (doc_title d) <> None).
  { unfold G0. rewrite node_attr_add_node, String.eqb_refl. discriminate. }
  assert (Hnodes0 : nodes_described publications_df G0).
  { intros m a Hm. unfold G0 in Hm. rewrite node_attr_add_node in Hm.
    destruct (String.eqb (doc_title d) m) eqn:E; [| now apply (Hnodes m)].
    apply String.eqb_eq in E. subst m. injection Hm as <-.
    unfold publication_node. cbn [Nx.update_node n_type n_url n_themes Nx.or_else].
    split; [now left |]. intros _. exists row, (doc_themes d).
    rewrite Hurl, Htitle. now repeat split. }
  assert (Hedges0 : edges_described G0).
  { intros u v e He. unfold G0 in He.
    rewrite edge_attr_add_node in He by apply (wf_adj_in_nodes G Hwf). now apply (Hedges u v). }
  set (G1 := add_keywords (doc_title d) "abstract"
               (abstract_keywords stop_words word_tokenize d) G0).
  assert (Hwf1 : well_formed G1) by now apply well_formed_add_keywords.
  assert (Hnode1 : Nx.node_attr G1 (doc_title d) <> None)
    by now apply node_stays_add_keywords.
  split.
  - apply nodes_described_add_keywords; [exact Hnode1 |].
    now apply nodes_described_add_keywords.
  - apply edges_described_add_keywords; [apply (wf_adj_in_nodes G1 Hwf1) | | now right |].
    + intros k c. apply extract_keywords_positive.
    + apply edges_described_add_keywords;
        [apply (wf_adj_in_nodes G0 Hwf0) | | now left | exact Hedges0].
      intros k c. apply extract_keywords_positive.
Qed.

Lemma described_graph_of_docs (rows : list Row) (docs : list Doc) (G : Graph) :
  incl rows publications_df -> Forall2 row_document rows docs ->
  well_formed G -> nodes_described publications_df G -> edges_described G ->
  let G' := docs_graph docs G in
  well_formed G' /\ nodes_described publications_df G' /\ edges_described G'
  /\ (forall n, Nx.node_attr G n <> None -> Nx.node_attr G' n <> None)
  /\ (forall row, In row rows -> Nx.node_attr G' (Title row) <> None).
Proof.
  intros Hincl Hdocs. revert G. induction Hdocs as [|row d rows docs Hd Hdocs IH];
    intros G Hwf Hnodes Hedges; cbv zeta.
  - cbn [graph_of_docs fold_left]. split; [exact Hwf |]. split; [exact Hnodes |].
    split; [exact Hedges |]. split; [tauto | intros row []].
  - cbn [graph_of_docs fold_left].
    assert (Hrow : In row publications_df) by (apply Hincl; now left).
    destruct (described_add_doc G d row Hrow Hd Hwf Hnodes Hedges) as [Hnodes1 Hedges1].
    destruct (IH (fun r Hr => Hincl r (or_intror Hr)) _
                 (well_formed_add_doc stop_words word_tokenize G d Hwf) Hnodes1 Hedges1)
      as [H1 [H2 [H3 [H4 H5]]]].
    split; [exact H1 |]. split; [exact H2 |]. split; [exact H3 |]. split.
    + intros n Hn. apply H4. apply node_stays_add_doc. now left.
    + intros r [<- | Hr]; [| now apply H5].
      apply H4. apply node_stays_add_doc. right. now destruct Hd as [-> _].
Qed.

End DescribedGraph.

Section BuildRun.

Variable self : ClassBody.
Variable publications_df : list Row.
Variable stop_words : list string.
Variable word_tokenize : string -> option (list string).
Variable str_hash : string -> string.
Variable fetch_from_web : nat -> string -> outcome Content.
Variable df_sample : nat -> list Row -> nat -> list Row.
Variable tfidf_first_row : list string -> outcome (list (string * Q)).

Local Abbreviation themes_of_publication :=
  (identify_publication_themes self publications_df stop_words word_tokenize str_hash
     fetch_from_web df_sample tfidf_first_row).
Local Abbreviation row_step :=
  (process_row self publications_df stop_words word_tokenize str_hash fetch_from_web
     df_sample tfidf_first_row).
Local Abbreviation build :=
  (build_knowledge_graph self publications_df stop_words word_tokenize str_hash
     fetch_from_web df_sample tfidf_first_row).

Lemma identify_publication_themes_length (title : string) (content : Content)
    (num_themes : nat) (w w' : World) (themes : list string) :
  themes_of_publication title content num_themes w = (Ret themes, w') ->
  List.length themes <= num_themes.
Proof.
  unfold identify_publication_themes, bindM.
  destruct (text_themes _ _ _ _ _ _ _ _ _ _ w) as [[text_themes|e] w1]; [| discriminate].
  match goal with |- context [match ?m w1 with _ => _ end] =>
    destruct (m w1) as [[final|e] w2] end; [| discriminate].
  unfold ret. intros [= <- _]. rewrite length_firstn. lia.
Qed.

Lemma process_rows_documents (rows : list Row) (G G' : Graph) (w w' : World) :
  foldM row_step rows G w = (Ret G', w') ->
  exists docs,
    Forall2 row_document rows docs /\ G' = graph_of_docs stop_words word_tokenize docs G.
Proof.
  revert G w. induction rows as [|row rows IH]; intros G w H.
  - injection H as <- _. exists []. split; [constructor | reflexivity].
  - cbn [foldM] in H. unfold bindM at 1 in H.
    destruct (row_step G row w) as [[G1|e] w1] eqn:E; [| discriminate].
    unfold process_row, bindM, ret in E.
    destruct (fetch_publication_content self str_hash fetch_from_web (Link row) true w)
      as [[content|e] w2]; [| discriminate].
    destruct (themes_of_publication (Title row) content 5 w2) as [[themes|e] w3] eqn:Ethemes;
      [| discriminate].
    injection E as <- _.
    destruct (IH _ _ H) as [docs [Hdocs ->]].
    exists (mkDoc (Title row) (Link row) themes content :: docs).
    split; [| reflexivity].
    constructor; [| exact Hdocs].
    repeat split. cbn [doc_themes]. eapply identify_publication_themes_length. exact Ethemes.
Qed.

Lemma head_incl (num_publications : option nat) :
  incl (head publications_df num_publications) publications_df.
Proof.
  unfold head. destruct num_publications; [| apply incl_refl].
  intros r Hr. now apply in_firstn in Hr.
Qed.

(** A run that rebuilds the graph from the empty one. *)
Lemma build_described (num_publications : option nat) (G : Graph) (w w' : World) :
  build Nx.empty num_publications false w = (Ret G, w') ->
  well_formed G /\ nodes_described publications_df G /\ edges_described G
  /\ (forall row, In row (head publications_df num_publications) ->
        Nx.node_attr G (Title row) <> None).
Proof.
  unfold build_knowledge_graph. unfold bindM at 1. cbn [ret]. unfold bindM at 1.
  destruct (foldM row_step (head publications_df num_publications) Nx.empty w)
    as [[G1|e] w1] eqn:E; [| discriminate].
  unfold bindM, write_file, ret. intros [= <- _].
  apply process_rows_documents in E. destruct E as [docs [Hdocs ->]].
  destruct (described_graph_of_docs publications_df stop_words word_tokenize
              (head publications_df num_publications) docs Nx.empty
              (head_incl num_publications) Hdocs well_formed_empty)
    as [H1 [H2 [H3 [_ H5]]]].
  - intros n a Hn. discriminate Hn.
  - intros u v e He. discriminate He.
  - split; [exact H1 |]. split; [exact H2 |]. split; [exact H3 | exact H5].
Qed.

(** X17: in a graph built from the empty one every title of the run is
    a node; every node is typed 'publication' or 'keyword'; and a node typed
    'publication' carries the link of a row of the table that has its title,
    and a list of at most 5 themes. *)
Theorem built_graph_describes_its_nodes (num_publications : option nat) (G : Graph)
    (w w' : World) :
  build Nx.empty num_publications false w = (Ret G, w') ->
  (forall row, In row (head publications_df num_publications) ->
     Nx.has_node G (Title row) = true)
  /\ forall n a, Nx.node_attr G n = Some a ->
       (n_type a = Some "publication" \/ n_type a = Some "keyword")
       /\ (n_type a = Some "publication" ->
           exists row themes,
             In row publications_df /\ Title row = n /\ n_url a = Some (Link row)
             /\ n_themes a = Some themes /\ List.length themes <= 5).
Proof.
  intros H. apply build_described in H. destruct H as [_ [Hnodes [_ Htitles]]].
  split; [| exact Hnodes].
  intros row Hrow. apply Htitles in Hrow.
  unfold Nx.has_node, Dict.has. unfold Nx.node_attr in Hrow.
  now destruct (Dict.get (Title row) (_node G)).
Qed.

(** X18: in a graph built from the empty one every edge joins two
    nodes of the graph, carries a weight of at least 1 and the section
    'abstract' or 'conclusion', and reads the same from either end. *)
Theorem built_graph_describes_its_edges (num_publications : option nat) (G : Graph)
    (w w' : World) :
  build Nx.empty num_publications false w = (Ret G, w') ->
  Forall (fun edge =>
            let '(u, v, e) := edge in
            Nx.has_node G u = true /\ Nx.has_node G v = true
            /\ Nx.edge_attr G v u = Some e
            /\ exists count section,
                 e = mkEdgeAttrs (Some count) (Some section) /\ 1 <= count
                 /\ (section = "abstract" \/ section = "conclusion"))
         (Nx.edges G).
Proof.
  intros H. apply build_described in H. destruct H as [Hwf [_ [Hedges _]]].
  apply Forall_forall. intros [[u v] e] Hin.
  apply (in_edges_edge_attr G u v e Hwf) in Hin.
  assert (Hback : Nx.edge_attr G v u = Some e) by now rewrite <- (wf_symmetric G Hwf).
  assert (Hnode : forall x y, Nx.edge_attr G x y = Some e -> Nx.has_node G x = true).
  { intros x y Hxy. apply (wf_endpoints G Hwf) in Hxy.
    unfold Nx.has_node, Dict.has. unfold Nx.node_attr in Hxy.
    now destruct (Dict.get x (_node G)). }
  split; [now apply (Hnode u v) |]. split; [now apply (Hnode v u) |].
  split; [exact Hback |]. now apply (Hedges u v).
Qed.

End BuildRun.

Section BuildAborts.

Variable publications_df : list Row.
Variable stop_words : list string.
Variable word_tokenize : string -> option (list string).
Variable str_hash : string -> string.
Variable fetch_from_web : nat -> string -> outcome Content.
Variable df_sample : nat -> list Row -> nat -> list Row.
Variable tfidf_first_row : list string -> outcome (list (string * Q)).

Local Abbreviation build :=
  (build_knowledge_graph PublicationProcessor publications_df stop_words word_tokenize
     str_hash fetch_from_web df_sample tfidf_first_row).

(** X19: when no graph is persisted, the document of the first row is
    not cached and the request for it fails, the builder raises the
    [AttributeError] of the fetcher's handler and writes nothing: no
    document and no graph reaches the cache directory. *)
Theorem build_aborts_on_failed_fetch (G : Graph) (num_publications : option nat)
    (use_cache : bool) (w : World) (row : Row) (rest : list Row) (e : exn) :
  head publications_df num_publications = row :: rest ->
  Dict.get "knowledge_graph.json" (cache_dir w) = None ->
  Dict.get (str_hash (Link row) ++ ".json") (cache_dir w) = None ->
  fetch_from_web (requests w) (web_url (Link row)) = Raise e ->
  fst (build G num_publications use_cache w) = Raise (AttributeError "get_title_from_url")
  /\ cache_dir (snd (build G num_publications use_cache w)) = cache_dir w.
Proof.
  intros Hhead Hgraph Hmiss Hweb.
  assert (Hload : (if use_cache then load_cached_graph else ret None) w = (Ret None, w)).
  { destruct use_cache; [| reflexivity]. unfold load_cached_graph. now rewrite Hgraph. }
  assert (Hrun : build G num_publications use_cache w
                 = (Raise (AttributeError "get_title_from_url"),
                    mkWorld (cache_dir w) (S (requests w)) (draws w))).
  { unfold build_knowledge_graph. unfold bindM at 1. rewrite Hload, Hhead.
    cbn [foldM]. unfold bindM at 1. unfold bindM at 1.
    unfold process_row. unfold bindM at 1.
    unfold fetch_publication_content. rewrite Hmiss.
    unfold try_except, bindM at 1, request. rewrite Hweb.
    reflexivity. }
  rewrite Hrun. split; reflexivity.
Qed.

End BuildAborts.

Lemma built_graph_describes_its_nodes_witness :
  (forall row, In row (head bone_corpus None) -> Nx.has_node bone_graph (Title row) = true)
  /\ forall n a, Nx.node_attr bone_graph n = Some a ->
       (n_type a = Some "publication" \/ n_type a = Some "keyword")
       /\ (n_type a = Some "publication" ->
           exists row themes,
             In row bone_corpus /\ Title row = n /\ n_url a = Some (Link row)
             /\ n_themes a = Some themes /\ List.length themes <= 5).
Proof.
  apply (built_graph_describes_its_nodes PublicationProcessor bone_corpus basic_stop_words
           punkt_missing sample_hash network_down first_rows no_scores None bone_graph
           bone_world (snd (sample_build bone_corpus bone_world))).
  vm_compute. reflexivity.
Defined.

Lemma built_graph_describes_its_edges_witness :
  Forall (fun edge =>
            let '(u, v, e) := edge in
            Nx.has_node bone_graph u = true /\ Nx.has_node bone_graph v = true
            /\ Nx.edge_attr bone_graph v u = Some e
            /\ exists count section,
                 e = mkEdgeAttrs (Some count) (Some section) /\ 1 <= count
                 /\ (section = "abstract" \/ section = "conclusion"))
         (Nx.edges bone_graph).
Proof.
  apply (built_graph_describes_its_edges PublicationProcessor bone_corpus basic_stop_words
           punkt_missing sample_hash network_down first_rows no_scores None bone_graph
           bone_world (snd (sample_build bone_corpus bone_world))).
  vm_compute. reflexivity.
Defined.

Lemma build_aborts_on_failed_fetch_witness :
  fst (build_knowledge_graph PublicationProcessor growth_corpus basic_stop_words punkt_missing
         sample_hash network_down first_rows no_scores Nx.empty None true empty_world)
  = Raise (AttributeError "get_title_from_url")
  /\ cache_dir (snd (build_knowledge_graph PublicationProcessor growth_corpus basic_stop_words
                       punkt_missing sample_hash network_down first_rows no_scores Nx.empty
                       None true empty_world))
     = cache_dir empty_world.
Proof.
  apply (build_aborts_on_failed_fetch growth_corpus basic_stop_words punkt_missing sample_hash
           network_down first_rows no_scores Nx.empty None true empty_world
           (mkRow "growth" "https://example.org/pmc/1") [] (FetchFailure "ConnectionError"));
    reflexivity.
Defined.

(** * Further properties of the similarity engine *)

(** The keywords two publications share: the neighbours of [title] typed
    'keyword' that have [pub] as a neighbour. *)
Definition shared_keywords (G : Graph) (title pub : string) : list string :=
  filter (fun keyword => is_keyword G keyword
                         && PyStr.mem pub (Dict.keys (Nx.adj_of G keyword)))
         (Dict.keys (Nx.adj_of G title)).

Section DictEntries.

Context {V : Type}.

Lemma in_set (k k' : string) (v v' : V) (d : Dict.t V) :
  In (k', v') (Dict.set k v d) -> (k' = k /\ v' = v) \/ In (k', v') d.
Proof.
  induction d as [|[k0 v0] d IH]; simpl.
  - intros [[= <- <-] | []]. now left.
  - destruct (String.eqb k0 k) eqn:E.
    + apply String.eqb_eq in E. subst k0. intros [[= <- <-] | H]; [now left | right; now right].
    + intros [H | H]; [right; now left |]. destruct (IH H) as [H' | H']; [now left | right; now right].
Qed.

End DictEntries.

Lemma count_occ_nodup (l : list string) (x : string) :
  NoDup l -> count_occ string_dec l x = if PyStr.mem x l then 1 else 0.
Proof.
  intros H. destruct (PyStr.mem x l) eqn:E.
  - apply mem_In in E. now apply (proj1 (NoDup_count_occ' string_dec l) H).
  - apply mem_false_not_In in E. now apply count_occ_not_In.
Qed.

Lemma filter_o_filter {A : Type} (f : A -> outcome bool) (g : A -> bool) (l kept : list A) :
  (forall x b, f x = Ret b -> b = g x) ->
  filter_o f l = Ret kept -> kept = filter g l.
Proof.
  intros Hfg. revert kept. induction l as [|x l IH]; intros kept; simpl.
  - now intros [= <-].
  - destruct (f x) as [b|e] eqn:E; [| discriminate]. simpl.
    destruct (filter_o f l) as [r|e]; [| discriminate]. simpl.
    intros [= <-]. rewrite <- (Hfg x b E), (IH r eq_refl). reflexivity.
Qed.

Section SharedKeywords.

Variable G : Graph.
Variable title : string.

Lemma has_type_publication (node : string) (b : bool) :
  has_type G "publication" node = Ret b -> b = is_publication G node.
Proof.
  unfold has_type, Nx.node_type, is_publication, Nx.get_type.
  destruct (Dict.get node (_node G)) as [a|]; [| discriminate].
  destruct (n_type a); [| discriminate]. simpl. now intros [= <-].
Qed.

Lemma has_type_keyword (node : string) (b : bool) :
  has_type G "keyword" node = Ret b -> b = is_keyword G node.
Proof.
  unfold has_type, Nx.node_type, is_keyword, Nx.get_type.
  destruct (Dict.get node (_node G)) as [a|]; [| discriminate].
  destruct (n_type a); [| discriminate]. simpl. now intros [= <-].
Qed.

Lemma neighbors_adj_of (n : string) (nbrs : list string) :
  Nx.neighbors G n = Ret nbrs -> nbrs = Dict.keys (Nx.adj_of G n).
Proof.
  unfold Nx.neighbors, Nx.adj_of. destruct (Dict.get n (_adj G)); [| discriminate].
  now intros [= <-].
Qed.

(** A publication other than [title]. *)
Definition counted (pub : string) : bool :=
  negb (String.eqb pub title) && is_publication G pub.

(** The table of counts has one entry per key, and no count is 0. *)
Definition tally_ok (similar_pubs : Dict.t nat) : Prop :=
  NoDup (Dict.keys similar_pubs) /\ forall k v, In (k, v) similar_pubs -> 1 <= v.

Lemma count_of_bump (node pub : string) (similar_pubs : Dict.t nat) :
  count_of (bump node similar_pubs) pub
  = if String.eqb node pub then count_of similar_pubs node + 1 else count_of similar_pubs pub.
Proof.
  unfold bump, count_of. rewrite get_set. now destruct (String.eqb node pub).
Qed.

Lemma tally_ok_bump (node : string) (similar_pubs : Dict.t nat) :
  tally_ok similar_pubs -> tally_ok (bump node similar_pubs).
Proof.
  intros [Hnodup Hpos]. split; [now apply nodup_keys_set |].
  intros k v Hin. apply in_set in Hin. destruct Hin as [[_ ->] | Hin]; [lia | now apply (Hpos k)].
Qed.

(** The inner loop, over the neighbours of one keyword. *)
Lemma tally_nodes (nbrs : list string) (similar_pubs similar_pubs' : Dict.t nat) :
  fold_o (fun similar_pubs node =>
            if String.eqb node title then Ret similar_pubs
            else
              is_pub <- has_type G "publication" node ;;
              Ret (if is_pub then bump node similar_pubs else similar_pubs))
         nbrs similar_pubs = Ret similar_pubs' ->
  (tally_ok similar_pubs -> tally_ok similar_pubs')
  /\ forall pub,
       count_of similar_pubs' pub
       = count_of similar_pubs pub
         + (if counted pub then count_occ string_dec nbrs pub else 0).
Proof.
  revert similar_pubs. induction nbrs as [|node nbrs IH]; intros similar_pubs; simpl.
  - intros [= <-]. split; [tauto |]. intros pub. destruct (counted pub); lia.
  - destruct (String.eqb node title) eqn:Etitle; simpl.
    + intros H. destruct (IH _ H) as [Hok Hcount]. split; [exact Hok |].
      intros pub. rewrite Hcount. apply String.eqb_eq in Etitle. subst node.
      unfold counted. destruct (string_dec title pub) as [<- | Hne];
        [rewrite String.eqb_refl; reflexivity | reflexivity].
    + destruct (has_type G "publication" node) as [is_pub|e] eqn:Etype; [| discriminate].
      simpl. apply has_type_publication in Etype. subst is_pub.
      intros H. destruct (IH _ H) as [Hok Hcount].
      destruct (is_publication G node) eqn:Epub.
      * split; [intros Hsp; apply Hok; now apply tally_ok_bump |].
        intros pub. rewrite Hcount, count_of_bump.
        destruct (string_dec node pub) as [<- | Hne].
        -- rewrite String.eqb_refl. unfold counted. rewrite Etitle, Epub. simpl. lia.
        -- apply String.eqb_neq in Hne. rewrite Hne. reflexivity.
      * split; [exact Hok |].
        intros pub. rewrite Hcount.
        destruct (string_dec node pub) as [<- | Hne]; [| reflexivity].
        unfold counted. rewrite Epub, andb_false_r. reflexivity.
Qed.

Hypothesis wf : well_formed G.

(** The outer loop, over the keywords of [title]. *)
Lemma tally_keywords (keywords : list string) (similar_pubs similar_pubs' : Dict.t nat) :
  fold_o (tally_shared G title) keywords similar_pubs = Ret similar_pubs' ->
  (tally_ok similar_pubs -> tally_ok similar_pubs')
  /\ forall pub,
       count_of similar_pubs' pub
       = count_of similar_pubs pub
         + (if counted pub
            then List.length
                   (filter (fun keyword => PyStr.mem pub (Dict.keys (Nx.adj_of G keyword)))
                           keywords)
            else 0).
Proof.
  revert similar_pubs. induction keywords as [|keyword keywords IH]; intros similar_pubs; simpl.
  - intros [= <-]. split; [tauto |]. intros pub. destruct (counted pub); lia.
  - destruct (tally_shared G title similar_pubs keyword) as [sp1|e] eqn:E; [| discriminate].
    simpl. intros H. destruct (IH _ H) as [Hok Hcount].
    unfold tally_shared in E.
    destruct (Nx.neighbors G keyword) as [nbrs|e] eqn:En; [| discriminate]. simpl in E.
    apply neighbors_adj_of in En. subst nbrs.
    apply tally_nodes in E. destruct E as [Hok1 Hcount1].
    split; [intros Hsp; now apply Hok, Hok1 |].
    intros pub. rewrite Hcount, Hcount1.
    rewrite (count_occ_nodup _ _ (wf_nodup_nbrs G wf keyword)).
    destruct (counted pub); [| lia].
    destruct (PyStr.mem pub (Dict.keys (Nx.adj_of G keyword))); simpl; lia.
Qed.

(** On a well-formed graph: what the function returns. *)
Lemma similar_publications_spec (n : Z) (similar : list (string * nat)) :
  get_similar_publications G title n = Ret similar ->
  NoDup (map fst similar)
  /\ ((0 <= n)%Z -> List.length similar <= Z.to_nat n)
  /\ forall pub count, In (pub, count) similar ->
       is_publication G pub = true
       /\ 1 <= count
       /\ count = List.length (shared_keywords G title pub).
Proof.
  unfold get_similar_publications.
  destruct (negb (Nx.has_node G title)).
  { intros [= <-]. split; [constructor |]. split; [simpl; lia | intros pub count []]. }
  destruct (Nx.neighbors G title) as [nbrs|e] eqn:En; [| discriminate]. simpl.
  apply neighbors_adj_of in En. subst nbrs.
  destruct (filter_o (has_type G "keyword") (Dict.keys (Nx.adj_of G title)))
    as [keywords|e] eqn:Ek; [| discriminate]. simpl.
  apply (filter_o_filter _ (is_keyword G)) in Ek; [| apply has_type_keyword].
  destruct (fold_o (tally_shared G title) keywords []) as [similar_pubs|e] eqn:Et;
    [| discriminate]. simpl.
  intros [= <-]. apply tally_keywords in Et. destruct Et as [Hok Hcount].
  destruct Hok as [Hnodup Hpos]; [split; [constructor | intros k v []] |].
  assert (Hsorted : NoDup (map fst (Py.sorted_desc snd similar_pubs))).
  { eapply Permutation_NoDup; [| exact Hnodup].
    apply Permutation_map, Permutation_sym, sorted_desc_perm. }
  split; [| split].
  - unfold Py.slice_to.
    destruct (0 <=? n)%Z; rewrite <- firstn_map;
      match goal with |- NoDup (firstn ?k ?l) =>
        rewrite <- (firstn_skipn k l) in Hsorted; now apply NoDup_app_remove_r in Hsorted end.
  - intros Hn. unfold Py.slice_to. apply Z.leb_le in Hn. rewrite Hn.
    rewrite length_firstn. lia.
  - intros pub count Hin. apply in_slice_to in Hin. rewrite in_sorted_desc in Hin.
    pose proof (Hpos pub count Hin) as Hone.
    apply in_get_nodup in Hin; [| exact Hnodup].
    specialize (Hcount pub). unfold count_of in Hcount at 1 2. rewrite Hin in Hcount.
    simpl in Hcount.
    destruct (counted pub) eqn:Ec; [| lia].
    unfold counted in Ec. apply andb_true_iff in Ec. destruct Ec as [_ Epub].
    split; [exact Epub |]. split; [exact Hone |].
    rewrite Hcount. unfold shared_keywords. subst keywords.
    clear. induction (Dict.keys (Nx.adj_of G title)) as [|k l IH]; [reflexivity |].
    simpl. destruct (is_keyword G k); simpl; [| exact IH].
    destruct (PyStr.mem pub (Dict.keys (Nx.adj_of G k))); simpl; now rewrite IH.
Qed.

End SharedKeywords.

Section SimilarOnBuiltGraph.

Variable self : ClassBody.
Variable publications_df : list Row.
Variable stop_words : list string.
Variable word_tokenize : string -> option (list string).
Variable str_hash : string -> string.
Variable fetch_from_web : nat -> string -> outcome Content.
Variable df_sample : nat -> list Row -> nat -> list Row.
Variable tfidf_first_row : list string -> outcome (list (string * Q)).

Local Abbreviation build :=
  (build_knowledge_graph self publications_df stop_words word_tokenize str_hash
     fetch_from_web df_sample tfidf_first_row).

(** X20: on a graph built from the empty one, the similarity engine
    lists publications, each once, and at most [n] of them when [n] is not
    negative. *)
Theorem similar_publications_are_distinct (num_publications : option nat) (G : Graph)
    (w w' : World) (title : string) (n : Z) (similar : list (string * nat)) :
  build Nx.empty num_publications false w = (Ret G, w') ->
  get_similar_publications G title n = Ret similar ->
  NoDup (map fst similar)
  /\ ((0 <= n)%Z -> List.length similar <= Z.to_nat n)
  /\ Forall (fun entry => Nx.get_type G (fst entry) = Some "publication") similar.
Proof.
  intros Hbuild Hsimilar. apply build_described in Hbuild. destruct Hbuild as [Hwf _].
  destruct (similar_publications_spec G title Hwf n similar Hsimilar) as [H1 [H2 H3]].
  split; [exact H1 |]. split; [exact H2 |].
  apply Forall_forall. intros [pub count] Hin. cbn [fst].
  destruct (H3 pub count Hin) as [Hpub _]. unfold is_publication in Hpub.
  destruct (Nx.get_type G pub) as [t|]; [| discriminate].
  apply String.eqb_eq in Hpub. now subst t.
Qed.

(** X21: on a graph built from the empty one, the number that goes
    with a publication in the list of similar publications is the number of
    keywords it shares with [title]: the neighbours of [title] typed
    'keyword' that are its neighbours too; that number is at least 1. *)
Theorem similarity_counts_shared_keywords (num_publications : option nat) (G : Graph)
    (w w' : World) (title : string) (n : Z) (similar : list (string * nat)) :
  build Nx.empty num_publications false w = (Ret G, w') ->
  get_similar_publications G title n = Ret similar ->
  Forall (fun entry =>
            snd entry = List.length (shared_keywords G title (fst entry))
            /\ 1 <= snd entry)
         similar.
Proof.
  intros Hbuild Hsimilar. apply build_described in Hbuild. destruct Hbuild as [Hwf _].
  destruct (similar_publications_spec G title Hwf n similar Hsimilar) as [_ [_ H3]].
  apply Forall_forall. intros [pub count] Hin. cbn [fst snd].
  destruct (H3 pub count Hin) as [_ [Hone Hcount]]. now split.
Qed.

End SimilarOnBuiltGraph.

Lemma similar_publications_are_distinct_witness :
  NoDup (map fst [("Bone density in orbit", 2); ("Skeletal changes in rats", 1)])
  /\ ((0 <= 5)%Z ->
      List.length [("Bone density in orbit", 2); ("Skeletal changes in rats", 1)] <= Z.to_nat 5)
  /\ Forall (fun entry => Nx.get_type bone_graph (fst entry) = Some "publication")
            [("Bone density in orbit", 2); ("Skeletal changes in rats", 1)].
Proof.
  apply (similar_publications_are_distinct PublicationProcessor bone_corpus basic_stop_words
           punkt_missing sample_hash network_down first_rows no_scores None bone_graph
           bone_world (snd (sample_build bone_corpus bone_world)) "Bone loss in mice" 5).
  - vm_compute. reflexivity.
  - vm_compute. reflexivity.
Defined.

Lemma similarity_counts_shared_keywords_witness :
  Forall (fun entry =>
            snd entry = List.length (shared_keywords bone_graph "Bone loss in mice" (fst entry))
            /\ 1 <= snd entry)
         [("Bone density in orbit", 2); ("Skeletal changes in rats", 1)].
Proof.
  apply (similarity_counts_shared_keywords PublicationProcessor bone_corpus basic_stop_words
           punkt_missing sample_hash network_down first_rows no_scores None bone_graph
           bone_world (snd (sample_build bone_corpus bone_world)) "Bone loss in mice" 5).
  - vm_compute. reflexivity.
  - vm_compute. reflexivity.
Defined.

(** * Further properties of the cluster engine *)

Section ClusterMerging.

Variable list_of_set : list string -> list string.

Local Abbreviation pubs_of := (flat_map cluster_pubs).

Lemma filter_partition {A : Type} (f : A -> bool) (l : list A) :
  Permutation l (filter f l ++ filter (fun x => negb (f x)) l).
Proof.
  induction l as [|x l IH]; [constructor |]. simpl.
  destruct (f x); simpl; [now constructor |].
  now apply Permutation_cons_app.
Qed.

Lemma place_small_pubs (combined : list Cluster) (small : Cluster) :
  Permutation (pubs_of (place_small combined small)) (pubs_of combined ++ cluster_pubs small).
Proof.
  unfold place_small. destruct (merge_into combined small) as [merged|] eqn:E.
  - apply merge_into_some in E. destruct E as [before [large [after [-> ->]]]].
    rewrite !flat_map_app. cbn [flat_map cluster_pubs fst snd].
    rewrite <- !app_assoc. do 2 apply Permutation_app_head.
    apply Permutation_app_comm.
  - rewrite flat_map_app. cbn [flat_map]. now rewrite app_nil_r.
Qed.

Lemma fold_place_small_pubs (smalls combined : list Cluster) :
  Permutation (pubs_of (fold_left place_small smalls combined))
              (pubs_of combined ++ pubs_of smalls).
Proof.
  revert combined. induction smalls as [|small smalls IH]; intros combined; cbn [fold_left].
  - cbn [flat_map]. now rewrite app_nil_r.
  - rewrite IH. cbn [flat_map]. rewrite app_assoc.
    apply Permutation_app_tail, place_small_pubs.
Qed.

Lemma combine_clusters_pubs (cands : list Cluster) :
  Permutation (pubs_of (combine_clusters list_of_set cands)) (pubs_of cands).
Proof.
  unfold combine_clusters.
  set (sorted := Py.sorted_desc cluster_size cands).
  set (larges := filter (fun c => 3 <=? cluster_size c) sorted).
  set (smalls := filter (fun c => negb (3 <=? cluster_size c)) sorted).
  assert (Hparts : Permutation (pubs_of cands) (pubs_of larges ++ pubs_of smalls)).
  { rewrite <- flat_map_app.
    apply Permutation_flat_map.
    transitivity sorted; [apply Permutation_sym, sorted_desc_perm | apply filter_partition]. }
  rewrite Hparts.
  match goal with |- Permutation (pubs_of (Py.sorted_desc _ ?l)) _ =>
    transitivity (pubs_of l);
      [apply Permutation_flat_map, sorted_desc_perm |]
  end.
  destruct smalls as [|small smalls'] eqn:Es.
  - cbn [flat_map]. now rewrite app_nil_r.
  - destruct larges as [|large larges'] eqn:El.
    + destruct (2 <=? List.length (small :: smalls')).
      * cbn [flat_map cluster_pubs fst snd app]. now rewrite app_nil_r.
      * reflexivity.
    + apply fold_place_small_pubs.
Qed.

(** A property of clusters that merging keeps. *)
Lemma combine_clusters_keeps (P : Cluster -> Prop) (cands : list Cluster) :
  (forall large small, P large -> P small ->
     P (cluster_id large, cluster_pubs large ++ cluster_pubs small, cluster_themes large)) ->
  (forall smalls, Forall P smalls -> smalls <> [] ->
     P (1, flat_map cluster_pubs smalls,
        firstn 5 (list_of_set (flat_map cluster_themes smalls)))) ->
  Forall P cands -> Forall P (combine_clusters list_of_set cands).
Proof.
  intros Hmerge Hall Hcands. unfold combine_clusters.
  set (sorted := Py.sorted_desc cluster_size cands).
  assert (Hsorted : Forall P sorted).
  { apply Forall_forall. intros c Hc. apply in_sorted_desc in Hc.
    rewrite Forall_forall in Hcands. now apply Hcands. }
  assert (Hfilter : forall f, Forall P (filter f sorted)).
  { intros f. apply Forall_forall. intros c Hc. apply filter_In in Hc.
    rewrite Forall_forall in Hsorted. now apply Hsorted. }
  pose proof (Hfilter (fun c => 3 <=? cluster_size c)) as Hlarges.
  pose proof (Hfilter (fun c => negb (3 <=? cluster_size c))) as Hsmalls.
  set (larges := filter (fun c => 3 <=? cluster_size c) sorted) in *.
  set (smalls := filter (fun c => negb (3 <=? cluster_size c)) sorted) in *.
  assert (Hplace : forall combined small,
            Forall P combined -> P small -> Forall P (place_small combined small)).
  { intros combined small Hc Hs. unfold place_small.
    destruct (merge_into combined small) as [merged|] eqn:E.
    - apply merge_into_some in E. destruct E as [before [large [after [-> ->]]]].
      apply Forall_app in Hc. destruct Hc as [Hb Hla]. inversion Hla as [|? ? Hl Ha]; subst.
      apply Forall_app. split; [exact Hb |]. constructor; [now apply Hmerge | exact Ha].
    - apply Forall_app. split; [exact Hc | now constructor]. }
  assert (Hfold : forall ss combined,
            Forall P ss -> Forall P combined -> Forall P (fold_left place_small ss combined)).
  { induction ss as [|s ss IH]; intros combined Hss Hc; [exact Hc |].
    inversion Hss; subst. cbn [fold_left]. apply IH; [assumption | now apply Hplace]. }
  assert (Hresult : forall l, Forall P l -> Forall P (Py.sorted_desc cluster_size l)).
  { intros l Hl. apply Forall_forall. intros c Hc. apply in_sorted_desc in Hc.
    rewrite Forall_forall in Hl. now apply Hl. }
  apply Hresult.
  destruct smalls as [|small smalls'] eqn:Es; [exact Hlarges |].
  destruct larges as [|large larges'] eqn:El; [| now apply Hfold].
  destruct (2 <=? List.length (small :: smalls')); [| exact Hsmalls].
  constructor; [| constructor]. apply Hall; [exact Hsmalls | discriminate].
Qed.

End ClusterMerging.

Section ClusterContents.
Import PyStr.

Variable stop_words : list string.
Variable list_of_set : list string -> list string.
Variable G : Graph.

Local Abbreviation clusters := (identify_research_clusters stop_words list_of_set G).

(** A cluster as the engine hands it out: it has a publication, all its
    members are nodes typed 'publication', and it has at most 5 themes. *)
Definition cluster_ok (c : Cluster) : Prop :=
  cluster_pubs c <> []
  /\ Forall (fun pub => is_publication G pub = true) (cluster_pubs c)
  /\ List.length (cluster_themes c) <= 5.

Lemma themes_of_length (publications : list string) :
  List.length (themes_of stop_words G publications) <= 5.
Proof.
  unfold themes_of.
  assert (H : List.length
                (map fst (firstn 5 (Py.sorted_desc snd
                                      (fold_left (count_keywords G) publications [])))) <= 5)
    by (rewrite length_map, length_firstn; lia).
  destruct (map fst (firstn 5 _)) as [|t rest]; [| exact H].
  unfold title_themes. rewrite length_map.
  etransitivity; [apply filter_length_le |].
  unfold Py.most_common. rewrite length_firstn. lia.
Qed.

Lemma append_member_members (P : string -> Prop) (community_id : nat) (node : string)
    (communities : list (nat * list string)) :
  P node -> Forall (fun c => Forall P (snd c)) communities ->
  Forall (fun c => Forall P (snd c)) (append_member community_id node communities).
Proof.
  intros Hnode. induction communities as [|[i members] rest IH]; intros H; simpl.
  - repeat constructor. exact Hnode.
  - inversion H as [|? ? Hm Hrest]; subst. destruct (i =? community_id).
    + constructor; [| exact Hrest]. cbn [snd] in *. apply Forall_app. split; [exact Hm |].
      now constructor.
    + constructor; [exact Hm | now apply IH].
Qed.

Lemma group_publications_members (partition : list (string * nat)) :
  Forall (fun c => Forall (fun pub => is_publication G pub = true) (snd c))
         (group_publications G partition).
Proof.
  unfold group_publications.
  assert (H : forall communities,
            Forall (fun c => Forall (fun pub => is_publication G pub = true) (snd c)) communities ->
            Forall (fun c => Forall (fun pub => is_publication G pub = true) (snd c))
                   (fold_left
                      (fun communities '(node, community_id) =>
                         if Nx.has_node G node && is_publication G node
                         then append_member community_id node communities
                         else communities)
                      partition communities)).
  { induction partition as [|[node community_id] rest IH]; intros communities Hc; [exact Hc |].
    cbn [fold_left]. apply IH.
    destruct (Nx.has_node G node && is_publication G node) eqn:E; [| exact Hc].
    apply andb_true_iff in E. destruct E as [_ E]. now apply append_member_members. }
  apply H. constructor.
Qed.

Lemma candidates_ok (d : Detection) : Forall cluster_ok (candidates stop_words G d).
Proof.
  apply Forall_forall. intros c Hc. destruct d as [partition | components]; cbn [candidates] in Hc.
  - apply in_map_iff in Hc. destruct Hc as [[community_id publications] [<- Hin]].
    apply filter_In in Hin. destruct Hin as [Hin Hsize]. cbn [snd] in Hsize.
    pose proof (group_publications_members partition) as Hall.
    rewrite Forall_forall in Hall. specialize (Hall _ Hin). cbn [snd] in Hall.
    split; [| split]; cbn [cluster_pubs cluster_themes fst snd].
    + destruct publications; [discriminate | discriminate].
    + exact Hall.
    + apply themes_of_length.
  - apply in_flat_map in Hc. destruct Hc as [[i component] [_ Hc]].
    destruct (filter (is_publication G) component) as [|p ps] eqn:E; [now contradiction Hc |].
    destruct Hc as [<- | []].
    split; [| split]; cbn [cluster_pubs cluster_themes fst snd].
    + discriminate.
    + rewrite <- E. apply Forall_forall. intros pub Hpub. apply filter_In in Hpub. tauto.
    + apply themes_of_length.
Qed.

(** X22: merging loses no publication and repeats none: the
    publications of the clusters returned are, up to their order, the
    publications of the candidate clusters the community detection gave. *)
Theorem clusters_keep_every_publication (d : Detection) :
  Permutation (flat_map cluster_pubs (clusters d))
              (flat_map cluster_pubs (candidates stop_words G d)).
Proof. apply combine_clusters_pubs. Qed.

(** X23: the clusters are returned by descending size; each has at
    least one publication, only nodes typed 'publication', and at most 5
    themes. *)
Theorem clusters_are_sorted_and_sound (d : Detection) :
  StronglySorted (fun a b => cluster_size b <= cluster_size a) (clusters d)
  /\ Forall (fun c =>
               cluster_pubs c <> []
               /\ Forall (fun pub => is_publication G pub = true) (cluster_pubs c)
               /\ List.length (cluster_themes c) <= 5)
            (clusters d).
Proof.
  split.
  - unfold identify_research_clusters, combine_clusters. apply sorted_desc_sorted.
  - apply (combine_clusters_keeps list_of_set cluster_ok); [| | apply candidates_ok].
    + intros large small [Hl1 [Hl2 Hl3]] [Hs1 [Hs2 Hs3]].
      split; [| split]; cbn [cluster_pubs cluster_themes fst snd].
      * destruct (cluster_pubs large); [congruence | discriminate].
      * apply Forall_app. now split.
      * exact Hl3.
    + intros smalls Hsmalls Hne.
      split; [| split]; cbn [cluster_pubs cluster_themes fst snd].
      * destruct smalls as [|s smalls]; [congruence |].
        inversion Hsmalls as [|? ? [Hs _] _]; subst. cbn [flat_map].
        destruct (cluster_pubs s); [congruence | discriminate].
      * apply Forall_flat_map. apply Forall_forall. intros s Hs.
        rewrite Forall_forall in Hsmalls. now destruct (Hsmalls s Hs) as [_ [H _]].
      * rewrite length_firstn. lia.
Qed.

End ClusterContents.

(** * The graph as data for the front end

    [generate_graph_data_for_visualization]: the nodes and the links in the
    form the D3 view reads. *)

(** [G.degree(n)]: the number of neighbours, a self-loop counted twice. *)
Definition degree (G : Graph) (n : string) : nat :=
  let nbrs := Nx.adj_of G n in
  List.length nbrs + (if Dict.has n nbrs then 1 else 0).

(** An entry of ['nodes']; an entry for a keyword has no [url] and no
    [themes] key. *)
Record VizNode : Type := mkVizNode {
  v_id : string;
  v_name : string;
  v_type : string;
  v_size : nat;
  v_url : option string;
  v_themes : option (list string)
}.

(** An entry of ['links']. *)
Record VizLink : Type := mkVizLink {
  l_source : string;
  l_target : string;
  l_weight : nat;
  l_section : string
}.

(** [d.get(key, default)] *)
Definition get_or {A : Type} (default : A) (o : option A) : A :=
  match o with Some x => x | None => default end.

(** [node if len(node) < 50 else node[:47] + '...'] *)
Definition display_name (node : string) : string :=
  if String.length node <? 50 then node else (substring 0 47 node ++ "...")%string.

(** The body of the loop over the nodes: what it appends. *)
Definition viz_node (G : Graph) (node : string) (attrs : NodeAttrs) : list VizNode :=
  let node_type := get_or "unknown" (n_type attrs) in
  if String.eqb node_type "publication" then
    [ mkVizNode node (display_name node) node_type (10 + degree G node)
        (Some (get_or "" (n_url attrs))) (Some (get_or [] (n_themes attrs))) ]
  else if String.eqb node_type "keyword" then
    [ mkVizNode node node node_type (5 + degree G node * 2) None None ]
  else [].

Definition viz_link (edge : string * string * EdgeAttrs) : VizLink :=
  let '(source, target, data) := edge in
  mkVizLink source target (get_or 1 (e_weight data)) (get_or "unknown" (e_section data)).

Definition generate_graph_data_for_visualization (G : Graph) : list VizNode * list VizLink :=
  (flat_map (fun '(node, attrs) => viz_node G node attrs) (_node G),
   map viz_link (Nx.edges G)).

Section Visualization.

Lemma length_substring_0 (n : nat) (s : string) :
  n <= String.length s -> String.length (substring 0 n s) = n.
Proof.
  revert s. induction n as [|n IH]; intros s H.
  - now destruct s.
  - destruct s as [|c s]; simpl in *; [lia |]. rewrite IH; lia.
Qed.

(** X24: a node is shown under its own id, except a publication whose
    title has 50 characters or more: its name is the first 47 characters of
    the title followed by three dots, 50 characters in all. A keyword is
    never shortened. *)
Theorem displayed_names_fit (G : Graph) :
  Forall (fun v =>
            (v_name v = v_id v
             /\ (v_type v = "publication" -> String.length (v_id v) < 50))
            \/ (v_type v = "publication" /\ 50 <= String.length (v_id v)
                /\ v_name v = (substring 0 47 (v_id v) ++ "...")%string
                /\ String.length (v_name v) = 50))
         (fst (generate_graph_data_for_visualization G)).
Proof.
  apply Forall_forall. intros v Hv. cbn [generate_graph_data_for_visualization fst] in Hv.
  apply in_flat_map in Hv. destruct Hv as [[node attrs] [_ Hv]]. unfold viz_node in Hv.
  destruct (String.eqb (get_or "unknown" (n_type attrs)) "publication") eqn:Epub.
  - destruct Hv as [<- | []]. cbn [v_id v_name v_type]. unfold display_name.
    apply String.eqb_eq in Epub.
    destruct (String.length node <? 50) eqn:Elen.
    + left. apply Nat.ltb_lt in Elen. now split.
    + right. apply Nat.ltb_ge in Elen. split; [exact Epub |]. split; [exact Elen |].
      split; [reflexivity |]. rewrite length_app_string, length_substring_0 by lia.
      reflexivity.
  - destruct (String.eqb (get_or "unknown" (n_type attrs)) "keyword") eqn:Ekw; [| destruct Hv].
    destruct Hv as [<- | []]. cbn [v_id v_name v_type]. left. split; [reflexivity |].
    intros Hp. rewrite Hp in Epub. discriminate Epub.
Qed.

End Visualization.

(** ** Keywords are never isolated *)

(** A node with an edge. *)
Definition has_edge (G : Graph) (n : string) : Prop :=
  exists v e, Nx.edge_attr G n v = Some e.

Definition keywords_attached (G : Graph) : Prop :=
  forall n a, Nx.node_attr G n = Some a -> n_type a = Some "keyword" -> has_edge G n.

Section AttachedKeywords.

Variable stop_words : list string.
Variable word_tokenize : string -> option (list string).

Lemma has_edge_degree (G : Graph) (n : string) : has_edge G n -> 1 <= degree G n.
Proof.
  intros [v [e H]]. unfold Nx.edge_attr in H. unfold degree. cbv zeta.
  destruct (Nx.adj_of G n); [discriminate | simpl; lia].
Qed.

Lemma keywords_attached_add_keywords (title section : string) (keywords : list (string * nat))
    (G : Graph) :
  adj_in_nodes G -> Nx.node_attr G title <> None -> keywords_attached G ->
  keywords_attached (add_keywords title section keywords G).
Proof.
  revert G. induction keywords as [|[k c] rest IH]; intros G Hadj Hnode HG; [exact HG |].
  rewrite add_keywords_cons. destruct (3 <? String.length k); [| now apply IH].
  apply IH; [now apply adj_in_nodes_add_keyword | now apply node_stays_add_keyword |].
  intros m a Hm Hkw. rewrite node_attr_add_keyword in Hm by exact Hnode.
  destruct (String.eqb k m) eqn:E.
  - apply String.eqb_eq in E. subst m. exists title. eexists.
    rewrite edge_attr_add_keyword by exact Hadj.
    unfold same_pair. rewrite !String.eqb_refl, orb_true_r. reflexivity.
  - destruct (HG m a Hm Hkw) as [v [e He]]. exists v.
    rewrite edge_attr_add_keyword by exact Hadj.
    destruct (same_pair title k m v); eexists; [reflexivity | exact He].
Qed.

Lemma keywords_attached_add_doc (G : Graph) (d : Doc) :
  well_formed G -> keywords_attached G ->
  keywords_attached (add_doc stop_words word_tokenize G d).
Proof.
  intros Hwf HG. rewrite add_doc_unfold.
  set (G0 := Nx.add_node (doc_title d) (publication_node d) G).
  assert (Hwf0 : well_formed G0) by now apply well_formed_add_node.
  assert (Hnode0 : Nx.node_attr G0 (doc_title d) <> None).
  { unfold G0. rewrite node_attr_add_node, String.eqb_refl. discriminate. }
  assert (H0 : keywords_attached G0).
  { intros m a Hm Hkw. unfold G0 in Hm. rewrite node_attr_add_node in Hm.
    destruct (String.eqb (doc_title d) m).
    - injection Hm as <-. discriminate Hkw.
    - destruct (HG m a Hm Hkw) as [v [e He]]. exists v, e. unfold G0.
      now rewrite edge_attr_add_node by apply (wf_adj_in_nodes G Hwf). }
  set (G1 := add_keywords (doc_title d) "abstract"
               (abstract_keywords stop_words word_tokenize d) G0).
  assert (Hwf1 : well_formed G1) by now apply well_formed_add_keywords.
  apply keywords_attached_add_keywords.
  - apply (wf_adj_in_nodes G1 Hwf1).
  - now apply node_stays_add_keywords.
  - apply keywords_attached_add_keywords;
      [apply (wf_adj_in_nodes G0 Hwf0) | exact Hnode0 | exact H0].
Qed.

Lemma keywords_attached_graph_of_docs (docs : list Doc) (G : Graph) :
  well_formed G -> keywords_attached G ->
  keywords_attached (graph_of_docs stop_words word_tokenize docs G).
Proof.
  revert G. induction docs as [|d docs IH]; intros G Hwf HG; [exact HG |].
  cbn [graph_of_docs fold_left]. apply IH; [now apply well_formed_add_doc |].
  now apply keywords_attached_add_doc.
Qed.

End AttachedKeywords.

Section VisualizedBuild.

Variable self : ClassBody.
Variable publications_df : list Row.
Variable stop_words : list string.
Variable word_tokenize : string -> option (list string).
Variable str_hash : string -> string.
Variable fetch_from_web : nat -> string -> outcome Content.
Variable df_sample : nat -> list Row -> nat -> list Row.
Variable tfidf_first_row : list string -> outcome (list (string * Q)).

Local Abbreviation build :=
  (build_knowledge_graph self publications_df stop_words word_tokenize str_hash
     fetch_from_web df_sample tfidf_first_row).

Lemma build_attaches_keywords (num_publications : option nat) (G : Graph) (w w' : World) :
  build Nx.empty num_publications false w = (Ret G, w') -> keywords_attached G.
Proof.
  intros H. apply build_is_graph_of_docs in H. destruct H as [docs [_ ->]].
  apply keywords_attached_graph_of_docs; [apply well_formed_empty |].
  intros n a Hn. discriminate Hn.
Qed.

Lemma in_node_attr (G : Graph) (n : string) (a : NodeAttrs) :
  well_formed G -> In (n, a) (_node G) -> Nx.node_attr G n = Some a.
Proof. intros Hwf Hin. now apply in_get_nodup; [apply (wf_nodup_node G Hwf) |]. Qed.

Lemma node_in_keys (G : Graph) (n : string) :
  Nx.node_attr G n <> None -> In n (Dict.keys (_node G)).
Proof.
  unfold Nx.node_attr. intros H. destruct (Dict.get n (_node G)) as [a|] eqn:E; [| congruence].
  now apply get_some_in_keys in E.
Qed.

(** X25: the data of a graph built from the empty one are complete and
    closed. There is one entry per node of the graph, in the order of the
    graph; every link joins two nodes that are listed, and carries the
    weight and the section of its edge, never the defaults: a weight of at
    least 1 and the section 'abstract' or 'conclusion'. *)
Theorem visualization_is_closed (num_publications : option nat) (G : Graph) (w w' : World) :
  build Nx.empty num_publications false w = (Ret G, w') ->
  let nodes := fst (generate_graph_data_for_visualization G) in
  let links := snd (generate_graph_data_for_visualization G) in
  map v_id nodes = Dict.keys (_node G)
  /\ List.length links = List.length (Nx.edges G)
  /\ Forall (fun l =>
               In (l_source l) (map v_id nodes) /\ In (l_target l) (map v_id nodes)
               /\ 1 <= l_weight l
               /\ (l_section l = "abstract" \/ l_section l = "conclusion"))
            links.
Proof.
  intros Hbuild. cbv zeta. cbn [generate_graph_data_for_visualization fst snd].
  apply build_described in Hbuild. destruct Hbuild as [Hwf [Hnodes [Hedges _]]].
  assert (Hids : map v_id (flat_map (fun '(node, attrs) => viz_node G node attrs) (_node G))
                 = Dict.keys (_node G)).
  { assert (H : forall l, incl l (_node G) ->
                map v_id (flat_map (fun '(node, attrs) => viz_node G node attrs) l)
                = Dict.keys l).
    { induction l as [|[n a] l IH]; intros Hincl; [reflexivity |].
      cbn [flat_map Dict.keys map fst]. rewrite map_app, IH
        by (intros x Hx; apply Hincl; now right).
      assert (Hn : Nx.node_attr G n = Some a)
        by (apply in_node_attr; [exact Hwf | apply Hincl; now left]).
      destruct (Hnodes n a Hn) as [[Ht | Ht] _]; unfold viz_node; rewrite Ht; reflexivity. }
    apply H, incl_refl. }
  split; [exact Hids |]. split; [apply length_map |].
  rewrite Hids. apply Forall_forall. intros l Hl. apply in_map_iff in Hl.
  destruct Hl as [[[u v] e] [<- Hin]].
  apply (in_edges_edge_attr G u v e Hwf) in Hin.
  pose proof Hin as Hback. rewrite (wf_symmetric G Hwf) in Hback.
  destruct (Hedges u v e Hin) as [count [section [-> [Hcount Hsection]]]].
  cbn [viz_link l_source l_target l_weight l_section section_edge e_weight e_section get_or].
  split; [apply node_in_keys; now apply (wf_endpoints G Hwf u v _ Hin) |].
  split; [apply node_in_keys; now apply (wf_endpoints G Hwf v u _ Hback) |].
  now split.
Qed.

(** X26: in a graph built from the empty one no keyword is isolated:
    a node typed 'keyword' has a neighbour, so its entry for the front end
    has a size of at least 7. *)
Theorem keywords_are_never_isolated (num_publications : option nat) (G : Graph) (w w' : World) :
  build Nx.empty num_publications false w = (Ret G, w') ->
  (forall n, Nx.get_type G n = Some "keyword" -> 1 <= degree G n)
  /\ Forall (fun v => v_type v = "keyword" -> 7 <= v_size v)
            (fst (generate_graph_data_for_visualization G)).
Proof.
  intros Hbuild. pose proof (build_attaches_keywords _ _ _ _ Hbuild) as Hattached.
  apply build_described in Hbuild. destruct Hbuild as [Hwf _].
  assert (Hdegree : forall n, Nx.get_type G n = Some "keyword" -> 1 <= degree G n).
  { intros n Hn. apply get_type_node_attr in Hn. destruct Hn as [a [Hn Ht]].
    apply has_edge_degree. now apply (Hattached n a). }
  split; [exact Hdegree |].
  apply Forall_forall. intros v Hv. cbn [generate_graph_data_for_visualization fst] in Hv.
  apply in_flat_map in Hv. destruct Hv as [[node attrs] [Hin Hv]]. unfold viz_node in Hv.
  destruct (String.eqb (get_or "unknown" (n_type attrs)) "publication") eqn:Epub.
  - destruct Hv as [<- | []]. cbn [v_type v_size]. intros Hkw.
    rewrite Hkw in Epub. discriminate Epub.
  - destruct (String.eqb (get_or "unknown" (n_type attrs)) "keyword") eqn:Ekw; [| destruct Hv].
    destruct Hv as [<- | []]. cbn [v_type v_size]. intros _.
    apply String.eqb_eq in Ekw.
    assert (Hn : Nx.get_type G node = Some "keyword").
    { apply get_type_node_attr. exists attrs. split; [now apply in_node_attr |].
      destruct (n_type attrs) as [t|]; [| discriminate Ekw]. cbn [get_or] in Ekw. now subst t. }
    specialize (Hdegree node Hn). lia.
Qed.

End VisualizedBuild.

Lemma visualization_is_closed_witness :
  map v_id (fst (generate_graph_data_for_visualization bone_graph))
  = Dict.keys (_node bone_graph)
  /\ List.length (snd (generate_graph_data_for_visualization bone_graph))
     = List.length (Nx.edges bone_graph)
  /\ Forall (fun l =>
               In (l_source l) (map v_id (fst (generate_graph_data_for_visualization bone_graph)))
               /\ In (l_target l)
                     (map v_id (fst (generate_graph_data_for_visualization bone_graph)))
               /\ 1 <= l_weight l
               /\ (l_section l = "abstract" \/ l_section l = "conclusion"))
            (snd (generate_graph_data_for_visualization bone_graph)).
Proof.
  apply (visualization_is_closed PublicationProcessor bone_corpus basic_stop_words
           punkt_missing sample_hash network_down first_rows no_scores None bone_graph
           bone_world (snd (sample_build bone_corpus bone_world))).
  vm_compute. reflexivity.
Defined.

Lemma keywords_are_never_isolated_witness :
  (forall n, Nx.get_type bone_graph n = Some "keyword" -> 1 <= degree bone_graph n)
  /\ Forall (fun v => v_type v = "keyword" -> 7 <= v_size v)
            (fst (generate_graph_data_for_visualization bone_graph)).
Proof.
  apply (keywords_are_never_isolated PublicationProcessor bone_corpus basic_stop_words
           punkt_missing sample_hash network_down first_rows no_scores None bone_graph
           bone_world (snd (sample_build bone_corpus bone_world))).
  vm_compute. reflexivity.
Defined.

(** * Looking publications up by keyword *)

(** An entry of the list [get_publication_by_keyword] returns. *)
Record KeywordHit : Type := mkKeywordHit {
  h_title : string;
  h_url : string;
  h_keyword : string
}.

(** [G.nodes[n]]: the attributes of a node, [KeyError] for a string that
    is no node. *)
Definition node_view (G : Graph) (n : string) : outcome NodeAttrs :=
  match Dict.get n (_node G) with
  | Some attrs => Ret attrs
  | None => Raise (KeyError n)
  end.

(** [attrs.get('type') == t] *)
Definition type_is (t : string) (attrs : NodeAttrs) : bool :=
  match n_type attrs with
  | Some ty => String.eqb ty t
  | None => false
  end.

(** The inner loop of [get_publication_by_keyword], over the neighbours of
    a keyword node. *)
Definition add_hit (G : Graph) (node : string) (publications : list KeywordHit)
    (neighbor : string) : outcome (list KeywordHit) :=
  attrs <- node_view G neighbor ;;
  Ret (if type_is "publication" attrs
       then publications ++ [mkKeywordHit neighbor (get_or "" (n_url attrs)) node]
       else publications).

(** [get_publication_by_keyword(keyword)] on the graph [G]. *)
Definition get_publication_by_keyword (G : Graph) (keyword : string)
  : outcome (list KeywordHit) :=
  fold_o (fun publications node =>
            attrs <- node_view G node ;;
            if type_is "keyword" attrs && PyStr.contains (PyStr.lower keyword) (PyStr.lower node)
            then nbrs <- Nx.neighbors G node ;; fold_o (add_hit G node) nbrs publications
            else Ret publications)
         (Dict.keys (_node G)) [].

Section PublicationsByKeyword.

Variable self : ClassBody.
Variable publications_df : list Row.
Variable stop_words : list string.
Variable word_tokenize : string -> option (list string).
Variable str_hash : string -> string.
Variable fetch_from_web : nat -> string -> outcome Content.
Variable df_sample : nat -> list Row -> nat -> list Row.
Variable tfidf_first_row : list string -> outcome (list (string * Q)).

(** [matches.iloc[0]['Link']] for the rows titled [pub_title], [None]
    when there is none. *)
Definition link_of_title (pub_title : string) : option string :=
  match List.find (fun row => String.eqb (Title row) pub_title) publications_df with
  | Some row => Some (Link row)
  | None => None
  end.

(** The loop of [get_publications_by_keyword], over the neighbours of the
    keyword. *)
Definition add_publication_of (G : Graph) (publications : list (string * option string))
    (node : string) : outcome (list (string * option string)) :=
  attrs <- node_view G node ;;
  Ret (if type_is "publication" attrs
       then publications ++ [(node, link_of_title node)]
       else publications).

(** [get_publications_by_keyword(keyword)]; [G] is [self.knowledge_graph]
    before the call, and the graph returned with the list is the one after
    it. An instance always has the attribute, so the first test is on the
    number of nodes alone. *)
Definition get_publications_by_keyword (G : Graph) (keyword : string)
  : M (list (string * option string) * Graph) :=
  G <~ (if List.length (_node G) =? 0
        then build_knowledge_graph self publications_df stop_words word_tokenize str_hash
               fetch_from_web df_sample tfidf_first_row G None true
        else ret G) ;;
  if negb (Nx.has_node G keyword) then ret ([], G)
  else
    nbrs <~ lift (Nx.neighbors G keyword) ;;
    publications <~ lift (fold_o (add_publication_of G) nbrs []) ;;
    ret (publications, G).

End PublicationsByKeyword.

(** ** What the two lookups return *)

Section KeywordLookup.
Import PyStr.

Variable G : Graph.
Hypothesis wf : well_formed G.

Lemma node_view_node (n : string) :
  Nx.node_attr G n <> None ->
  exists attrs, node_view G n = Ret attrs /\ Nx.node_attr G n = Some attrs.
Proof.
  unfold node_view, Nx.node_attr. destruct (Dict.get n (_node G)) as [a|]; [| congruence].
  intros _. now exists a.
Qed.

Lemma key_is_node (n : string) : In n (Dict.keys (_node G)) -> Nx.node_attr G n <> None.
Proof.
  intros H. apply in_keys_get in H. destruct H as [a H]. unfold Nx.node_attr. congruence.
Qed.

(** The publications among the neighbours of [node]. *)
Definition publication_neighbors (node : string) : list string :=
  filter (is_publication G) (Dict.keys (Nx.adj_of G node)).

Definition url_of (n : string) : string :=
  match Nx.node_attr G n with
  | Some attrs => get_or "" (n_url attrs)
  | None => ""
  end.

Lemma type_is_publication (n : string) (attrs : NodeAttrs) :
  Nx.node_attr G n = Some attrs -> type_is "publication" attrs = is_publication G n.
Proof.
  unfold type_is, is_publication, Nx.get_type, Nx.node_attr. now intros ->.
Qed.

Lemma type_is_keyword (n : string) (attrs : NodeAttrs) :
  Nx.node_attr G n = Some attrs -> type_is "keyword" attrs = is_keyword G n.
Proof.
  unfold type_is, is_keyword, Nx.get_type, Nx.node_attr. now intros ->.
Qed.

(** The inner loop on a well-formed graph. *)
Lemma add_hits (node : string) (nbrs : list string) (publications : list KeywordHit) :
  (forall nbr, In nbr nbrs -> Nx.node_attr G nbr <> None) ->
  fold_o (add_hit G node) nbrs publications
  = Ret (publications
         ++ map (fun nbr => mkKeywordHit nbr (url_of nbr) node)
                (filter (is_publication G) nbrs)).
Proof.
  revert publications. induction nbrs as [|nbr nbrs IH]; intros publications Hnodes.
  - simpl. now rewrite app_nil_r.
  - cbn [fold_o]. unfold add_hit at 1.
    destruct (node_view_node nbr (Hnodes nbr (or_introl eq_refl))) as [attrs [-> Hattrs]].
    cbn [bind]. rewrite IH by (intros x Hx; apply Hnodes; now right).
    rewrite (type_is_publication nbr attrs Hattrs). cbn [filter].
    destruct (is_publication G nbr); [| reflexivity].
    cbn [map]. rewrite <- app_assoc. cbn [app]. unfold url_of. now rewrite Hattrs.
Qed.

(** The keyword nodes a query selects. *)
Definition selected (keyword node : string) : bool :=
  is_keyword G node && contains (lower keyword) (lower node).

Lemma get_publication_by_keyword_value (keyword : string) :
  get_publication_by_keyword G keyword
  = Ret (flat_map (fun node =>
                     map (fun nbr => mkKeywordHit nbr (url_of nbr) node)
                         (publication_neighbors node))
                  (filter (selected keyword) (Dict.keys (_node G)))).
Proof.
  unfold get_publication_by_keyword.
  assert (H : forall nodes publications,
            (forall n, In n nodes -> Nx.node_attr G n <> None) ->
            fold_o (fun publications node =>
                      attrs <- node_view G node ;;
                      if type_is "keyword" attrs && contains (lower keyword) (lower node)
                      then nbrs <- Nx.neighbors G node ;;
                           fold_o (add_hit G node) nbrs publications
                      else Ret publications)
                   nodes publications
            = Ret (publications
                   ++ flat_map (fun node =>
                                  map (fun nbr => mkKeywordHit nbr (url_of nbr) node)
                                      (publication_neighbors node))
                               (filter (selected keyword) nodes))).
  { induction nodes as [|node nodes IH]; intros publications Hnodes.
    - simpl. now rewrite app_nil_r.
    - cbn [fold_o].
      pose proof (Hnodes node (or_introl eq_refl)) as Hnode.
      destruct (node_view_node node Hnode) as [attrs [-> Hattrs]]. cbn [bind].
      rewrite (type_is_keyword node attrs Hattrs). fold (selected keyword node).
      cbn [filter]. destruct (selected keyword node).
      + rewrite (neighbors_returns G wf node Hnode). cbn [bind].
        rewrite add_hits by (intros nbr Hnbr; now apply (neighbor_is_node G wf node)).
        cbn [bind]. rewrite IH by (intros x Hx; apply Hnodes; now right).
        cbn [flat_map]. now rewrite <- app_assoc.
      + cbn [bind]. apply IH. intros x Hx. apply Hnodes. now right. }
  rewrite H; [reflexivity |]. intros n Hn. now apply key_is_node.
Qed.

End KeywordLookup.

Section KeywordLookupOnBuiltGraph.
Import PyStr.

Variable self : ClassBody.
Variable publications_df : list Row.
Variable stop_words : list string.
Variable word_tokenize : string -> option (list string).
Variable str_hash : string -> string.
Variable fetch_from_web : nat -> string -> outcome Content.
Variable df_sample : nat -> list Row -> nat -> list Row.
Variable tfidf_first_row : list string -> outcome (list (string * Q)).

Local Abbreviation build :=
  (build_knowledge_graph self publications_df stop_words word_tokenize str_hash
     fetch_from_web df_sample tfidf_first_row).
Local Abbreviation publications_by_keyword :=
  (get_publications_by_keyword self publications_df stop_words word_tokenize str_hash
     fetch_from_web df_sample tfidf_first_row).

(** X27: on a graph built from the empty one the lookup by substring
    returns, and a triple of title, url and keyword is in the list exactly
    when the keyword is a node typed 'keyword' whose lower-cased name holds
    the lower-cased query, the title is a node typed 'publication' joined to
    it by an edge, and the url is the one stored with the title. *)
Theorem keyword_lookup_lists_the_linked_publications (num_publications : option nat)
    (G : Graph) (w w' : World) (keyword : string) :
  build Nx.empty num_publications false w = (Ret G, w') ->
  exists hits,
    get_publication_by_keyword G keyword = Ret hits
    /\ forall title url node,
         In (mkKeywordHit title url node) hits
         <-> (Nx.get_type G node = Some "keyword"
              /\ contains (lower keyword) (lower node) = true
              /\ Nx.edge_attr G node title <> None
              /\ Nx.get_type G title = Some "publication"
              /\ exists attrs, Nx.node_attr G title = Some attrs
                               /\ url = get_or "" (n_url attrs)).
Proof.
  intros Hbuild. apply build_described in Hbuild. destruct Hbuild as [Hwf _].
  eexists. split; [apply (get_publication_by_keyword_value G Hwf) |].
  assert (Htype : forall n t,
            (match Nx.get_type G n with Some ty => String.eqb ty t | None => false end) = true
            <-> Nx.get_type G n = Some t).
  { intros n t. destruct (Nx.get_type G n) as [ty|]; [| split; discriminate].
    rewrite String.eqb_eq. split; [now intros -> | now intros [= ->]]. }
  intros title url node. rewrite in_flat_map. split.
  - intros [k [Hk Hin]]. apply filter_In in Hk. destruct Hk as [Hnode Hsel].
    apply in_map_iff in Hin. destruct Hin as [nbr [[= -> <- ->] Hnbr]].
    unfold publication_neighbors in Hnbr. apply filter_In in Hnbr. destruct Hnbr as [Hnbr Hpub].
    unfold selected in Hsel. apply andb_true_iff in Hsel. destruct Hsel as [Hkw Hsub].
    split; [now apply Htype |]. split; [exact Hsub |].
    apply in_keys_get in Hnbr. destruct Hnbr as [e He].
    split; [unfold Nx.edge_attr; congruence |].
    split; [now apply Htype |].
    assert (Hattrs : Nx.node_attr G title <> None).
    { apply (wf_endpoints G Hwf title node e). rewrite (wf_symmetric G Hwf). exact He. }
    unfold url_of. destruct (Nx.node_attr G title) as [attrs|]; [| congruence].
    now exists attrs.
  - intros [Hkw [Hsub [Hedge [Hpub [attrs [Hattrs ->]]]]]].
    exists node. split.
    + apply filter_In. split.
      * destruct (Nx.edge_attr G node title) as [e|] eqn:He; [| congruence].
        apply (wf_endpoints G Hwf) in He. unfold Nx.node_attr in He.
        destruct (Dict.get node (_node G)) as [a|] eqn:Ea; [| congruence].
        now apply get_some_in_keys in Ea.
      * unfold selected. apply andb_true_iff. split; [now apply Htype | exact Hsub].
    + apply in_map_iff. exists title. split.
      * unfold url_of. now rewrite Hattrs.
      * unfold publication_neighbors. apply filter_In. split; [| now apply Htype].
        unfold Nx.edge_attr in Hedge.
        destruct (Dict.get title (Nx.adj_of G node)) as [e|] eqn:He; [| congruence].
        now apply get_some_in_keys in He.
Qed.

Lemma add_publications_of (G : Graph) (nbrs : list string)
    (publications : list (string * option string)) :
  (forall nbr, In nbr nbrs -> Nx.node_attr G nbr <> None) ->
  fold_o (add_publication_of publications_df G) nbrs publications
  = Ret (publications
         ++ map (fun nbr => (nbr, link_of_title publications_df nbr))
                (filter (is_publication G) nbrs)).
Proof.
  revert publications. induction nbrs as [|nbr nbrs IH]; intros publications Hnodes.
  - simpl. now rewrite app_nil_r.
  - cbn [fold_o]. unfold add_publication_of at 1.
    destruct (node_view_node G nbr (Hnodes nbr (or_introl eq_refl))) as [attrs [-> Hattrs]].
    cbn [bind]. rewrite IH by (intros x Hx; apply Hnodes; now right).
    rewrite (type_is_publication G nbr attrs Hattrs). cbn [filter].
    destruct (is_publication G nbr); [| reflexivity].
    cbn [map]. now rewrite <- app_assoc.
Qed.

(** On a well-formed graph that has a node. *)
Lemma publications_by_keyword_value (G : Graph) (keyword : string) (w : World) :
  well_formed G -> _node G <> [] ->
  publications_by_keyword G keyword w
  = (Ret (if Nx.has_node G keyword
          then map (fun nbr => (nbr, link_of_title publications_df nbr))
                   (publication_neighbors G keyword)
          else [], G), w).
Proof.
  intros Hwf Hnodes. unfold get_publications_by_keyword.
  destruct (_node G) as [|first others] eqn:E; [congruence |]. cbn [List.length Nat.eqb].
  unfold bindM at 1. unfold ret at 1.
  destruct (Nx.has_node G keyword) eqn:Ehas; cbn [negb]; [| reflexivity].
  assert (Hnode : Nx.node_attr G keyword <> None).
  { unfold Nx.has_node, Dict.has in Ehas. unfold Nx.node_attr.
    destruct (Dict.get keyword (_node G)); [discriminate | discriminate]. }
  unfold bindM, lift. rewrite (neighbors_returns G Hwf keyword Hnode).
  rewrite add_publications_of by (intros nbr Hnbr; now apply (neighbor_is_node G Hwf keyword)).
  reflexivity.
Qed.

(** X28: on a graph built from at least one publication the exact
    lookup does not rebuild the graph and touches nothing: it returns with
    the same graph and the same world. The list holds, in the order of the
    neighbours, each neighbour of the name that is typed 'publication', with
    the link of the first row of the table that has its title; a name that
    is no node gives the empty list. *)
Theorem exact_lookup_reads_the_neighbours (num_publications : option nat) (G : Graph)
    (w w' w1 : World) (keyword : string) :
  build Nx.empty num_publications false w = (Ret G, w') ->
  head publications_df num_publications <> [] ->
  exists publications,
    publications_by_keyword G keyword w1 = (Ret (publications, G), w1)
    /\ map fst publications = publication_neighbors G keyword
    /\ Forall (fun entry => snd entry = link_of_title publications_df (fst entry)) publications
    /\ (Nx.has_node G keyword = false -> publications = []).
Proof.
  intros Hbuild Hrows. apply build_described in Hbuild.
  destruct Hbuild as [Hwf [_ [_ Htitles]]].
  assert (Hnodes : _node G <> []).
  { destruct (head publications_df num_publications) as [|row rows]; [congruence |].
    specialize (Htitles row (or_introl eq_refl)). unfold Nx.node_attr in Htitles.
    intros Hempty. rewrite Hempty in Htitles. now apply Htitles. }
  eexists. split; [apply (publications_by_keyword_value G keyword w1 Hwf Hnodes) |].
  destruct (Nx.has_node G keyword) eqn:Ehas.
  - split; [| split; [| discriminate]].
    + rewrite map_map. cbn [fst]. apply map_id.
    + apply Forall_forall. intros entry Hin. apply in_map_iff in Hin.
      now destruct Hin as [nbr [<- _]].
  - split; [| split; [constructor | reflexivity]].
    unfold publication_neighbors, Nx.adj_of.
    assert (Hnone : Dict.get keyword (_adj G) = None).
    { apply (wf_adj_in_nodes G Hwf). unfold Nx.node_attr.
      unfold Nx.has_node, Dict.has in Ehas.
      now destruct (Dict.get keyword (_node G)). }
    now rewrite Hnone.
Qed.

(** X29: the two lookups agree on the name of a keyword node: on a
    graph built from at least one publication, every title the exact lookup
    returns for a node typed 'keyword' is returned by the lookup by
    substring too, with that node as its keyword. *)
Theorem exact_lookup_is_within_substring_lookup (num_publications : option nat) (G : Graph)
    (w w' w1 : World) (keyword : string) :
  build Nx.empty num_publications false w = (Ret G, w') ->
  head publications_df num_publications <> [] ->
  Nx.get_type G keyword = Some "keyword" ->
  exists publications hits,
    publications_by_keyword G keyword w1 = (Ret (publications, G), w1)
    /\ get_publication_by_keyword G keyword = Ret hits
    /\ forall title, In title (map fst publications) ->
         exists url, In (mkKeywordHit title url keyword) hits.
Proof.
  intros Hbuild Hrows Hkw. apply build_described in Hbuild.
  destruct Hbuild as [Hwf [_ [_ Htitles]]].
  assert (Hnodes : _node G <> []).
  { destruct (head publications_df num_publications) as [|row rows]; [congruence |].
    specialize (Htitles row (or_introl eq_refl)). unfold Nx.node_attr in Htitles.
    intros Hempty. rewrite Hempty in Htitles. now apply Htitles. }
  assert (Hnode : In keyword (Dict.keys (_node G))).
  { unfold Nx.get_type in Hkw. destruct (Dict.get keyword (_node G)) as [a|] eqn:Ea;
      [now apply get_some_in_keys in Ea | discriminate]. }
  assert (Hhas : Nx.has_node G keyword = true).
  { apply in_keys_get in Hnode. destruct Hnode as [a Ha].
    unfold Nx.has_node, Dict.has. now rewrite Ha. }
  eexists. eexists.
  split; [apply (publications_by_keyword_value G keyword w1 Hwf Hnodes) |].
  split; [apply (get_publication_by_keyword_value G Hwf) |].
  rewrite Hhas. intros title Htitle. rewrite map_map in Htitle. cbn [fst] in Htitle.
  rewrite map_id in Htitle. exists (url_of G title).
  apply in_flat_map. exists keyword. split.
  - apply filter_In. split; [exact Hnode |]. unfold selected, is_keyword. rewrite Hkw.
    apply andb_true_iff. split; [reflexivity |].
    apply contains_iff. exists "", "". now rewrite app_empty_r.
  - apply in_map_iff. now exists title.
Qed.

End KeywordLookupOnBuiltGraph.

Lemma keyword_lookup_lists_the_linked_publications_witness :
  exists hits,
    get_publication_by_keyword bone_graph "DENS" = Ret hits
    /\ forall title url node,
         In (mkKeywordHit title url node) hits
         <-> (Nx.get_type bone_graph node = Some "keyword"
              /\ PyStr.contains (PyStr.lower "DENS") (PyStr.lower node) = true
              /\ Nx.edge_attr bone_graph node title <> None
              /\ Nx.get_type bone_graph title = Some "publication"
              /\ exists attrs, Nx.node_attr bone_graph title = Some attrs
                               /\ url = get_or "" (n_url attrs)).
Proof.
  apply (keyword_lookup_lists_the_linked_publications PublicationProcessor bone_corpus
           basic_stop_words punkt_missing sample_hash network_down first_rows no_scores None
           bone_graph bone_world (snd (sample_build bone_corpus bone_world)) "DENS").
  vm_compute. reflexivity.
Defined.

Lemma exact_lookup_reads_the_neighbours_witness :
  exists publications,
    get_publications_by_keyword PublicationProcessor bone_corpus basic_stop_words
      punkt_missing sample_hash network_down first_rows no_scores bone_graph "density"
      empty_world
    = (Ret (publications, bone_graph), empty_world)
    /\ map fst publications = publication_neighbors bone_graph "density"
    /\ Forall (fun entry => snd entry = link_of_title bone_corpus (fst entry)) publications
    /\ (Nx.has_node bone_graph "density" = false -> publications = []).
Proof.
  apply (exact_lookup_reads_the_neighbours PublicationProcessor bone_corpus basic_stop_words
           punkt_missing sample_hash network_down first_rows no_scores None bone_graph
           bone_world (snd (sample_build bone_corpus bone_world)) empty_world "density").
  - vm_compute. reflexivity.
  - discriminate.
Defined.

Lemma exact_lookup_is_within_substring_lookup_witness :
  exists publications hits,
    get_publications_by_keyword PublicationProcessor bone_corpus basic_stop_words
      punkt_missing sample_hash network_down first_rows no_scores bone_graph "density"
      empty_world
    = (Ret (publications, bone_graph), empty_world)
    /\ get_publication_by_keyword bone_graph "density" = Ret hits
    /\ forall title, In title (map fst publications) ->
         exists url, In (mkKeywordHit title url "density") hits.
Proof.
  apply (exact_lookup_is_within_substring_lookup PublicationProcessor bone_corpus
           basic_stop_words punkt_missing sample_hash network_down first_rows no_scores None
           bone_graph bone_world (snd (sample_build bone_corpus bone_world)) empty_world
           "density").
  - vm_compute. reflexivity.
  - discriminate.
  - vm_compute. reflexivity.
Defined.

(** * The trend keywords of [backend/app.py]

    [extract_keywords(text)] of the web application, which the trend
    endpoint applies to the abstracts; it is not the method of the
    processor. *)

Module App.
Import PyStr.

Definition stop_words : list string :=
  [ "a"; "an"; "the"; "and"; "or"; "but"; "is"; "are"; "in"; "on"; "at"; "to"; "for";
    "with"; "by"; "of" ].

(** The characters of the argument of [strip]: full stop, comma, semicolon,
    colon, the three pairs of brackets, the double quote (34) and the
    apostrophe (39). *)
Definition strip_chars : list ascii :=
  [ "."; ","; ";"; ":"; "("; ")"; "["; "]"; "{"; "}"; ascii_of_nat 34; ascii_of_nat 39;
    ascii_of_nat 34 ]%char.

Definition in_chars (chars : list ascii) (c : ascii) : bool := existsb (Ascii.eqb c) chars.

(** [s.lstrip(chars)] *)
Fixpoint lstrip (chars : list ascii) (s : string) : string :=
  match s with
  | EmptyString => EmptyString
  | String c r => if in_chars chars c then lstrip chars r else s
  end.

(** [s.rstrip(chars)] *)
Fixpoint rstrip (chars : list ascii) (s : string) : string :=
  match s with
  | EmptyString => EmptyString
  | String c r =>
      match rstrip chars r with
      | EmptyString => if in_chars chars c then EmptyString else String c EmptyString
      | kept => String c kept
      end
  end.

(** [s.strip(chars)] *)
Definition strip (chars : list ascii) (s : string) : string := rstrip chars (lstrip chars s).

(** [list_of_set] is [list(set(l))]. *)
Definition extract_keywords (list_of_set : list string -> list string) (text : string)
  : list string :=
  let words := split (lower text) in
  let filtered_words :=
    map (strip strip_chars)
        (filter (fun word => (3 <? String.length word) && negb (mem (lower word) stop_words))
                words) in
  list_of_set filtered_words.

End App.

Section TrendKeywords.
Import PyStr.

Definition first_char (s : string) : option ascii :=
  match s with
  | EmptyString => None
  | String c _ => Some c
  end.

Fixpoint last_char (s : string) : option ascii :=
  match s with
  | EmptyString => None
  | String c EmptyString => Some c
  | String _ r => last_char r
  end.

Lemma lstrip_first (chars : list ascii) (s : string) (c : ascii) :
  first_char (App.lstrip chars s) = Some c -> App.in_chars chars c = false.
Proof.
  induction s as [|a s IH]; simpl; [discriminate |].
  destruct (App.in_chars chars a) eqn:E; [exact IH |]. simpl. now intros [= <-].
Qed.

Lemma rstrip_first (chars : list ascii) (s : string) (c : ascii) :
  first_char (App.rstrip chars s) = Some c -> first_char s = Some c.
Proof.
  destruct s as [|a s]; simpl; [discriminate |].
  destruct (App.rstrip chars s); [destruct (App.in_chars chars a); [discriminate |] |];
    simpl; now intros [= <-].
Qed.

Lemma rstrip_last (chars : list ascii) (s : string) (c : ascii) :
  last_char (App.rstrip chars s) = Some c -> App.in_chars chars c = false.
Proof.
  induction s as [|a s IH]; simpl; [discriminate |].
  destruct (App.rstrip chars s) as [|b kept] eqn:E.
  - destruct (App.in_chars chars a) eqn:Ea; [discriminate |]. simpl. now intros [= <-].
  - exact IH.
Qed.

(** A stripped word neither starts nor ends with a character of the
    set. *)
Lemma strip_ends (chars : list ascii) (s : string) (c : ascii) :
  first_char (App.strip chars s) = Some c \/ last_char (App.strip chars s) = Some c ->
  App.in_chars chars c = false.
Proof.
  unfold App.strip. intros [H | H].
  - apply rstrip_first in H. now apply lstrip_first in H.
  - now apply rstrip_last in H.
Qed.

Variable list_of_set : list string -> list string.
Hypothesis set_is_duplicate_free : forall l, NoDup (list_of_set l).
Hypothesis set_has_the_elements : forall l x, In x (list_of_set l) <-> In x l.

(** X30: the trend keywords are distinct. Each of them is what is left
    of a white-space separated word of the lower-cased text after the
    punctuation at its two ends is stripped; the word had more than 3
    characters and was no stop word before the stripping, and the keyword
    neither starts nor ends with a punctuation character of the set. *)
Theorem trend_keywords_are_stripped_words (text : string) :
  NoDup (App.extract_keywords list_of_set text)
  /\ Forall (fun keyword =>
               (exists word,
                   In word (split (lower text))
                   /\ 3 < String.length word
                   /\ mem (lower word) App.stop_words = false
                   /\ keyword = App.strip App.strip_chars word)
               /\ forall c,
                    first_char keyword = Some c \/ last_char keyword = Some c ->
                    App.in_chars App.strip_chars c = false)
            (App.extract_keywords list_of_set text).
Proof.
  unfold App.extract_keywords. cbv zeta. split; [apply set_is_duplicate_free |].
  apply Forall_forall. intros keyword Hin. rewrite set_has_the_elements in Hin.
  apply in_map_iff in Hin. destruct Hin as [word [<- Hword]].
  apply filter_In in Hword. destruct Hword as [Hword Hkeep].
  apply andb_true_iff in Hkeep. destruct Hkeep as [Hlen Hstop].
  apply Nat.ltb_lt in Hlen. apply negb_true_iff in Hstop.
  split; [now exists word |]. intros c. apply strip_ends.
Qed.

End TrendKeywords.

Lemma trend_keywords_are_stripped_words_witness :
  NoDup (App.extract_keywords distinct_elements "Bone loss (with, rats); bone loss.")
  /\ Forall (fun keyword =>
               (exists word,
                   In word (PyStr.split (PyStr.lower "Bone loss (with, rats); bone loss."))
                   /\ 3 < String.length word
                   /\ PyStr.mem (PyStr.lower word) App.stop_words = false
                   /\ keyword = App.strip App.strip_chars word)
               /\ forall c,
                    first_char keyword = Some c \/ last_char keyword = Some c ->
                    App.in_chars App.strip_chars c = false)
            (App.extract_keywords distinct_elements "Bone loss (with, rats); bone loss.").
Proof.
  apply (trend_keywords_are_stripped_words distinct_elements).
  - intros l. apply NoDup_nodup.
  - intros l x. apply nodup_In.
Defined.

(** On that text the keyword 'with' is returned: the word '(with,' is no
    stop word before it is stripped. *)
Example stripped_stop_word_is_returned :
  In "with" (App.extract_keywords distinct_elements "Bone loss (with, rats); bone loss.").
Proof. vm_compute. tauto. Qed.
